(** * Account search: validation, sorting, filter evaluation, suggestions

    A shallow embedding of the query-evaluation code of the account search
    prototype:

    - [utils/searchUtils.ts]: [validateSearchInput], [sortAccountsByField],
      [findClosestMatches];
    - [pages/PrimarySearchPage.tsx] and [pages/SecondarySearchPage.tsx]:
      [evaluateFilter], the AND/OR loop inside [filteredAccounts], and
      [addValueToFilter];
    - [types/searchTypes.ts] and [data/mockData.ts]: the record types.

    Modelling conventions.

    - A JavaScript string is a sequence of code units.  The model keeps the
      code units below 256 (Rocq's [ascii]), on which [toLowerCase], [trim]
      and the regular-expression classes [\d], [\s], [[a-zA-Z]] are written
      out in full.
    - A JavaScript number is [number]: NaN, an infinity, or a finite value
      carried as an exact rational.  Only the sign of a comparator's result
      and the outcome of [<], [>], [<=], [>=] are ever observed on the sort
      and filter paths; both are exact on doubles.
    - The score of [findClosestMatches] is computed in double precision:
      the value of a double is carried in [Q] and every [+], [-], [*], [/]
      of the source is followed by the rounding [Double.round], to the
      nearest double, a tie going to the even one.  Lengths and counts
      enter as the integers they are: a string has fewer than [2^53] code
      units, so they are exact, and no score comes near the largest double.
    - What the host supplies and the source leaves to it, string-to-number
      conversion and locale-aware collation, is the interface [Host].
    - [Array.prototype.sort] is the stable insertion sort [Js.sort]; for a
      consistent comparator every stable sort returns the same array. *)

From Stdlib Require Import ZArith QArith Qround Qpower Ascii String DecimalString.
From Stdlib Require Import Permutation Sorted Lqa.
From Stdlib Require PrimFloat FloatOps Uint63.
From stdpp Require Import base list strings gmap.

Local Open Scope string_scope.
Local Open Scope list_scope.

(** ** JavaScript primitives *)

Module Js.

(** *** Code units and character classes *)

Definition code (c : ascii) : N := N_of_ascii c.

Definition inRange (lo hi : N) (c : ascii) : bool :=
  ((lo <=? code c) && (code c <=? hi))%N.

(** [\d] *)
Definition isDigit (c : ascii) : bool := inRange 48 57 c.

(** [[a-zA-Z]] *)
Definition isLetter (c : ascii) : bool := inRange 65 90 c || inRange 97 122 c.

(** [\s] below code unit 256: TAB, LF, VT, FF, CR, SP, NBSP *)
Definition isWhiteSpace (c : ascii) : bool :=
  inRange 9 13 c || (code c =? 32)%N || (code c =? 160)%N.

(** *** Strings *)

Definition lowerUnit (c : ascii) : ascii :=
  if inRange 65 90 c || inRange 192 214 c || inRange 216 222 c
  then ascii_of_N (code c + 32)
  else c.

Fixpoint toLowerCase (s : string) : string :=
  match s with
  | EmptyString => EmptyString
  | String c s' => String (lowerUnit c) (toLowerCase s')
  end.

Fixpoint startsWith (s p : string) : bool :=
  match p with
  | EmptyString => true
  | String c p' =>
      match s with
      | EmptyString => false
      | String d s' => if Ascii.eqb d c then startsWith s' p' else false
      end
  end.

Fixpoint includes (s sub : string) : bool :=
  startsWith s sub ||
  match s with
  | EmptyString => false
  | String _ s' => includes s' sub
  end.

Fixpoint trimStart (s : string) : string :=
  match s with
  | EmptyString => EmptyString
  | String c s' => if isWhiteSpace c then trimStart s' else s
  end.

Definition trimEnd (s : string) : string :=
  String.rev (trimStart (String.rev s)).

Definition trim (s : string) : string := trimEnd (trimStart s).

(** [s.replace(/cls/g, '')] for a one-character class [cls] *)
Fixpoint removeAll (cls : ascii -> bool) (s : string) : string :=
  match s with
  | EmptyString => EmptyString
  | String c s' => if cls c then removeAll cls s' else String c (removeAll cls s')
  end.

(** [/cls/.test(s)] for a one-character class [cls] *)
Fixpoint testAny (cls : ascii -> bool) (s : string) : bool :=
  match s with
  | EmptyString => false
  | String c s' => cls c || testAny cls s'
  end.

Fixpoint testAll (cls : ascii -> bool) (s : string) : bool :=
  match s with
  | EmptyString => true
  | String c s' => cls c && testAll cls s'
  end.

(** [s.split(/\s+/)]: [inSep] holds while a run of white space is being
    skipped, [cur] is the piece read so far. *)
Fixpoint splitOn (inSep : bool) (cur : string) (s : string) : list string :=
  match s with
  | EmptyString => [cur]
  | String c s' =>
      if isWhiteSpace c
      then (if inSep then splitOn true cur s' else cur :: splitOn true EmptyString s')
      else splitOn false (cur ++ String c EmptyString) s'
  end.

Definition splitWhiteSpace (s : string) : list string :=
  splitOn false EmptyString s.

(** Relational operators on strings compare code units lexicographically. *)
Definition str_lt (a b : string) : bool :=
  match String.compare a b with Lt => true | _ => false end.
Definition str_gt (a b : string) : bool := str_lt b a.
Definition str_le (a b : string) : bool := negb (str_lt b a).
Definition str_ge (a b : string) : bool := negb (str_lt a b).

(** Truthiness of a string: every string but the empty one. *)
Definition truthy (s : string) : bool :=
  match s with EmptyString => false | String _ _ => true end.

(** *** Numbers *)

Inductive number : Type :=
| NaN
| Inf (negative : bool)
| Fin (q : Q).

Definition ofZ (z : Z) : number := Fin (inject_Z z).

Definition sub (a b : number) : number :=
  match a, b with
  | NaN, _ | _, NaN => NaN
  | Inf s, Inf t => if Bool.eqb s t then NaN else Inf s
  | Inf s, Fin _ => Inf s
  | Fin _, Inf t => Inf (negb t)
  | Fin x, Fin y => Fin (x - y)
  end.

(** The order of two numbers, when there is one. *)
Definition cmp (a b : number) : option comparison :=
  match a, b with
  | NaN, _ | _, NaN => None
  | Inf s, Inf t => Some (if s then (if t then Eq else Lt) else (if t then Gt else Eq))
  | Inf s, Fin _ => Some (if s then Lt else Gt)
  | Fin _, Inf t => Some (if t then Gt else Lt)
  | Fin x, Fin y => Some (x ?= y)%Q
  end.

Definition lt (a b : number) : bool :=
  match cmp a b with Some Lt => true | _ => false end.
Definition gt (a b : number) : bool :=
  match cmp a b with Some Gt => true | _ => false end.
Definition le (a b : number) : bool :=
  match cmp a b with Some Lt | Some Eq => true | _ => false end.
Definition ge (a b : number) : bool :=
  match cmp a b with Some Gt | Some Eq => true | _ => false end.

(** [String(n)] for an integer [n] *)
Definition stringOfZ (z : Z) : string := NilZero.string_of_int (Z.to_int z).

(** *** Array.prototype.sort

    The comparator's result [v] is read as: [v < 0], the first argument
    goes first; [v > 0], the second goes first; otherwise (zero or NaN)
    the two are left in their relative order. *)

Definition sortOrder (v : number) : comparison :=
  match v with
  | NaN => Eq
  | Inf s => if s then Lt else Gt
  | Fin q => (q ?= 0)%Q
  end.

Section Sort.
Context {A : Type} (comparefn : A -> A -> number).

Fixpoint insert (x : A) (l : list A) : list A :=
  match l with
  | [] => [x]
  | y :: l' =>
      match sortOrder (comparefn x y) with
      | Gt => y :: insert x l'
      | _ => x :: l
      end
  end.

Fixpoint sort (l : list A) : list A :=
  match l with
  | [] => []
  | x :: l' => insert x (sort l')
  end.
End Sort.

End Js.

(** ** Double-precision arithmetic

    The value of a finite double is a rational; an operation of the source
    is the exact operation followed by [round], to the nearest double with
    a tie going to the even significand (53 bits, subnormals below
    [2^-1022]).  [round] has no case for overflow: a score is a sum of a
    few terms each bounded by a small multiple of a string length, and a
    string has fewer than [2^53] code units.  A division is only ever made
    by the length of a search term that is not empty. *)

Module Double.

(** For [q > 0], the [e] with [2^e <= q < 2^(e+1)]. *)
Definition floorLog2 (q : Q) : Z :=
  let e := (Z.log2 (Qnum q) - Z.log2 (Zpos (Qden q)))%Z in
  if Qle_bool (2 ^ e) q then e else (e - 1)%Z.

(** The nearest integer to [q >= 0], a tie going to the even one. *)
Definition roundHalfEven (q : Q) : Z :=
  let f := Qfloor q in
  match (q - inject_Z f ?= 1 # 2)%Q with
  | Lt => f
  | Eq => if Z.even f then f else (f + 1)%Z
  | Gt => (f + 1)%Z
  end.

(** The exponent of the last place of the double nearest to [q > 0]: 52
    binary places below the leading one, and never below [2^-1074], the
    least positive double. *)
Definition ulpExponent (q : Q) : Z := Z.max (floorLog2 q - 52) (-1074).

Definition roundPositive (q : Q) : Q :=
  let k := ulpExponent q in
  (inject_Z (roundHalfEven (q / 2 ^ k)) * 2 ^ k)%Q.

Definition round (q : Q) : Q :=
  match (q ?= 0)%Q with
  | Eq => 0%Q
  | Gt => roundPositive q
  | Lt => (- roundPositive (- q))%Q
  end.

Definition add (x y : Q) : Q := round (x + y).
Definition sub (x y : Q) : Q := round (x - y).
Definition mul (x y : Q) : Q := round (x * y).
Definition div (x y : Q) : Q := round (x / y).

(** A multiple of the least positive double, as every double is. *)
Definition onGrid (q : Q) : Prop := exists z : Z, (q == inject_Z z * 2 ^ (-1074))%Q.

End Double.

(** What the source takes from its host environment. *)
Class Host : Type := {
  (** [Number(s)] for a string [s] *)
  StringToNumber : string -> Js.number;
  (** [a.localeCompare(b)] *)
  localeCompare : string -> string -> Z
}.

(** ** Data model ([data/mockData.ts], [types/searchTypes.ts]) *)

Inductive Status : Type := Open | Closed | Collections | Suspended.

Definition statusName (s : Status) : string :=
  match s with
  | Open => "Open"
  | Closed => "Closed"
  | Collections => "Collections"
  | Suspended => "Suspended"
  end.

Record Account : Type := {
  id : string;
  accountNumber : string;
  companyName : string;
  contactName : string;
  phoneNumber : string;
  email : string;
  status : Status;
  balance : Z;
  createdDate : string;
  lastActivity : string;
  dateAdded : string
}.

(** [keyof Account] *)
Module Key.
Inductive t : Type :=
| id | accountNumber | companyName | contactName | phoneNumber | email
| status | balance | createdDate | lastActivity | dateAdded.

Definition eqb (a b : t) : bool :=
  match a, b with
  | id, id | accountNumber, accountNumber | companyName, companyName
  | contactName, contactName | phoneNumber, phoneNumber | email, email
  | status, status | balance, balance | createdDate, createdDate
  | lastActivity, lastActivity | dateAdded, dateAdded => true
  | _, _ => false
  end.
End Key.

(** The value of a property of an account: a string or a number. *)
Inductive value : Type :=
| VString (s : string)
| VNumber (n : Z).

(** [account[field]] *)
Definition get (account : Account) (field : Key.t) : value :=
  match field with
  | Key.id => VString (id account)
  | Key.accountNumber => VString (accountNumber account)
  | Key.companyName => VString (companyName account)
  | Key.contactName => VString (contactName account)
  | Key.phoneNumber => VString (phoneNumber account)
  | Key.email => VString (email account)
  | Key.status => VString (statusName (status account))
  | Key.balance => VNumber (balance account)
  | Key.createdDate => VString (createdDate account)
  | Key.lastActivity => VString (lastActivity account)
  | Key.dateAdded => VString (dateAdded account)
  end.

(** [String(v)] *)
Definition String_ (v : value) : string :=
  match v with
  | VString s => s
  | VNumber n => Js.stringOfZ n
  end.

(** [Number(v)] *)
Definition Number_ `{Host} (v : value) : Js.number :=
  match v with
  | VString s => StringToNumber s
  | VNumber n => Js.ofZ n
  end.

Inductive LogicOperator : Type := And | Or.

Inductive FilterOperator : Type :=
| OpIs | OpContains | OpDoesNotContain | OpStartsWith
| OpGt | OpLt | OpGe | OpLe
| OpBefore | OpAfter.

Record AdvancedFilter : Type := {
  filterId : string;
  logic : LogicOperator;
  field : Key.t;
  operator : FilterOperator;
  values : list string;
  inputValue : string;
  startDate : option string;
  endDate : option string
}.

(** ** Validation ([utils/searchUtils.ts]) *)

Record Validation : Type := {
  valid : bool;
  error : option string
}.

Definition ok : Validation := {| valid := true; error := None |}.
Definition failed (message : string) : Validation :=
  {| valid := false; error := Some message |}.

(** [[\s\-\(\)]] *)
Definition isPhoneFormatting (c : ascii) : bool :=
  Js.isWhiteSpace c || Ascii.eqb c "-" || Ascii.eqb c "(" || Ascii.eqb c ")".

Definition validateSearchInput (field : Key.t) (value : string) : Validation :=
  if negb (Js.truthy value) then ok
  else
    match field with
    | Key.accountNumber =>
        if Js.testAny Js.isLetter value
        then failed "Account number cannot contain letters"
        else ok
    | Key.phoneNumber =>
        if Js.testAny Js.isLetter (Js.removeAll isPhoneFormatting value)
        then failed "Phone number cannot contain letters"
        else ok
    | Key.email => ok
    | _ => ok
    end.

(** ** Sorting ([utils/searchUtils.ts]) *)

(** The arrow function handed to [sort]. *)
Definition compareAccounts `{Host} (field : Key.t) (a b : Account) : Js.number :=
  let aValue := get a field in
  let bValue := get b field in
  match field with
  | Key.accountNumber => Js.sub (Number_ aValue) (Number_ bValue)
  | Key.phoneNumber =>
      let aDigits := Js.removeAll (fun c => negb (Js.isDigit c)) (String_ aValue) in
      let bDigits := Js.removeAll (fun c => negb (Js.isDigit c)) (String_ bValue) in
      Js.sub (StringToNumber aDigits) (StringToNumber bDigits)
  | Key.balance => Js.sub (Number_ bValue) (Number_ aValue)
  | Key.dateAdded =>
      let aDate := String_ aValue in
      let bDate := String_ bValue in
      if Js.str_gt bDate aDate then Js.ofZ 1
      else if Js.str_lt bDate aDate then Js.ofZ (-1)
      else Js.ofZ 0
  | Key.companyName | Key.contactName | Key.email =>
      Js.ofZ (localeCompare (String_ aValue) (String_ bValue))
  | _ => Js.ofZ 0
  end.

(** The array that [sortAccountsByField] returns, as a function of the
    contents of the array it is given. *)
Definition sortAccountsByField `{Host} (accounts : list Account) (field : Key.t)
    : list Account :=
  Js.sort (compareAccounts field) accounts.

(** The same function over a store of arrays, where an array is a reference
    and [sort] works in place: [[...accounts]] allocates, [.sort] overwrites
    the array it is called on and returns it. *)
Module Store.

Abbreviation ref := positive (only parsing).

Definition spread (h : gmap positive (list Account)) (accounts : ref)
    : option (gmap positive (list Account) * ref) :=
  match h !! accounts with
  | Some elements =>
      let copy := fresh (dom h) in
      Some (<[copy := elements]> h, copy)
  | None => None
  end.

Definition sortInPlace (comparefn : Account -> Account -> Js.number)
    (h : gmap positive (list Account)) (array : ref)
    : option (gmap positive (list Account) * ref) :=
  match h !! array with
  | Some elements => Some (<[array := Js.sort comparefn elements]> h, array)
  | None => None
  end.

Definition sortAccountsByField `{Host} (h : gmap positive (list Account))
    (accounts : ref) (field : Key.t)
    : option (gmap positive (list Account) * ref) :=
  match spread h accounts with
  | Some (h', copy) => sortInPlace (compareAccounts field) h' copy
  | None => None
  end.

End Store.

(** ** Suggestions ([utils/searchUtils.ts]) *)

(** [score] is a double, carried as its value. *)
Record Scored : Type := {
  scored_account : Account;
  scored_score : Q;
  scored_fieldValue : string
}.

(** The in-order scan: [search] is what is left of the search term from
    [searchIndex] on; the scan ends with the field value or with the term. *)
Fixpoint inOrderScan (fieldValue search : string)
    (consecutiveMatches maxConsecutive : nat) : string * nat :=
  match fieldValue, search with
  | String f fieldValue', String c search' =>
      if Ascii.eqb f c
      then inOrderScan fieldValue' search'
             (S consecutiveMatches) (Nat.max maxConsecutive (S consecutiveMatches))
      else inOrderScan fieldValue' search 0 maxConsecutive
  | _, _ => (search, maxConsecutive)
  end.

(** [searchChars.has(char)] with [searchChars = new Set(search)] *)
Definition hasChar (search : string) (char : ascii) : bool :=
  Js.testAny (Ascii.eqb char) search.

Fixpoint matchingChars (search fieldValue : string) : nat :=
  match fieldValue with
  | EmptyString => 0
  | String char rest =>
      (if hasChar search char then 1 else 0) + matchingChars search rest
  end.

Definition wordBonus (search : string) (score : Q) (word : string) : Q :=
  let score := if Js.startsWith word search then Double.add score 100 else score in
  if Js.includes word search then Double.add score 50 else score.

Definition natQ (n : nat) : Q := inject_Z (Z.of_nat n).

Definition scoreAccount (searchTerm : string) (field : Key.t) (account : Account)
    : Scored :=
  let fieldValue := Js.toLowerCase (String_ (get account field)) in
  let search := Js.toLowerCase searchTerm in
  let score := 0%Q in
  let score := if String.eqb fieldValue search then Double.add score 1000 else score in
  let score := if Js.startsWith fieldValue search then Double.add score 500 else score in
  let score := if Js.includes fieldValue search then Double.add score 200 else score in
  let '(unmatched, maxConsecutive) := inOrderScan fieldValue search 0 0 in
  let score :=
    if negb (Js.truthy unmatched)
    then Double.add score (Double.add 150 (Double.mul (natQ maxConsecutive) 20))
    else score in
  let score :=
    Double.add score
      (Double.mul
         (Double.div (natQ (matchingChars search fieldValue)) (natQ (String.length search)))
         50) in
  let score := fold_left (wordBonus search) (Js.splitWhiteSpace fieldValue) score in
  let lengthDiff :=
    Z.abs_nat (Z.of_nat (String.length fieldValue) - Z.of_nat (String.length search)) in
  let score :=
    if (10 <? lengthDiff)%nat
    then Double.sub score (Double.mul (natQ lengthDiff) 2)
    else Double.sub score (natQ lengthDiff) in
  {| scored_account := account; scored_score := score; scored_fieldValue := fieldValue |}.

Definition positiveScore (item : Scored) : bool :=
  match (scored_score item ?= 0)%Q with Gt => true | _ => false end.

Definition byScore (a b : Scored) : Js.number :=
  Js.Fin (Double.sub (scored_score b) (scored_score a)).

(** The loop that fills [unique], with its [break]. *)
Fixpoint uniqueLoop (sorted : list Scored) (seen : gset string) (unique : list Scored)
    : list Scored :=
  match sorted with
  | [] => unique
  | item :: rest =>
      if bool_decide (scored_fieldValue item ∈ seen)
      then uniqueLoop rest seen unique
      else
        let seen' := {[scored_fieldValue item]} ∪ seen in
        let unique' := unique ++ [item] in
        if (5 <=? length unique')%nat then unique'
        else uniqueLoop rest seen' unique'
  end.

Definition findClosestMatches (searchTerm : string) (accounts : list Account)
    (field : Key.t) : list Account :=
  if negb (Js.truthy searchTerm) then []
  else
    let scored := map (scoreAccount searchTerm field) accounts in
    let sorted := List.filter positiveScore (Js.sort byScore scored) in
    let unique := uniqueLoop sorted ∅ [] in
    map scored_account unique.

(** ** Showing the suggestions (both pages)

    The page lists each field's suggestions through a [Map] from the
    normalised value to the value first seen with it; [uniqueValues] is that
    map in insertion order. *)

Definition normalize (value : string) : string := Js.trim (Js.toLowerCase value).

Definition mapHas (uniqueValues : list (string * string)) (key : string) : bool :=
  existsb (fun entry => String.eqb (fst entry) key) uniqueValues.

Fixpoint uniqueValuesLoop (field : Key.t) (accountList : list Account)
    (uniqueValues : list (string * string)) : list (string * string) :=
  match accountList with
  | [] => uniqueValues
  | account :: rest =>
      let value := String_ (get account field) in
      let normalizedValue := normalize value in
      if mapHas uniqueValues normalizedValue
      then uniqueValuesLoop field rest uniqueValues
      else uniqueValuesLoop field rest (uniqueValues ++ [(normalizedValue, value)])
  end.

Definition uniqueSuggestions (field : Key.t) (accountList : list Account) : list string :=
  map snd (uniqueValuesLoop field accountList []).

(** ** Page state and the patterns of the value entry ([pages/PrimarySearchPage.tsx]) *)

(** [\d+]: a non-empty run of digits, as long as it can be; what follows it. *)
Fixpoint skipDigits (s : string) : string :=
  match s with
  | EmptyString => EmptyString
  | String c s' => if Js.isDigit c then skipDigits s' else s
  end.

Definition digitRun (s : string) : option string :=
  match s with
  | EmptyString => None
  | String c s' => if Js.isDigit c then Some (skipDigits s') else None
  end.

(** [/^\d+(\.\d+)?$/.test(s)] *)
Definition balancePattern (s : string) : bool :=
  match digitRun s with
  | None => false
  | Some EmptyString => true
  | Some (String c rest) =>
      if Ascii.eqb c "."
      then match digitRun rest with
           | Some EmptyString => true
           | _ => false
           end
      else false
  end.

(** [/^\d+$/.test(s)] *)
Definition digitsPattern (s : string) : bool :=
  match digitRun s with
  | Some EmptyString => true
  | _ => false
  end.

(** The part of the page state that [addValueToFilter] reads and sets. *)
Record PageState : Type := {
  advancedFilters : list AdvancedFilter;
  filterErrors : gmap string string
}.

Definition setFilterErrors (update : gmap string string -> gmap string string)
    (st : PageState) : PageState :=
  {| advancedFilters := advancedFilters st; filterErrors := update (filterErrors st) |}.

Definition setAdvancedFilters (filters : list AdvancedFilter) (st : PageState)
    : PageState :=
  {| advancedFilters := filters; filterErrors := filterErrors st |}.

(** [{ ...f, values: newValues, inputValue: newInput }] *)
Definition withValues (newValues : list string) (newInput : string)
    (f : AdvancedFilter) : AdvancedFilter :=
  {| filterId := filterId f; logic := logic f; field := field f; operator := operator f;
     values := newValues; inputValue := newInput;
     startDate := startDate f; endDate := endDate f |}.

(** [o || ''] for an optional string property *)
Definition orEmpty (o : option string) : string :=
  match o with
  | Some s => if Js.truthy s then s else EmptyString
  | None => EmptyString
  end.

(** ** The primary page ([pages/PrimarySearchPage.tsx]) *)

Module Primary.

Definition evaluateFilter `{Host} (account : Account) (filter : AdvancedFilter) : bool :=
  if Key.eqb (field filter) Key.dateAdded then
    let accountDate := String_ (get account (field filter)) in
    let start := orEmpty (startDate filter) in
    let end_ := orEmpty (endDate filter) in
    if Js.truthy start && negb (Js.truthy end_) then Js.str_ge accountDate start
    else if negb (Js.truthy start) && Js.truthy end_ then Js.str_le accountDate end_
    else if Js.truthy start && Js.truthy end_
         then Js.str_ge accountDate start && Js.str_le accountDate end_
    else true
  else if (length (values filter) =? 0)%nat then true
  else
    let fieldValue := get account (field filter) in
    let filterValues := values filter in
    match operator filter with
    | OpIs =>
        existsb (fun value =>
          String.eqb (Js.toLowerCase (String_ fieldValue)) (Js.toLowerCase value))
          filterValues
    | OpContains =>
        existsb (fun value =>
          Js.includes (Js.toLowerCase (String_ fieldValue)) (Js.toLowerCase value))
          filterValues
    | OpDoesNotContain =>
        forallb (fun value =>
          negb (Js.includes (Js.toLowerCase (String_ fieldValue)) (Js.toLowerCase value)))
          filterValues
    | OpStartsWith =>
        existsb (fun value =>
          Js.startsWith (Js.toLowerCase (String_ fieldValue)) (Js.toLowerCase value))
          filterValues
    | OpGt =>
        existsb (fun value => Js.gt (Number_ fieldValue) (StringToNumber value)) filterValues
    | OpLt =>
        existsb (fun value => Js.lt (Number_ fieldValue) (StringToNumber value)) filterValues
    | OpGe =>
        existsb (fun value => Js.ge (Number_ fieldValue) (StringToNumber value)) filterValues
    | OpLe =>
        existsb (fun value => Js.le (Number_ fieldValue) (StringToNumber value)) filterValues
    | _ => true
    end.

(** [advancedFilters] is the list of the render in which the handler was
    made; [st] is the state the queued updates are applied to. *)
Definition updateAdvancedFilter (advancedFilters : list AdvancedFilter)
    (id : string) (updates : AdvancedFilter -> AdvancedFilter) (st : PageState)
    : PageState :=
  setAdvancedFilters
    (map (fun f => if String.eqb (filterId f) id then updates f else f) advancedFilters)
    st.

Definition addValueToFilter (st : PageState) (id : string) : PageState :=
  match List.find (fun f => String.eqb (filterId f) id) (advancedFilters st) with
  | Some filter =>
      if Js.truthy (Js.trim (inputValue filter)) then
        let value := Js.trim (inputValue filter) in
        let st1 := setFilterErrors (fun prev => delete id prev) st in
        if Key.eqb (field filter) Key.balance && negb (balancePattern value) then
          setFilterErrors (fun prev => <[id := "Balance must be a valid number"]> prev) st1
        else if Key.eqb (field filter) Key.phoneNumber
                && negb (digitsPattern (Js.removeAll isPhoneFormatting value)) then
          setFilterErrors (fun prev => <[id := "Phone number cannot contain letters"]> prev) st1
        else
          let validation := validateSearchInput (field filter) value in
          if negb (valid validation) then
            setFilterErrors
              (fun prev => <[id := match error validation with
                                   | Some e => if Js.truthy e then e else "Invalid input"
                                   | None => "Invalid input"
                                   end]> prev) st1
          else
            updateAdvancedFilter (advancedFilters st) id
              (withValues (values filter ++ [value]) EmptyString) st1
      else st
  | None => st
  end.

End Primary.

(** ** The secondary page ([pages/SecondarySearchPage.tsx]) *)

Module Secondary.

Definition evaluateFilter `{Host} (account : Account) (filter : AdvancedFilter) : bool :=
  if (length (values filter) =? 0)%nat then true
  else
    let fieldValue := get account (field filter) in
    let filterValues := values filter in
    match operator filter with
    | OpIs =>
        existsb (fun value =>
          String.eqb (Js.toLowerCase (String_ fieldValue)) (Js.toLowerCase value))
          filterValues
    | OpContains =>
        existsb (fun value =>
          Js.includes (Js.toLowerCase (String_ fieldValue)) (Js.toLowerCase value))
          filterValues
    | OpDoesNotContain =>
        forallb (fun value =>
          negb (Js.includes (Js.toLowerCase (String_ fieldValue)) (Js.toLowerCase value)))
          filterValues
    | OpStartsWith =>
        existsb (fun value =>
          Js.startsWith (Js.toLowerCase (String_ fieldValue)) (Js.toLowerCase value))
          filterValues
    | OpGt =>
        existsb (fun value => Js.gt (Number_ fieldValue) (StringToNumber value)) filterValues
    | OpLt =>
        existsb (fun value => Js.lt (Number_ fieldValue) (StringToNumber value)) filterValues
    | OpGe =>
        existsb (fun value => Js.ge (Number_ fieldValue) (StringToNumber value)) filterValues
    | OpLe =>
        existsb (fun value => Js.le (Number_ fieldValue) (StringToNumber value)) filterValues
    | OpBefore =>
        existsb (fun value => Js.str_lt (String_ fieldValue) value) filterValues
    | OpAfter =>
        existsb (fun value => Js.str_gt (String_ fieldValue) value) filterValues
    end.

End Secondary.

(** ** The AND/OR loop of [filteredAccounts]

    Both pages run the same loop over [executedAdvancedFilters], each with
    its own [evaluateFilter]: [i] is the loop index, [result] the running
    variable, and the list the conditions from index [i] on. *)

Section AdvancedLoop.
Variable evaluateFilter : Account -> AdvancedFilter -> bool.

Fixpoint advancedLoop (account : Account) (i : nat) (result : bool)
    (filters : list AdvancedFilter) : bool :=
  match filters with
  | [] => result
  | filter :: rest =>
      let matches := evaluateFilter account filter in
      let result' :=
        if (i =? 0)%nat then matches
        else match logic filter with
             | And => result && matches
             | Or => result || matches
             end in
      advancedLoop account (S i) result' rest
  end.

(** The value of [result] when the loop ends. *)
Definition advancedResult (account : Account)
    (executedAdvancedFilters : list AdvancedFilter) : bool :=
  advancedLoop account 0 true executedAdvancedFilters.

(** STEP 1 of the [filter] callback: [false] rejects the account, [true]
    lets it on to the column and status checks. *)
Definition passesAdvancedFilters (account : Account)
    (executedAdvancedFilters : list AdvancedFilter) : bool :=
  if (0 <? length executedAdvancedFilters)%nat
  then advancedResult account executedAdvancedFilters
  else true.
End AdvancedLoop.

(** One step of a left-to-right chain: the accumulator combined with the
    next condition by that condition's own tag. *)
Definition chainStep (matches : AdvancedFilter -> bool) (acc : bool)
    (filter : AdvancedFilter) : bool :=
  match logic filter with
  | And => acc && matches filter
  | Or => acc || matches filter
  end.

Definition setLogic (l : LogicOperator) (f : AdvancedFilter) : AdvancedFilter :=
  {| filterId := filterId f; logic := l; field := field f; operator := operator f;
     values := values f; inputValue := inputValue f;
     startDate := startDate f; endDate := endDate f |}.

(** ** Column search and the whole filter (both pages)

    [SearchFilters] of [types/searchTypes.ts]; the secondary page leaves
    [status] out and never reads it. *)

Record CaseFlags : Type := {
  caseAccountNumber : bool;
  caseCompanyName : bool;
  caseContactName : bool;
  casePhoneNumber : bool;
  caseEmail : bool
}.

Record SearchFilters : Type := {
  searchAccountNumber : string;
  searchCompanyName : string;
  searchContactName : string;
  searchPhoneNumber : string;
  searchEmail : string;
  searchStatus : list string;
  caseSensitive : CaseFlags
}.

(** [constants/searchConstants.ts] *)
Definition SEARCHABLE_FIELDS : list Key.t :=
  [Key.accountNumber; Key.companyName; Key.contactName; Key.phoneNumber; Key.email].

Definition NUMERIC_OPERATORS : list FilterOperator :=
  [OpIs; OpContains; OpGt; OpLt; OpGe; OpLe].
Definition DATE_OPERATORS : list FilterOperator :=
  [OpIs; OpContains; OpBefore; OpAfter].
Definition TEXT_OPERATORS : list FilterOperator :=
  [OpIs; OpContains; OpDoesNotContain; OpStartsWith].

(** [filters[field]] for one of the searchable fields. *)
Definition searchValue (filters : SearchFilters) (field : Key.t) : string :=
  match field with
  | Key.accountNumber => searchAccountNumber filters
  | Key.companyName => searchCompanyName filters
  | Key.contactName => searchContactName filters
  | Key.phoneNumber => searchPhoneNumber filters
  | Key.email => searchEmail filters
  | _ => EmptyString
  end.

(** [filters.caseSensitive[field]] *)
Definition caseFlag (filters : SearchFilters) (field : Key.t) : bool :=
  match field with
  | Key.accountNumber => caseAccountNumber (caseSensitive filters)
  | Key.companyName => caseCompanyName (caseSensitive filters)
  | Key.contactName => caseContactName (caseSensitive filters)
  | Key.phoneNumber => casePhoneNumber (caseSensitive filters)
  | Key.email => caseEmail (caseSensitive filters)
  | _ => false
  end.

(** [/^cls/.test(s)] for a one-character class [cls] *)
Definition testFirst (cls : ascii -> bool) (s : string) : bool :=
  match s with
  | EmptyString => false
  | String c _ => cls c
  end.

(** The callback of [searchFields.every]. *)
Definition matchesSearchField (executedSearchFilters : SearchFilters)
    (account : Account) (field : Key.t) : bool :=
  let searchValue := searchValue executedSearchFilters field in
  if negb (Js.truthy searchValue) then true
  else
    let fieldValue := String_ (get account field) in
    let caseSensitive := caseFlag executedSearchFilters field in
    if caseSensitive then
      if testFirst Js.isDigit searchValue then Js.startsWith fieldValue searchValue
      else if testFirst Js.isLetter searchValue then Js.startsWith fieldValue searchValue
      else Js.includes fieldValue searchValue
    else Js.includes (Js.toLowerCase fieldValue) (Js.toLowerCase searchValue).

(** [status.includes(s)] *)
Definition statusIncludes (selected : list string) (s : string) : bool :=
  existsb (fun x => String.eqb x s) selected.

Module PrimaryView.

(** The callback of [mockAccounts.filter]. *)
Definition filterCallback `{Host} (executedAdvancedFilters : list AdvancedFilter)
    (executedSearchFilters : SearchFilters) (account : Account) : bool :=
  if (0 <? length executedAdvancedFilters)%nat
     && negb (advancedResult Primary.evaluateFilter account executedAdvancedFilters)
  then false
  else
    let matchesSearch :=
      forallb (matchesSearchField executedSearchFilters account) SEARCHABLE_FIELDS in
    if (0 <? length (searchStatus executedSearchFilters))%nat
       && negb (statusIncludes (searchStatus executedSearchFilters)
                  (statusName (status account)))
    then false
    else matchesSearch.

Definition filteredAccounts `{Host} (mockAccounts : list Account)
    (executedAdvancedFilters : list AdvancedFilter)
    (executedSearchFilters : SearchFilters) (executedSortBy : Key.t) : list Account :=
  sortAccountsByField
    (List.filter (filterCallback executedAdvancedFilters executedSearchFilters) mockAccounts)
    executedSortBy.

(** [toggleStatusFilter] *)
Definition toggleStatusFilter (searchFilters : SearchFilters) (s : string)
    : SearchFilters :=
  {| searchAccountNumber := searchAccountNumber searchFilters;
     searchCompanyName := searchCompanyName searchFilters;
     searchContactName := searchContactName searchFilters;
     searchPhoneNumber := searchPhoneNumber searchFilters;
     searchEmail := searchEmail searchFilters;
     searchStatus :=
       if statusIncludes (searchStatus searchFilters) s
       then List.filter (fun x => negb (String.eqb x s)) (searchStatus searchFilters)
       else searchStatus searchFilters ++ [s];
     caseSensitive := caseSensitive searchFilters |}.

End PrimaryView.

Module SecondaryView.

Definition filterCallback `{Host} (executedAdvancedFilters : list AdvancedFilter)
    (executedSearchFilters : SearchFilters) (account : Account) : bool :=
  if (0 <? length executedAdvancedFilters)%nat
     && negb (advancedResult Secondary.evaluateFilter account executedAdvancedFilters)
  then false
  else forallb (matchesSearchField executedSearchFilters account) SEARCHABLE_FIELDS.

Definition filteredAccounts `{Host} (mockAccounts : list Account)
    (executedAdvancedFilters : list AdvancedFilter)
    (executedSearchFilters : SearchFilters) (sortBy : Key.t) : list Account :=
  sortAccountsByField
    (List.filter (filterCallback executedAdvancedFilters executedSearchFilters) mockAccounts)
    sortBy.

End SecondaryView.

(** ** The suggestions offered when nothing matches (both pages)

    [fieldSuggestions] is the object built inside [useMemo], as the list of
    its entries in insertion order. *)

(** [value && String(value).trim().length > 0] *)
Definition nonBlank (value : string) : bool :=
  Js.truthy value && (0 <? String.length (Js.trim value))%nat.

Definition hasSearchTerm (executedSearchFilters : SearchFilters) : bool :=
  existsb (fun field => nonBlank (searchValue executedSearchFilters field))
    SEARCHABLE_FIELDS.

Definition hasAdvancedFilterTerm (executedAdvancedFilters : list AdvancedFilter) : bool :=
  existsb (fun filter =>
    if Key.eqb (field filter) Key.dateAdded then false
    else (0 <? length (values filter))%nat && existsb nonBlank (values filter))
    executedAdvancedFilters.

Definition hasKey (fieldSuggestions : list (Key.t * list Account)) (field : Key.t) : bool :=
  existsb (fun entry => Key.eqb (fst entry) field) fieldSuggestions.

(** [fieldSuggestions[field] = matches] *)
Definition setKey (fieldSuggestions : list (Key.t * list Account)) (field : Key.t)
    (matches : list Account) : list (Key.t * list Account) :=
  if hasKey fieldSuggestions field
  then map (fun entry => if Key.eqb (fst entry) field then (field, matches) else entry)
         fieldSuggestions
  else fieldSuggestions ++ [(field, matches)].

Fixpoint columnSuggestions (mockAccounts : list Account)
    (executedSearchFilters : SearchFilters) (fields : list Key.t)
    (fieldSuggestions : list (Key.t * list Account)) : list (Key.t * list Account) :=
  match fields with
  | [] => fieldSuggestions
  | field :: rest =>
      let searchValue := searchValue executedSearchFilters field in
      if nonBlank searchValue then
        let matches := findClosestMatches searchValue mockAccounts field in
        if (0 <? length matches)%nat
        then columnSuggestions mockAccounts executedSearchFilters rest
               (setKey fieldSuggestions field matches)
        else columnSuggestions mockAccounts executedSearchFilters rest fieldSuggestions
      else columnSuggestions mockAccounts executedSearchFilters rest fieldSuggestions
  end.

Fixpoint valueSuggestions (mockAccounts : list Account) (field : Key.t)
    (filterValues : list string) (fieldSuggestions : list (Key.t * list Account))
    : list (Key.t * list Account) :=
  match filterValues with
  | [] => fieldSuggestions
  | value :: rest =>
      if nonBlank value && negb (hasKey fieldSuggestions field) then
        let matches := findClosestMatches value mockAccounts field in
        if (0 <? length matches)%nat
        then valueSuggestions mockAccounts field rest (setKey fieldSuggestions field matches)
        else valueSuggestions mockAccounts field rest fieldSuggestions
      else valueSuggestions mockAccounts field rest fieldSuggestions
  end.

Fixpoint advancedSuggestions (mockAccounts : list Account)
    (executedAdvancedFilters : list AdvancedFilter)
    (fieldSuggestions : list (Key.t * list Account)) : list (Key.t * list Account) :=
  match executedAdvancedFilters with
  | [] => fieldSuggestions
  | filter :: rest =>
      if Key.eqb (field filter) Key.dateAdded
      then advancedSuggestions mockAccounts rest fieldSuggestions
      else advancedSuggestions mockAccounts rest
             (valueSuggestions mockAccounts (field filter) (values filter) fieldSuggestions)
  end.

Definition suggestions (mockAccounts filteredAccounts : list Account)
    (executedSearchFilters : SearchFilters)
    (executedAdvancedFilters : list AdvancedFilter)
    : option (list (Key.t * list Account)) :=
  if (0 <? length filteredAccounts)%nat then None
  else if negb (hasSearchTerm executedSearchFilters)
          && negb (hasAdvancedFilterTerm executedAdvancedFilters) then None
  else
    let fieldSuggestions :=
      advancedSuggestions mockAccounts executedAdvancedFilters
        (columnSuggestions mockAccounts executedSearchFilters SEARCHABLE_FIELDS []) in
    if (0 <? length fieldSuggestions)%nat then Some fieldSuggestions else None.

(** ** Handlers of the filter panel

    Each handler is a function of the state of the render it was made in.
    [Date.now().toString()] and today's date are what the clock gives when
    the handler runs; they are arguments. *)

(** The condition that [addAdvancedFilter] appends. *)
Definition newFilter (id : string) : AdvancedFilter :=
  {| filterId := id; logic := And; field := Key.accountNumber; operator := OpIs;
     values := []; inputValue := EmptyString; startDate := None; endDate := None |}.

(** [{ ...f, values: newValues }] *)
Definition setValues (newValues : list string) (f : AdvancedFilter) : AdvancedFilter :=
  {| filterId := filterId f; logic := logic f; field := field f; operator := operator f;
     values := newValues; inputValue := inputValue f;
     startDate := startDate f; endDate := endDate f |}.

(** [{ ...f, operator: op }] *)
Definition setOperator (op : FilterOperator) (f : AdvancedFilter) : AdvancedFilter :=
  {| filterId := filterId f; logic := logic f; field := field f; operator := op;
     values := values f; inputValue := inputValue f;
     startDate := startDate f; endDate := endDate f |}.

(** [{ ...f, startDate: d }] and [{ ...f, endDate: d }] *)
Definition setStartDate (d : string) (f : AdvancedFilter) : AdvancedFilter :=
  {| filterId := filterId f; logic := logic f; field := field f; operator := operator f;
     values := values f; inputValue := inputValue f;
     startDate := Some d; endDate := endDate f |}.

Definition setEndDate (d : string) (f : AdvancedFilter) : AdvancedFilter :=
  {| filterId := filterId f; logic := logic f; field := field f; operator := operator f;
     values := values f; inputValue := inputValue f;
     startDate := startDate f; endDate := Some d |}.

(** [{ ...f, field, operator, values: [], inputValue: '', startDate: '', endDate: '' }] *)
Definition resetToField (newField : Key.t) (op : FilterOperator) (f : AdvancedFilter)
    : AdvancedFilter :=
  {| filterId := filterId f; logic := logic f; field := newField; operator := op;
     values := []; inputValue := EmptyString;
     startDate := Some EmptyString; endDate := Some EmptyString |}.

(** [getOperatorsForField]; the two pages list the same cases. *)
Definition getOperatorsForField (field : Key.t) : list FilterOperator :=
  match field with
  | Key.balance => NUMERIC_OPERATORS
  | Key.phoneNumber => TEXT_OPERATORS
  | Key.dateAdded => DATE_OPERATORS
  | _ => TEXT_OPERATORS
  end.

Definition operatorEqb (a b : FilterOperator) : bool :=
  match a, b with
  | OpIs, OpIs | OpContains, OpContains | OpDoesNotContain, OpDoesNotContain
  | OpStartsWith, OpStartsWith | OpGt, OpGt | OpLt, OpLt | OpGe, OpGe | OpLe, OpLe
  | OpBefore, OpBefore | OpAfter, OpAfter => true
  | _, _ => false
  end.

(** [operators[0]]; the lists of [getOperatorsForField] are never empty. *)
Definition firstOperator (operators : list FilterOperator) : FilterOperator :=
  match operators with
  | op :: _ => op
  | [] => OpIs
  end.

Module PrimaryPanel.

Definition addAdvancedFilter (now : string) (st : PageState) : PageState :=
  let proceed :=
    setAdvancedFilters (advancedFilters st ++ [newFilter now])
      (setFilterErrors
         (fun prev => match last (advancedFilters st) with
                      | Some lastFilter => delete (filterId lastFilter) prev
                      | None => prev
                      end) st) in
  match last (advancedFilters st) with
  | Some lastFilter =>
      if Key.eqb (field lastFilter) Key.dateAdded then
        if negb (Js.truthy (orEmpty (startDate lastFilter)))
           && negb (Js.truthy (orEmpty (endDate lastFilter)))
        then setFilterErrors
               (fun prev => <[filterId lastFilter :=
                  "Date filters must have at least a start date or end date. Please add a date before adding another condition."]> prev) st
        else proceed
      else
        if (length (values lastFilter) =? 0)%nat
        then setFilterErrors
               (fun prev => <[filterId lastFilter :=
                  "Filters must have at least one value. Please add a value before adding another condition."]> prev) st
        else proceed
  | None => proceed
  end.

Definition removeAdvancedFilter (st : PageState) (id : string) : PageState :=
  if (1 <? length (advancedFilters st))%nat
  then setAdvancedFilters
         (List.filter (fun f => negb (String.eqb (filterId f) id)) (advancedFilters st)) st
  else st.

Definition removeValueFromFilter (st : PageState) (id : string) (valueIndex : nat)
    : PageState :=
  match List.find (fun f => String.eqb (filterId f) id) (advancedFilters st) with
  | Some filter =>
      let newValues := delete valueIndex (values filter) in
      Primary.updateAdvancedFilter (advancedFilters st) id (setValues newValues) st
  | None => st
  end.

(** [onChange] of the field selector of the row [filter]. *)
Definition onFieldChange (st : PageState) (filter : AdvancedFilter) (newField : Key.t)
    : PageState :=
  let operators := getOperatorsForField newField in
  Primary.updateAdvancedFilter (advancedFilters st) (filterId filter)
    (resetToField newField (firstOperator operators))
    (setFilterErrors (fun prev => delete (filterId filter) prev) st).

(** [onChange] of the operator selector of the row [filter]. *)
Definition onOperatorChange (st : PageState) (filter : AdvancedFilter)
    (newOperator : FilterOperator) : PageState :=
  let validOperators := getOperatorsForField (field filter) in
  if existsb (operatorEqb newOperator) validOperators
  then Primary.updateAdvancedFilter (advancedFilters st) (filterId filter)
         (setOperator newOperator) st
  else Primary.updateAdvancedFilter (advancedFilters st) (filterId filter)
         (setOperator (firstOperator validOperators)) st.

(** [onChange] of the start-date input of the row [filter]. *)
Definition onStartDateChange (today : string) (st : PageState) (filter : AdvancedFilter)
    (selectedDate : string) : PageState :=
  if Js.str_gt selectedDate today then
    setFilterErrors (fun prev => <[filterId filter := "Date cannot be in the future"]> prev) st
  else if Js.truthy (orEmpty (endDate filter))
          && Js.str_gt selectedDate (orEmpty (endDate filter)) then
    setFilterErrors
      (fun prev => <[filterId filter := "Start date cannot be after end date"]> prev) st
  else
    Primary.updateAdvancedFilter (advancedFilters st) (filterId filter)
      (setStartDate selectedDate)
      (setFilterErrors (fun prev => delete (filterId filter) prev) st).

(** [onChange] of the end-date input of the row [filter]. *)
Definition onEndDateChange (today : string) (st : PageState) (filter : AdvancedFilter)
    (selectedDate : string) : PageState :=
  if Js.str_gt selectedDate today then
    setFilterErrors (fun prev => <[filterId filter := "Date cannot be in the future"]> prev) st
  else if Js.truthy (orEmpty (startDate filter))
          && Js.str_lt selectedDate (orEmpty (startDate filter)) then
    setFilterErrors
      (fun prev => <[filterId filter := "End date cannot be before start date"]> prev) st
  else
    Primary.updateAdvancedFilter (advancedFilters st) (filterId filter)
      (setEndDate selectedDate)
      (setFilterErrors (fun prev => delete (filterId filter) prev) st).

(** The test of [activeFilterCount] on one advanced condition. *)
Definition countsAsActive (filter : AdvancedFilter) : bool :=
  if Key.eqb (field filter) Key.dateAdded
  then Js.truthy (orEmpty (startDate filter)) || Js.truthy (orEmpty (endDate filter))
  else (0 <? length (values filter))%nat.

Definition activeFilterCount (enabledSortBy enabledStatus : bool)
    (searchFilters : SearchFilters) (showAdvancedFilters : bool)
    (advancedFilters : list AdvancedFilter) : nat :=
  let count := 0%nat in
  let count := if enabledSortBy then S count else count in
  let count :=
    if enabledStatus && (0 <? length (searchStatus searchFilters))%nat
    then S count else count in
  if showAdvancedFilters
  then fold_left (fun count filter => if countsAsActive filter then S count else count)
         advancedFilters count
  else count.

End PrimaryPanel.

Module SecondaryPanel.

Definition addValueToFilter (st : PageState) (id : string) : PageState :=
  match List.find (fun f => String.eqb (filterId f) id) (advancedFilters st) with
  | Some filter =>
      if Js.truthy (Js.trim (inputValue filter)) then
        Primary.updateAdvancedFilter (advancedFilters st) id
          (withValues (values filter ++ [Js.trim (inputValue filter)]) EmptyString)
          (setFilterErrors (fun prev => delete id prev) st)
      else st
  | None => st
  end.

End SecondaryPanel.

(** ** Running a search ([pages/PrimarySearchPage.tsx]) *)

(** The part of the page state that [handleSearch] and [handleApplyFilters]
    read and set. *)
Record SearchPanel : Type := {
  searchFilters : SearchFilters;
  executedSearchFilters : SearchFilters;
  sortBy : Key.t;
  executedSortBy : Key.t;
  validationError : option string;
  executedAdvancedFilters : list AdvancedFilter;
  showFilterPanel : bool
}.

(** [e || fallback] for an optional error message *)
Definition errorOr (e : option string) (fallback : string) : string :=
  match e with
  | Some m => if Js.truthy m then m else fallback
  | None => fallback
  end.

Module PrimarySearch.

(** The loop over [fieldsToValidate]: the message it stops on, if any. *)
Fixpoint firstInvalidField (searchFilters : SearchFilters) (fields : list Key.t)
    : option string :=
  match fields with
  | [] => None
  | field :: rest =>
      let value := searchValue searchFilters field in
      if Js.truthy value then
        let validation := validateSearchInput field value in
        if negb (valid validation)
        then Some (errorOr (error validation) "Invalid input")
        else firstInvalidField searchFilters rest
      else firstInvalidField searchFilters rest
  end.

Definition handleSearch (p : SearchPanel) : SearchPanel :=
  match firstInvalidField (searchFilters p)
          [Key.accountNumber; Key.phoneNumber; Key.email] with
  | Some message =>
      {| searchFilters := searchFilters p;
         executedSearchFilters := executedSearchFilters p;
         sortBy := sortBy p; executedSortBy := executedSortBy p;
         validationError := Some message;
         executedAdvancedFilters := executedAdvancedFilters p;
         showFilterPanel := showFilterPanel p |}
  | None =>
      {| searchFilters := searchFilters p;
         executedSearchFilters := searchFilters p;
         sortBy := sortBy p; executedSortBy := sortBy p;
         validationError := None;
         executedAdvancedFilters := executedAdvancedFilters p;
         showFilterPanel := showFilterPanel p |}
  end.

(** The inner loop over [filter.values]. *)
Fixpoint firstInvalidValue (field : Key.t) (filterValues : list string) : option string :=
  match filterValues with
  | [] => None
  | value :: rest =>
      let validation := validateSearchInput field value in
      if negb (valid validation)
      then Some (errorOr (error validation) "Invalid input in advanced filters")
      else firstInvalidValue field rest
  end.

(** The loop over [advancedFilters]. *)
Fixpoint firstInvalidFilter (advancedFilters : list AdvancedFilter) : option string :=
  match advancedFilters with
  | [] => None
  | filter :: rest =>
      if Key.eqb (field filter) Key.dateAdded
         && Js.truthy (orEmpty (startDate filter))
         && Js.truthy (orEmpty (endDate filter))
         && Js.str_gt (orEmpty (startDate filter)) (orEmpty (endDate filter))
      then Some "Start date cannot be after end date in advanced filters."
      else
        match firstInvalidValue (field filter) (values filter) with
        | Some message => Some message
        | None => firstInvalidFilter rest
        end
  end.

Definition handleApplyFilters (showAdvancedFilters : bool)
    (advancedFilters : list AdvancedFilter) (p : SearchPanel) : SearchPanel :=
  match (if showAdvancedFilters then firstInvalidFilter advancedFilters else None) with
  | Some message =>
      {| searchFilters := searchFilters p;
         executedSearchFilters := executedSearchFilters p;
         sortBy := sortBy p; executedSortBy := executedSortBy p;
         validationError := Some message;
         executedAdvancedFilters := executedAdvancedFilters p;
         showFilterPanel := showFilterPanel p |}
  | None =>
      let searched :=
        handleSearch
          {| searchFilters := searchFilters p;
             executedSearchFilters := executedSearchFilters p;
             sortBy := sortBy p; executedSortBy := executedSortBy p;
             validationError := None;
             executedAdvancedFilters := if showAdvancedFilters then advancedFilters else [];
             showFilterPanel := showFilterPanel p |} in
      {| searchFilters := searchFilters searched;
         executedSearchFilters := executedSearchFilters searched;
         sortBy := sortBy searched; executedSortBy := executedSortBy searched;
         validationError := validationError searched;
         executedAdvancedFilters := executedAdvancedFilters searched;
         showFilterPanel := false |}
  end.

End PrimarySearch.

(** ** Worked data *)

(** A host for worked examples: it reads a string of decimal digits as the
    integer it denotes and the empty string as zero, as every host does,
    answers NaN on all other strings, and collates by code units. *)
Fixpoint digitsValue (acc : Z) (s : string) : Z :=
  match s with
  | EmptyString => acc
  | String c s' => digitsValue (10 * acc + (Z.of_N (Js.code c) - 48)) s'
  end.

Definition digitsHost : Host := {|
  StringToNumber s :=
    if Js.testAll Js.isDigit s then Js.ofZ (digitsValue 0 s) else Js.NaN;
  localeCompare a b :=
    match String.compare a b with Lt => (-1)%Z | Eq => 0%Z | Gt => 1%Z end
|}.

Definition mkAccount (number company : string) (bal : Z) (added : string) : Account :=
  {| id := "ACC" ++ number; accountNumber := number; companyName := company;
     contactName := "Jane Smith"; phoneNumber := "(555) 123-4567";
     email := "jane.smith@example.com"; status := Open; balance := bal;
     createdDate := "2021-03-04"; lastActivity := "2024-05-06"; dateAdded := added |}.

Definition mkFilter (l : LogicOperator) (k : Key.t) (op : FilterOperator)
    (vs : list string) : AdvancedFilter :=
  {| filterId := "1"; logic := l; field := k; operator := op; values := vs;
     inputValue := EmptyString; startDate := None; endDate := None |}.

Definition mkDateFilter (start end_ : option string) : AdvancedFilter :=
  {| filterId := "1"; logic := And; field := Key.dateAdded; operator := OpIs;
     values := []; inputValue := EmptyString; startDate := start; endDate := end_ |}.

Definition acme : Account := mkAccount "10000009" "Acme Corp" 5000 "2024-01-15".
Definition zeta : Account := mkAccount "10000010" "Zeta Holdings" (-200) "2023-06-30".
Definition nexus : Account := mkAccount "9" "Nexus Group" 1000 "2022-11-02".

(** Two records whose company names differ by a trailing space only. *)
Definition acmePlain : Account := mkAccount "10000011" "Acme" 0 "2020-02-02".
Definition acmeSpace : Account := mkAccount "10000012" "Acme " 0 "2020-02-03".

(** A record on whose score the rounding tells: sixty letters, eleven of
    them among the letters of the term "abcde". *)
Definition padded : Account :=
  mkAccount "10000013" "aaaaaaaaaaaxxxxxxxxxxxxxxxxxxxxxxxxxxxxxxxxxxxxxxxxxxxxxxxxx"
    0 "2020-02-04".

(** Machine doubles, to set [Double.round] against: the value of a finite
    double, and the double of a natural number below [2^53]. *)
Definition machineValue (x : PrimFloat.float) : option Q :=
  match FloatOps.Prim2SF x with
  | SpecFloat.S754_zero _ => Some 0%Q
  | SpecFloat.S754_finite s m e =>
      Some ((if s then -1 else 1) * inject_Z (Zpos m) * 2 ^ e)%Q
  | _ => None
  end.

Definition machineNat (n : nat) : PrimFloat.float :=
  PrimFloat.of_uint63 (Uint63.of_Z (Z.of_nat n)).

Definition sameValue (x : PrimFloat.float) (q : Q) : bool :=
  match machineValue x with
  | Some v => Qeq_bool v q
  | None => false
  end.

(** The operations of [scoreAccount] on the counts [m] and [n], in machine
    arithmetic and in the model. *)
Definition sameArithmetic (m n : nat) : bool :=
  let x := machineNat m in
  let y := machineNat n in
  let quotient := PrimFloat.div x y in
  let bonus := PrimFloat.mul quotient (machineNat 50) in
  let quotient' := Double.div (natQ m) (natQ n) in
  let bonus' := Double.mul quotient' 50 in
  sameValue quotient quotient'
  && sameValue bonus bonus'
  && sameValue (PrimFloat.add (machineNat 1700) bonus) (Double.add 1700 bonus')
  && sameValue (PrimFloat.sub bonus (PrimFloat.mul y (machineNat 2)))
       (Double.sub bonus' (Double.mul (natQ n) 2))
  && sameValue (PrimFloat.sub (PrimFloat.sub bonus (machineNat 110))
                  (PrimFloat.sub quotient (machineNat 2)))
       (Double.sub (Double.sub bonus' 110) (Double.sub quotient' 2)).

Definition sampleCounts : list (nat * nat) :=
  flat_map (fun m => map (fun n => (m, n)) (seq 1 40)) (seq 0 60).

Definition sampleStore : gmap positive (list Account) :=
  {[ 1%positive := [acme; zeta; nexus] ]}.

Definition balanceRow (input : string) : AdvancedFilter :=
  {| filterId := "7"; logic := And; field := Key.balance; operator := OpGt;
     values := ["100"]; inputValue := input; startDate := None; endDate := None |}.

Definition samplePage (input : string) : PageState :=
  {| advancedFilters := [balanceRow input]; filterErrors := ∅ |}.

(** [{ ...f, operator: op, values: vs }] *)
Definition withOperator (op : FilterOperator) (vs : list string)
    (f : AdvancedFilter) : AdvancedFilter :=
  {| filterId := filterId f; logic := logic f; field := field f; operator := op;
     values := vs; inputValue := inputValue f;
     startDate := startDate f; endDate := endDate f |}.

(** A date bound that is set: present and not the empty string. *)
Definition dateBound (o : option string) : option string :=
  match o with
  | Some (String c s) => Some (String c s)
  | _ => None
  end.

(** The test that one operand has to pass, for the operators that ask for
    some operand to pass it. *)
Definition operandTest `{Host} (op : FilterOperator)
    : option (value -> string -> bool) :=
  match op with
  | OpIs => Some (fun fv v =>
      String.eqb (Js.toLowerCase (String_ fv)) (Js.toLowerCase v))
  | OpContains => Some (fun fv v =>
      Js.includes (Js.toLowerCase (String_ fv)) (Js.toLowerCase v))
  | OpStartsWith => Some (fun fv v =>
      Js.startsWith (Js.toLowerCase (String_ fv)) (Js.toLowerCase v))
  | OpGt => Some (fun fv v => Js.gt (Number_ fv) (StringToNumber v))
  | OpLt => Some (fun fv v => Js.lt (Number_ fv) (StringToNumber v))
  | OpGe => Some (fun fv v => Js.ge (Number_ fv) (StringToNumber v))
  | OpLe => Some (fun fv v => Js.le (Number_ fv) (StringToNumber v))
  | _ => None
  end.

(** Case-insensitive substring test. *)
Definition containsIgnoringCase (fieldValue : value) (v : string) : bool :=
  Js.includes (Js.toLowerCase (String_ fieldValue)) (Js.toLowerCase v).

(** A non-negative decimal number as the specification words it: digits,
    then optionally one decimal point followed by digits; no sign. *)
Definition allDigits (s : string) : Prop := Js.testAll Js.isDigit s = true.

Definition decimalNumber (s : string) : Prop :=
  exists whole frac,
    whole <> EmptyString /\ allDigits whole
    /\ (s = whole
        \/ (frac <> EmptyString /\ allDigits frac
            /\ s = String.append whole (String "." frac))).

(** The key under which [findClosestMatches] tells suggestions apart, and
    the score it gives a record. *)
Definition suggestionKey (field : Key.t) (account : Account) : string :=
  Js.toLowerCase (String_ (get account field)).

Definition scoreOf (searchTerm : string) (field : Key.t) (account : Account) : Q :=
  scored_score (scoreAccount searchTerm field account).



(** An account number that the host reads as a finite number. *)
Definition numericAccountNumber `{Host} (a : Account) : Prop :=
  exists q, StringToNumber (accountNumber a) = Js.Fin q.

(** The same search with some case-sensitivity boxes unticked: the same
    terms and statuses, and no box ticked that was not. *)
Definition relaxesCase (strict relaxed : SearchFilters) : Prop :=
  (forall field, searchValue relaxed field = searchValue strict field)
  /\ searchStatus relaxed = searchStatus strict
  /\ (forall field, caseFlag relaxed field = true -> caseFlag strict field = true).

(** A search with nothing typed and nothing ticked. *)
Definition emptySearch : SearchFilters :=
  {| searchAccountNumber := EmptyString; searchCompanyName := EmptyString;
     searchContactName := EmptyString; searchPhoneNumber := EmptyString;
     searchEmail := EmptyString; searchStatus := [];
     caseSensitive := {| caseAccountNumber := false; caseCompanyName := false;
                         caseContactName := false; casePhoneNumber := false;
                         caseEmail := false |} |}.

Definition companySearch (term : string) (sensitive : bool) : SearchFilters :=
  {| searchAccountNumber := EmptyString; searchCompanyName := term;
     searchContactName := EmptyString; searchPhoneNumber := EmptyString;
     searchEmail := EmptyString; searchStatus := [];
     caseSensitive := {| caseAccountNumber := false; caseCompanyName := sensitive;
                         caseContactName := false; casePhoneNumber := false;
                         caseEmail := false |} |}.

(** A phone number whose digits the host reads as a finite number. *)
Definition phoneDigits (a : Account) : string :=
  Js.removeAll (fun c => negb (Js.isDigit c)) (phoneNumber a).

Definition numericPhoneNumber `{Host} (a : Account) : Prop :=
  exists q, StringToNumber (phoneDigits a) = Js.Fin q.

(** What every entry of the suggestions object is: a field other than the
    date field, with a non-empty answer of [findClosestMatches] for it. *)
Definition entryOk (mockAccounts : list Account) (entry : Key.t * list Account) : Prop :=
  fst entry <> Key.dateAdded
  /\ snd entry <> []
  /\ exists term, snd entry = findClosestMatches term mockAccounts (fst entry).

Definition objectOk (mockAccounts : list Account) (m : list (Key.t * list Account))
    : Prop :=
  NoDup (map fst m) /\ Forall (entryOk mockAccounts) m.

(** Conditions that hold on the rows of the filter panel. *)

(** No two rows share an identifier. *)
Definition uniqueIds (filters : list AdvancedFilter) : Prop :=
  NoDup (map filterId filters).

(** When both date bounds are set, the start is not after the end. *)
Definition rangeOrdered (f : AdvancedFilter) : Prop :=
  match dateBound (startDate f), dateBound (endDate f) with
  | Some start, Some end_ => Js.str_le start end_ = true
  | _, _ => True
  end.

(** Every value of the row has passed the checks of the value entry. *)
Definition storedValuesValid (f : AdvancedFilter) : Prop :=
  forall v, In v (values f) ->
    valid (validateSearchInput (field f) v) = true
    /\ (field f = Key.balance -> decimalNumber v)
    /\ (field f = Key.phoneNumber ->
        digitsPattern (Js.removeAll isPhoneFormatting v) = true).

(** The row's operator is one of those offered for its field. *)
Definition operatorOffered (f : AdvancedFilter) : Prop :=
  In (operator f) (getOperatorsForField (field f)).

(** Every row but the last has an operand or a date bound. *)
Definition allButLastActive (filters : list AdvancedFilter) : Prop :=
  Forall (fun f => PrimaryPanel.countsAsActive f = true) (removelast filters).

Definition samplePanel (accountTerm phoneTerm : string) : SearchPanel :=
  {| searchFilters :=
       {| searchAccountNumber := accountTerm; searchCompanyName := EmptyString;
          searchContactName := EmptyString; searchPhoneNumber := phoneTerm;
          searchEmail := EmptyString; searchStatus := [];
          caseSensitive := caseSensitive emptySearch |};
     executedSearchFilters := emptySearch;
     sortBy := Key.balance; executedSortBy := Key.accountNumber;
     validationError := None; executedAdvancedFilters := [];
     showFilterPanel := true |}.

Definition dateRow (id : string) (start end_ : option string) : AdvancedFilter :=
  {| filterId := id; logic := And; field := Key.dateAdded; operator := OpIs;
     values := []; inputValue := EmptyString; startDate := start; endDate := end_ |}.

Definition datePage : PageState :=
  {| advancedFilters := [dateRow "9" None (Some "2024-06-30")]; filterErrors := ∅ |}.

Definition isAcme : AdvancedFilter := mkFilter And Key.companyName OpIs ["Acme Corp"].
Definition isOpenRow : AdvancedFilter := mkFilter And Key.status OpIs ["open"].
Definition isZeta : AdvancedFilter := mkFilter Or Key.companyName OpIs ["Zeta Holdings"].

(** * Properties *)

Section Chain.
Variable matches : Account -> AdvancedFilter -> bool.

Lemma advancedLoop_fold account i result filters :
  advancedLoop matches account (S i) result filters
  = fold_left (chainStep (matches account)) filters result.
Proof.
  revert i result. induction filters as [|f fs IH]; intros i result; [done|].
  cbn [advancedLoop fold_left]. rewrite IH. done.
Qed.

Lemma advancedResult_cons account first rest :
  advancedResult matches account (first :: rest)
  = fold_left (chainStep (matches account)) rest (matches account first).
Proof. unfold advancedResult. cbn [advancedLoop Nat.eqb]. apply advancedLoop_fold. Qed.

Hypothesis matches_setLogic :
  forall account l f, matches account (setLogic l f) = matches account f.

Lemma advancedResult_first_tag account l first rest :
  advancedResult matches account (setLogic l first :: rest)
  = advancedResult matches account (first :: rest).
Proof. by rewrite !advancedResult_cons, matches_setLogic. Qed.

Lemma advancedResult_or_and account A B C :
  advancedResult matches account [A; setLogic Or B; setLogic And C]
  = (matches account A || matches account B) && matches account C.
Proof.
  rewrite advancedResult_cons. cbn. unfold chainStep. cbn.
  by rewrite !matches_setLogic.
Qed.
End Chain.

(** ** The sort *)

Section SortFacts.
Context {A : Type} (comparefn : A -> A -> Js.number).

Lemma insert_Permutation x l : Permutation (Js.insert comparefn x l) (x :: l).
Proof.
  induction l as [|y l IH]; cbn [Js.insert]; [done|].
  destruct (Js.sortOrder (comparefn x y)); try done.
  rewrite IH. apply perm_swap.
Qed.

Lemma sort_Permutation l : Permutation (Js.sort comparefn l) l.
Proof.
  induction l as [|x l IH]; cbn [Js.sort]; [done|].
  by rewrite insert_Permutation, IH.
Qed.

(** [ordered x y]: [x] may stand right before [y].  The comparator decides
    it on the elements that satisfy [P]. *)
Variable P : A -> Prop.
Variable ordered : A -> A -> Prop.
Hypothesis after_ordered :
  forall x y, P x -> P y -> Js.sortOrder (comparefn x y) = Gt -> ordered y x.
Hypothesis before_ordered :
  forall x y, P x -> P y -> Js.sortOrder (comparefn x y) <> Gt -> ordered x y.

Lemma insert_HdRel a x l :
  HdRel ordered a l -> ordered a x -> HdRel ordered a (Js.insert comparefn x l).
Proof.
  intros Hl Hx. destruct l as [|y l]; cbn [Js.insert]; [by constructor|].
  destruct (Js.sortOrder (comparefn x y)); constructor; try done.
  by inversion Hl.
Qed.

Lemma insert_Sorted x l :
  P x -> Forall P l -> Sorted ordered l -> Sorted ordered (Js.insert comparefn x l).
Proof.
  intros Hx HP Hs. induction Hs as [|y l Hs IH Hhd]; cbn [Js.insert].
  - by repeat constructor.
  - inversion HP as [|? ? Hy HPl]; subst.
    destruct (Js.sortOrder (comparefn x y)) eqn:E.
    + constructor; [by constructor|]. constructor. apply before_ordered; congruence.
    + constructor; [by constructor|]. constructor. apply before_ordered; congruence.
    + constructor; [by apply IH|]. apply insert_HdRel; [done|]. by apply after_ordered.
Qed.

Lemma sort_Sorted l : Forall P l -> Sorted ordered (Js.sort comparefn l).
Proof.
  induction 1 as [|x l Hx HP IH]; cbn [Js.sort]; [constructor|].
  apply insert_Sorted; [done| |done].
  eapply Permutation_Forall; [|exact HP]. symmetry. apply sort_Permutation.
Qed.
End SortFacts.

Lemma Sorted_adjacent {A} (R : A -> A -> Prop) (l : list A) i a b :
  Sorted R l -> l !! i = Some a -> l !! S i = Some b -> R a b.
Proof.
  intros Hs. revert i. induction Hs as [|x l Hs IH Hhd]; intros i Ha Hb; [done|].
  destruct i as [|i].
  - cbn in Ha, Hb. destruct l as [|y l]; [done|]. cbn in Hb.
    inversion Hhd; subst. congruence.
  - cbn in Ha, Hb. by eapply IH.
Qed.

(** A list that is already in order comes back from the sort as it is, for
    a comparator that never puts each of two elements after the other. *)
Lemma sort_of_sorted {A} (comparefn : A -> A -> Js.number) (l : list A) :
  Sorted (fun x y => Js.sortOrder (comparefn x y) <> Gt) l ->
  Js.sort comparefn l = l.
Proof.
  induction 1 as [|x l Hs IH Hhd]; cbn [Js.sort]; [done|].
  rewrite IH. destruct Hhd as [|y l Hxy]; cbn [Js.insert]; [done|].
  by destruct (Js.sortOrder (comparefn x y)).
Qed.

(** ** Numbers *)

Lemma Qcompare_sub (x y : Q) : (x - y ?= 0)%Q = (x ?= y)%Q.
Proof.
  destruct (Qcompare_spec x y) as [E|L|G].
  - apply (proj1 (Qeq_alt _ _)). rewrite E. ring.
  - apply (proj1 (Qlt_alt _ _)). lra.
  - apply (proj1 (Qgt_alt _ _)). lra.
Qed.

Lemma Qcompare_inject_Z (x y : Z) : (inject_Z x ?= inject_Z y)%Q = (x ?= y)%Z.
Proof. unfold Qcompare. cbn. by rewrite !Z.mul_1_r. Qed.

(** The sign of a difference is the order of its operands; no order, no
    sign. *)
Lemma sortOrder_sub (a b : Js.number) :
  Js.sortOrder (Js.sub a b) = default Eq (Js.cmp a b).
Proof.
  destruct a as [|[]|x], b as [|[]|y]; try reflexivity.
  cbn. apply Qcompare_sub.
Qed.

Lemma cmp_Fin_antisym (x y : Q) c :
  Js.cmp (Js.Fin x) (Js.Fin y) = Some c -> Js.cmp (Js.Fin y) (Js.Fin x) = Some (CompOpp c).
Proof. cbn. intros [= <-]. by rewrite <- Qcompare_antisym. Qed.

(** ** Rounding to the nearest double *)

Lemma pow2_pos (k : Z) : (0 < 2 ^ k)%Q.
Proof. by apply Qpower_0_lt. Qed.

Lemma pow2_Z (k : Z) : (0 <= k)%Z -> (2 ^ k == inject_Z (2 ^ k))%Q.
Proof. intros Hk. by rewrite Zpower_Qpower. Qed.

Lemma pow2_plus (a b : Z) : (2 ^ (a + b) == 2 ^ a * 2 ^ b)%Q.
Proof. by apply Qpower_plus. Qed.

Lemma pow2_le (a b : Z) : (a <= b)%Z -> (2 ^ a <= 2 ^ b)%Q.
Proof. intros Hab. by apply Qpower_le_compat_l. Qed.

Lemma pow2_lt_inv (a b : Z) : (2 ^ a < 2 ^ b)%Q -> (a < b)%Z.
Proof. intros Hab. by apply (Qpower_lt_compat_l_inv 2). Qed.

Lemma Qdiv_pow2_le (x y : Q) (k : Z) : (x <= y)%Q -> (x / 2 ^ k <= y / 2 ^ k)%Q.
Proof.
  intros Hxy. unfold Qdiv. apply Qmult_le_compat_r; [done|].
  apply Qinv_le_0_compat, Qlt_le_weak, pow2_pos.
Qed.

Lemma pow2_div (j k : Z) : (k <= j)%Z -> (2 ^ j / 2 ^ k == inject_Z (2 ^ (j - k)))%Q.
Proof.
  intros Hkj. rewrite <- pow2_Z by lia.
  replace j with ((j - k) + k)%Z at 1 by lia. rewrite pow2_plus.
  field. apply Qnot_eq_sym, Qlt_not_eq, pow2_pos.
Qed.

(** *** The logarithm *)

Lemma floorLog2_spec (q : Q) :
  (0 < q)%Q ->
  (2 ^ Double.floorLog2 q <= q)%Q /\ (q < 2 ^ (Double.floorLog2 q + 1))%Q.
Proof.
  intros Hq. unfold Double.floorLog2.
  destruct q as [n d]. cbn [Qnum Qden].
  assert (Hn : (0 < n)%Z).
  { unfold Qlt in Hq. cbn in Hq. lia. }
  set (a := Z.log2 n). set (b := Z.log2 (Z.pos d)).
  destruct (Z.log2_spec n Hn) as [Ha1 Ha2]. fold a in Ha1, Ha2.
  destruct (Z.log2_spec (Z.pos d) ltac:(lia)) as [Hb1 Hb2]. fold b in Hb1, Hb2.
  assert (Ha0 : (0 <= a)%Z) by apply Z.log2_nonneg.
  assert (Hb0 : (0 <= b)%Z) by apply Z.log2_nonneg.
  assert (HA := pow2_pos a). assert (HB := pow2_pos b).
  assert (EA := pow2_Z a Ha0). assert (EB := pow2_Z b Hb0).
  assert (EA1 : (2 ^ (a + 1) == 2 * 2 ^ a)%Q) by (rewrite pow2_plus; ring).
  assert (EB1 : (2 ^ (b + 1) == 2 * 2 ^ b)%Q) by (rewrite pow2_plus; ring).
  assert (Hq' : (n # d == inject_Z n / inject_Z (Z.pos d))%Q) by apply Qmake_Qdiv.
  assert (Hd : (0 < inject_Z (Z.pos d))%Q) by (rewrite <- (Zlt_Qlt 0); lia).
  assert (HnA : (2 ^ a <= inject_Z n)%Q) by (rewrite EA, <- Zle_Qle; lia).
  assert (HnA' : (inject_Z n < 2 * 2 ^ a)%Q).
  { rewrite <- EA1, pow2_Z by lia. rewrite <- Zlt_Qlt. rewrite Z.pow_succ_r in Ha2 by lia.
    replace (a + 1)%Z with (Z.succ a) by lia. by rewrite Z.pow_succ_r by lia. }
  assert (HdB : (2 ^ b <= inject_Z (Z.pos d))%Q) by (rewrite EB, <- Zle_Qle; lia).
  assert (HdB' : (inject_Z (Z.pos d) < 2 * 2 ^ b)%Q).
  { rewrite <- EB1, pow2_Z by lia. rewrite <- Zlt_Qlt.
    replace (b + 1)%Z with (Z.succ b) by lia. done. }
  assert (Eab : (2 ^ (a - b) == 2 ^ a / 2 ^ b)%Q).
  { apply Qpower_minus. done. }
  assert (Eab1 : (2 ^ (a - b - 1) * 2 == 2 ^ (a - b))%Q).
  { replace (a - b)%Z with ((a - b - 1) + 1)%Z at 2 by lia. by rewrite pow2_plus. }
  assert (Eab2 : (2 ^ (a - b + 1) == 2 ^ (a - b) * 2)%Q) by (by rewrite pow2_plus).
  set (N := inject_Z n) in *. set (D := inject_Z (Z.pos d)) in *.
  set (A := (2 ^ a)%Q) in *. set (B := (2 ^ b)%Q) in *.
  assert (Hup : (N / D < A / B * 2)%Q).
  { apply Qlt_shift_div_r; [done|].
    setoid_replace (A / B * 2 * D)%Q with ((2 * A) * (D / B))%Q using relation Qeq
      by (field; apply Qnot_eq_sym, Qlt_not_eq; done).
    assert (1 <= D / B)%Q by (apply Qle_shift_div_l; [done|lra]).
    nra. }
  assert (Hlow : (A / B <= N / D * 2)%Q).
  { apply Qle_shift_div_r; [done|].
    setoid_replace (N / D * 2 * B)%Q with (N * ((2 * B) / D))%Q using relation Qeq
      by (field; apply Qnot_eq_sym, Qlt_not_eq; done).
    assert (1 <= (2 * B) / D)%Q by (apply Qle_shift_div_l; [done|lra]).
    nra. }
  destruct (Qle_bool (2 ^ (a - b)) (n # d)) eqn:E.
  - apply Qle_bool_iff in E. split; [done|]. rewrite Eab2, Eab, Hq'. done.
  - assert (E' : (n # d < 2 ^ (a - b))%Q).
    { apply Qnot_le_lt. intros Hle. apply Qle_bool_iff in Hle. congruence. }
    replace (a - b - 1 + 1)%Z with (a - b)%Z by lia. split; [|done].
    rewrite Hq'. set (X := (2 ^ (a - b - 1))%Q) in *. set (Y := (2 ^ (a - b))%Q) in *.
    set (AB := (A / B)%Q) in *. set (ND := (N / D)%Q) in *. lra.
Qed.

(** *** Rounding to an integer *)

Lemma roundHalfEven_bounds (x : Q) :
  (Qfloor x <= Double.roundHalfEven x <= Qfloor x + 1)%Z.
Proof.
  unfold Double.roundHalfEven.
  destruct (x - inject_Z (Qfloor x) ?= 1 # 2)%Q; [destruct (Z.even _)| |]; lia.
Qed.

Lemma roundHalfEven_Z (z : Z) : Double.roundHalfEven (inject_Z z) = z.
Proof.
  unfold Double.roundHalfEven. rewrite Qfloor_Z.
  assert (H : (inject_Z z - inject_Z z < 1 # 2)%Q) by lra.
  apply (proj1 (Qlt_alt _ _)) in H. by rewrite H.
Qed.

Lemma roundHalfEven_le (x y : Q) :
  (x <= y)%Q -> (Double.roundHalfEven x <= Double.roundHalfEven y)%Z.
Proof.
  intros Hxy. pose proof (Qfloor_resp_le x y Hxy) as Hfg.
  destruct (Z.eq_dec (Qfloor x) (Qfloor y)) as [E|E].
  - unfold Double.roundHalfEven. rewrite <- E.
    destruct (Qcompare_spec (x - inject_Z (Qfloor x)) (1 # 2)) as [Hx|Hx|Hx];
      destruct (Qcompare_spec (y - inject_Z (Qfloor x)) (1 # 2)) as [Hy|Hy|Hy];
      try lra; try (destruct (Z.even _); lia); lia.
  - pose proof (roundHalfEven_bounds x). pose proof (roundHalfEven_bounds y). lia.
Qed.

(** *** Rounding a positive number *)

Lemma roundPositive_lower (q : Q) (j : Z) :
  (2 ^ j <= q)%Q -> (Double.ulpExponent q <= j)%Z -> (2 ^ j <= Double.roundPositive q)%Q.
Proof.
  intros Hq Hk. unfold Double.roundPositive. set (k := Double.ulpExponent q) in *.
  pose proof (Qdiv_pow2_le _ _ k Hq) as Hdiv. rewrite (pow2_div j k Hk) in Hdiv.
  apply roundHalfEven_le in Hdiv. rewrite roundHalfEven_Z in Hdiv.
  rewrite Zle_Qle in Hdiv.
  replace j with ((j - k) + k)%Z at 1 by lia. rewrite pow2_plus, (pow2_Z (j - k)) by lia.
  apply Qmult_le_compat_r; [done|]. apply Qlt_le_weak, pow2_pos.
Qed.

Lemma roundPositive_upper (q : Q) (j : Z) :
  (q <= 2 ^ j)%Q -> (Double.ulpExponent q <= j)%Z -> (Double.roundPositive q <= 2 ^ j)%Q.
Proof.
  intros Hq Hk. unfold Double.roundPositive. set (k := Double.ulpExponent q) in *.
  pose proof (Qdiv_pow2_le _ _ k Hq) as Hdiv. rewrite (pow2_div j k Hk) in Hdiv.
  apply roundHalfEven_le in Hdiv. rewrite roundHalfEven_Z in Hdiv.
  rewrite Zle_Qle in Hdiv.
  replace j with ((j - k) + k)%Z at 1 by lia. rewrite pow2_plus, (pow2_Z (j - k)) by lia.
  apply Qmult_le_compat_r; [done|]. apply Qlt_le_weak, pow2_pos.
Qed.

Lemma floorLog2_le (x y : Q) :
  (0 < x)%Q -> (x <= y)%Q -> (Double.floorLog2 x <= Double.floorLog2 y)%Z.
Proof.
  intros Hx Hxy.
  destruct (floorLog2_spec x Hx) as [Hx1 _].
  destruct (floorLog2_spec y ltac:(lra)) as [_ Hy2].
  assert (H : (2 ^ Double.floorLog2 x < 2 ^ (Double.floorLog2 y + 1))%Q) by lra.
  apply pow2_lt_inv in H. lia.
Qed.

Lemma roundPositive_le (x y : Q) :
  (0 < x)%Q -> (x <= y)%Q -> (Double.roundPositive x <= Double.roundPositive y)%Q.
Proof.
  intros Hx Hxy. assert (Hy : (0 < y)%Q) by lra.
  pose proof (floorLog2_le x y Hx Hxy) as He.
  destruct (floorLog2_spec x Hx) as [Hx1 Hx2].
  destruct (floorLog2_spec y Hy) as [Hy1 Hy2].
  destruct (Z.eq_dec (Double.ulpExponent x) (Double.ulpExponent y)) as [E|E].
  - unfold Double.roundPositive. rewrite E.
    apply Qmult_le_compat_r; [|apply Qlt_le_weak, pow2_pos].
    rewrite <- Zle_Qle. apply roundHalfEven_le. by apply Qdiv_pow2_le.
  - set (j := Z.max (Double.floorLog2 x + 1) (Double.ulpExponent x)).
    assert (Hj : (j <= Double.floorLog2 y)%Z)
      by (unfold j, Double.ulpExponent in *; lia).
    apply Qle_trans with (2 ^ j)%Q.
    + apply roundPositive_upper; [|unfold j; lia].
      apply Qle_trans with (2 ^ (Double.floorLog2 x + 1))%Q; [lra|].
      apply pow2_le. unfold j. lia.
    + apply Qle_trans with (2 ^ Double.floorLog2 y)%Q; [by apply pow2_le|].
      apply roundPositive_lower; [done|]. unfold Double.ulpExponent in *. lia.
Qed.

Lemma roundPositive_pos (q : Q) : (0 < q)%Q -> (0 <= Double.roundPositive q)%Q.
Proof.
  intros Hq. unfold Double.roundPositive.
  apply Qmult_le_0_compat; [|apply Qlt_le_weak, pow2_pos].
  change 0%Q with (inject_Z 0). rewrite <- Zle_Qle.
  pose proof (roundHalfEven_bounds (q / 2 ^ Double.ulpExponent q)) as [Hb _].
  assert (H0 : (0 <= q / 2 ^ Double.ulpExponent q)%Q).
  { apply Qle_shift_div_l; [apply pow2_pos|lra]. }
  apply Qfloor_resp_le in H0. change (Qfloor 0) with 0%Z in H0. lia.
Qed.

(** *** Rounding *)

Lemma round_0 : Double.round 0 = 0%Q.
Proof. reflexivity. Qed.

Lemma round_le (x y : Q) : (x <= y)%Q -> (Double.round x <= Double.round y)%Q.
Proof.
  intros Hxy. unfold Double.round.
  destruct (Qcompare_spec x 0) as [Hx|Hx|Hx]; destruct (Qcompare_spec y 0) as [Hy|Hy|Hy];
    try lra.
  - by apply roundPositive_pos.
  - pose proof (roundPositive_pos (- x) ltac:(lra)). lra.
  - pose proof (roundPositive_le (- y) (- x) ltac:(lra) ltac:(lra)). lra.
  - pose proof (roundPositive_pos (- x) ltac:(lra)).
    pose proof (roundPositive_pos y ltac:(lra)). lra.
  - by apply roundPositive_le.
Qed.

Lemma round_nonneg (q : Q) : (0 <= q)%Q -> (0 <= Double.round q)%Q.
Proof. intros Hq. rewrite <- round_0. by apply round_le. Qed.

Lemma round_eq (x y : Q) : (x == y)%Q -> (Double.round x == Double.round y)%Q.
Proof. intros E. apply Qle_antisym; apply round_le; lra. Qed.

Lemma roundPositive_onGrid (q : Q) : Double.onGrid (Double.roundPositive q).
Proof.
  unfold Double.roundPositive. set (k := Double.ulpExponent q).
  assert (Hk : (-1074 <= k)%Z) by (unfold k, Double.ulpExponent; lia).
  exists (Double.roundHalfEven (q / 2 ^ k) * 2 ^ (k + 1074))%Z.
  rewrite inject_Z_mult, <- pow2_Z by lia.
  replace k with ((k + 1074) + -1074)%Z at 2 by lia. rewrite pow2_plus. ring.
Qed.

Lemma round_onGrid (q : Q) : Double.onGrid (Double.round q).
Proof.
  unfold Double.round. destruct (q ?= 0)%Q.
  - exists 0%Z. ring.
  - destruct (roundPositive_onGrid (- q)) as [z Hz]. exists (- z)%Z.
    rewrite Hz, inject_Z_opp. ring.
  - apply roundPositive_onGrid.
Qed.

Lemma onGrid_sub (x y : Q) : Double.onGrid x -> Double.onGrid y -> Double.onGrid (x - y).
Proof.
  intros [a Ha] [b Hb]. exists (a - b)%Z. rewrite Ha, Hb. unfold Z.sub.
  rewrite inject_Z_plus, inject_Z_opp. ring.
Qed.

Lemma onGrid_pos (q : Q) : Double.onGrid q -> (0 < q)%Q -> (2 ^ (-1074) <= q)%Q.
Proof.
  intros [z Hz] Hq. pose proof (pow2_pos (-1074)) as Hp. rewrite Hz in *.
  set (p := (2 ^ (-1074))%Q) in *.
  assert (Hz1 : (1 <= z)%Z).
  { destruct (Z_lt_le_dec z 1) as [Hlt|]; [|done]. exfalso.
    assert (inject_Z z <= 0)%Q by (change 0%Q with (inject_Z 0); rewrite <- Zle_Qle; lia).
    nra. }
  rewrite Zle_Qle in Hz1. change (inject_Z 1) with 1%Q in Hz1. nra.
Qed.

Lemma roundPositive_onGrid_pos (q : Q) :
  Double.onGrid q -> (0 < q)%Q -> (0 < Double.roundPositive q)%Q.
Proof.
  intros Hg Hq. pose proof (onGrid_pos q Hg Hq) as Hmin.
  destruct (floorLog2_spec q Hq) as [He _].
  set (j := Z.max (Double.floorLog2 q) (-1074)).
  apply Qlt_le_trans with (2 ^ j)%Q; [apply pow2_pos|].
  apply roundPositive_lower; [|unfold j, Double.ulpExponent; lia].
  unfold j. destruct (Z.max_spec (Double.floorLog2 q) (-1074)) as [[_ ->]|[_ ->]]; done.
Qed.

(** The sign of a difference of doubles survives the rounding. *)
Lemma round_sign (q : Q) :
  Double.onGrid q -> (Double.round q ?= 0)%Q = (q ?= 0)%Q.
Proof.
  intros Hg. unfold Double.round.
  destruct (Qcompare_spec q 0) as [Hq|Hq|Hq].
  - reflexivity.
  - apply (proj1 (Qlt_alt _ _)).
    assert (Hg' : Double.onGrid (- q)).
    { destruct Hg as [z Hz]. exists (- z)%Z. rewrite Hz, inject_Z_opp. ring. }
    pose proof (roundPositive_onGrid_pos (- q) Hg' ltac:(lra)). lra.
  - apply (proj1 (Qgt_alt _ _)). by apply roundPositive_onGrid_pos.
Qed.

Section Engine.
Context `{Host}.

(** ** Sorting *)

Lemma compareAccounts_balance a b :
  Js.sortOrder (compareAccounts Key.balance a b) = (balance b ?= balance a)%Z.
Proof.
  unfold compareAccounts. cbn [get Number_]. rewrite sortOrder_sub. cbn.
  apply Qcompare_inject_Z.
Qed.

Lemma sort_balance_Sorted accounts :
  Sorted (fun a b => (balance b <= balance a)%Z) (sortAccountsByField accounts Key.balance).
Proof.
  apply (sort_Sorted _ (fun _ => True)); [| |by apply Forall_forall].
  - intros x y _ _. rewrite compareAccounts_balance. intros Hc.
    apply Z.compare_gt_iff in Hc. lia.
  - intros x y _ _. rewrite compareAccounts_balance. intros Hc.
    by apply Z.compare_le_iff in Hc.
Qed.

Lemma sort_accountNumber_Sorted accounts :
  Forall numericAccountNumber accounts ->
  Sorted (fun a b =>
            Js.le (StringToNumber (accountNumber a)) (StringToNumber (accountNumber b)) = true)
    (sortAccountsByField accounts Key.accountNumber).
Proof.
  apply sort_Sorted.
  - intros x y [qx Hx] [qy Hy]. unfold compareAccounts. cbn [get Number_].
    rewrite sortOrder_sub, Hx, Hy. unfold Js.le.
    destruct (Js.cmp (Js.Fin qx) (Js.Fin qy)) as [c|] eqn:E; [|done].
    intros Hc. change (c = Gt) in Hc. subst c. by rewrite (cmp_Fin_antisym _ _ _ E).
  - intros x y [qx Hx] [qy Hy]. unfold compareAccounts. cbn [get Number_].
    rewrite sortOrder_sub, Hx, Hy. unfold Js.le.
    destruct (Js.cmp (Js.Fin qx) (Js.Fin qy)) as [[]|] eqn:E; try done.
Qed.

(** C7.  Sorted by balance, every record's balance is at least that of the
    record after it; three records with balances 5000, -200, 1000 come out
    in the order 5000, 1000, -200.  Sorted by account number, records whose
    account numbers are numeric strings come out with every account
    number, read as a number, at most the one after it. *)
Theorem balance_sort_descending :
  forall accounts : list Account,
    (forall i a b,
        sortAccountsByField accounts Key.balance !! i = Some a ->
        sortAccountsByField accounts Key.balance !! S i = Some b ->
        (balance a >= balance b)%Z)
    /\ (forall a1 a2 a3,
          balance a1 = 5000%Z -> balance a2 = (-200)%Z -> balance a3 = 1000%Z ->
          sortAccountsByField [a1; a2; a3] Key.balance = [a1; a3; a2])
    /\ (Forall numericAccountNumber accounts ->
        forall i a b,
          sortAccountsByField accounts Key.accountNumber !! i = Some a ->
          sortAccountsByField accounts Key.accountNumber !! S i = Some b ->
          Js.le (StringToNumber (accountNumber a)) (StringToNumber (accountNumber b)) = true).
Proof.
  intros accounts. split; [|split].
  - intros i a b Ha Hb. apply Z.le_ge.
    exact (Sorted_adjacent _ _ i a b (sort_balance_Sorted accounts) Ha Hb).
  - intros a1 a2 a3 H1 H2 H3. unfold sortAccountsByField. cbn [Js.sort Js.insert].
    rewrite compareAccounts_balance, H2, H3.
    change (1000 ?= -200)%Z with Gt. cbn [Js.insert].
    rewrite compareAccounts_balance, H1, H3. reflexivity.
  - intros Hnum i a b Ha Hb.
    exact (Sorted_adjacent _ _ i a b (sort_accountNumber_Sorted accounts Hnum) Ha Hb).
Qed.

(** C10.  The sorted list is a permutation of the input, for every field:
    the same records with the same multiplicities, as many of them, and
    none that was not in the input. *)
Theorem sort_is_permutation :
  forall (accounts : list Account) (field : Key.t),
    Permutation (sortAccountsByField accounts field) accounts
    /\ length (sortAccountsByField accounts field) = length accounts
    /\ (forall a, In a (sortAccountsByField accounts field) -> In a accounts).
Proof.
  intros accounts field.
  pose proof (sort_Permutation (compareAccounts field) accounts) as Hp.
  split; [exact Hp|]. split.
  - by apply Permutation_length.
  - intros a. by apply Permutation_in.
Qed.

(** ** Filter evaluation *)

(** C1.  On both pages the compound result of a chain of at least one
    condition is the left fold of the conditions after the first, seeded
    with the first condition's own result; the first condition's tag plays
    no part; the chain [A; OR B; AND C] comes out as [(A OR B) AND C], and
    there are a record and a chain on which that differs from
    [A OR (B AND C)]. *)
Theorem compound_is_left_fold :
  forall (account : Account) (first : AdvancedFilter) (rest : list AdvancedFilter)
         (l : LogicOperator) (A B C : AdvancedFilter),
    (advancedResult Primary.evaluateFilter account (first :: rest)
       = fold_left (chainStep (Primary.evaluateFilter account)) rest
           (Primary.evaluateFilter account first)
     /\ advancedResult Secondary.evaluateFilter account (first :: rest)
       = fold_left (chainStep (Secondary.evaluateFilter account)) rest
           (Secondary.evaluateFilter account first))
    /\ (advancedResult Primary.evaluateFilter account (setLogic l first :: rest)
          = advancedResult Primary.evaluateFilter account (first :: rest)
        /\ advancedResult Secondary.evaluateFilter account (setLogic l first :: rest)
          = advancedResult Secondary.evaluateFilter account (first :: rest))
    /\ (advancedResult Primary.evaluateFilter account [A; setLogic Or B; setLogic And C]
          = (Primary.evaluateFilter account A || Primary.evaluateFilter account B)
            && Primary.evaluateFilter account C
        /\ advancedResult Secondary.evaluateFilter account [A; setLogic Or B; setLogic And C]
          = (Secondary.evaluateFilter account A || Secondary.evaluateFilter account B)
            && Secondary.evaluateFilter account C)
    /\ (exists a A' B' C',
          advancedResult Primary.evaluateFilter a [A'; setLogic Or B'; setLogic And C']
            <> (Primary.evaluateFilter a A'
                || (Primary.evaluateFilter a B' && Primary.evaluateFilter a C'))
          /\ advancedResult Secondary.evaluateFilter a [A'; setLogic Or B'; setLogic And C']
            <> (Secondary.evaluateFilter a A'
                || (Secondary.evaluateFilter a B' && Secondary.evaluateFilter a C'))).
Proof.
  intros account first rest l A B C.
  split; [split; apply advancedResult_cons|].
  split; [split; apply advancedResult_first_tag; reflexivity|].
  split; [split; apply advancedResult_or_and; reflexivity|].
  exists acme,
    (mkFilter And Key.companyName OpIs ["Acme Corp"]),
    (mkFilter And Key.companyName OpIs ["Nexus Group"]),
    (mkFilter And Key.companyName OpIs ["Zeta Holdings"]).
  split; vm_compute; discriminate.
Qed.

(** C3.  A condition whose value list is empty matches every record: on the
    primary page when its field is not the date field, on the secondary page
    always; so a [balance > ] condition with no values excludes nothing. *)
Theorem empty_values_match :
  forall (account : Account) (filter : AdvancedFilter),
    values filter = [] ->
    (field filter <> Key.dateAdded -> Primary.evaluateFilter account filter = true)
    /\ Secondary.evaluateFilter account filter = true
    /\ (forall l, Primary.evaluateFilter account (mkFilter l Key.balance OpGt []) = true
               /\ Secondary.evaluateFilter account (mkFilter l Key.balance OpGt []) = true).
Proof.
  intros account filter Hv. split; [|split].
  - intros Hf. unfold Primary.evaluateFilter. rewrite Hv.
    destruct (field filter); try reflexivity. by destruct Hf.
  - unfold Secondary.evaluateFilter. by rewrite Hv.
  - intros l. split; reflexivity.
Qed.

Lemma dateBound_orEmpty o :
  orEmpty o = match dateBound o with Some s => s | None => EmptyString end.
Proof. by destruct o as [[|c s]|]. Qed.

Lemma dateBound_truthy o :
  Js.truthy (orEmpty o) = match dateBound o with Some _ => true | None => false end.
Proof. by destruct o as [[|c s]|]. Qed.

(** C6.  On the primary page a condition on the date field compares the
    record's date with the bounds that are set, as strings: start only,
    date >= start; end only, date <= end; both, start <= date <= end;
    neither, every record matches.  Its operator and value list play no
    part. *)
Theorem date_condition :
  forall (account : Account) (filter : AdvancedFilter),
    field filter = Key.dateAdded ->
    Primary.evaluateFilter account filter
      = match dateBound (startDate filter), dateBound (endDate filter) with
        | Some start, None => Js.str_ge (dateAdded account) start
        | None, Some end_ => Js.str_le (dateAdded account) end_
        | Some start, Some end_ =>
            Js.str_ge (dateAdded account) start && Js.str_le (dateAdded account) end_
        | None, None => true
        end
    /\ (forall op vs,
          Primary.evaluateFilter account (withOperator op vs filter)
          = Primary.evaluateFilter account filter).
Proof.
  intros account filter Hf. split.
  - unfold Primary.evaluateFilter. rewrite Hf. cbn [Key.eqb get String_].
    rewrite !dateBound_truthy, !dateBound_orEmpty.
    by destruct (dateBound (startDate filter)), (dateBound (endDate filter)).
  - intros op vs. unfold Primary.evaluateFilter. cbn [withOperator field startDate endDate].
    by rewrite Hf.
Qed.

Lemma forallb_negb_false {A} (f : A -> bool) (l : list A) :
  forallb (fun x => negb (f x)) l = true <-> (forall x, In x l -> f x = false).
Proof.
  rewrite forallb_forall. split; intros Hall x Hx; specialize (Hall x Hx).
  - by apply negb_true_iff.
  - by apply negb_true_iff.
Qed.

Lemma Primary_evaluateFilter_operator account filter :
  field filter <> Key.dateAdded -> values filter <> [] ->
  Primary.evaluateFilter account filter
  = match operator filter with
    | OpDoesNotContain =>
        forallb (fun v => negb (containsIgnoringCase (get account (field filter)) v))
          (values filter)
    | op => match operandTest op with
            | Some test => existsb (test (get account (field filter))) (values filter)
            | None => true
            end
    end.
Proof.
  intros Hf Hv. unfold Primary.evaluateFilter.
  replace (Key.eqb (field filter) Key.dateAdded) with false
    by (destruct (field filter); try reflexivity; by destruct Hf).
  destruct (values filter) as [|v vs] eqn:Ev; [done|].
  cbn [length Nat.eqb]. by destruct (operator filter).
Qed.

Lemma Secondary_evaluateFilter_operator account filter :
  values filter <> [] ->
  Secondary.evaluateFilter account filter
  = match operator filter with
    | OpDoesNotContain =>
        forallb (fun v => negb (containsIgnoringCase (get account (field filter)) v))
          (values filter)
    | OpBefore =>
        existsb (fun v => Js.str_lt (String_ (get account (field filter))) v) (values filter)
    | OpAfter =>
        existsb (fun v => Js.str_gt (String_ (get account (field filter))) v) (values filter)
    | op => match operandTest op with
            | Some test => existsb (test (get account (field filter))) (values filter)
            | None => true
            end
    end.
Proof.
  intros Hv. unfold Secondary.evaluateFilter.
  destruct (values filter) as [|v vs] eqn:Ev; [done|].
  cbn [length Nat.eqb]. by destruct (operator filter).
Qed.

(** C2.  With at least one operand, a does-not-contain condition matches
    exactly when no operand occurs, case ignored, in the field value; a
    condition with is, contains, starts-with or a numeric comparison matches
    exactly when some operand passes the operator's test.  On the primary
    page this is for conditions on a field other than the date field. *)
Theorem operands_all_or_some :
  forall (account : Account) (filter : AdvancedFilter),
    values filter <> [] ->
    let fieldValue := get account (field filter) in
    (operator filter = OpDoesNotContain ->
       (field filter <> Key.dateAdded ->
          (Primary.evaluateFilter account filter = true
           <-> forall v, In v (values filter) -> containsIgnoringCase fieldValue v = false))
       /\ (Secondary.evaluateFilter account filter = true
           <-> forall v, In v (values filter) -> containsIgnoringCase fieldValue v = false))
    /\ (forall test, operandTest (operator filter) = Some test ->
          (field filter <> Key.dateAdded ->
             (Primary.evaluateFilter account filter = true
              <-> exists v, In v (values filter) /\ test fieldValue v = true))
          /\ (Secondary.evaluateFilter account filter = true
              <-> exists v, In v (values filter) /\ test fieldValue v = true)).
Proof.
  intros account filter Hv fieldValue. split.
  - intros Hop. split; [intros Hf; rewrite Primary_evaluateFilter_operator by done
                       | rewrite Secondary_evaluateFilter_operator by done];
      rewrite Hop; apply forallb_negb_false.
  - intros test Htest. split; [intros Hf; rewrite Primary_evaluateFilter_operator by done
                              | rewrite Secondary_evaluateFilter_operator by done];
      destruct (operator filter); try discriminate Htest;
      rewrite Htest; apply existsb_exists.
Qed.

(** ** Sorting over a store of arrays *)

Lemma Store_sortAccountsByField_eq (h : gmap positive (list Account)) accounts field elements :
  h !! accounts = Some elements ->
  Store.sortAccountsByField h accounts field
  = Some (<[fresh (dom h) := sortAccountsByField elements field]> h, fresh (dom h)).
Proof.
  intros Hin. unfold Store.sortAccountsByField, Store.spread, Store.sortInPlace.
  rewrite Hin. rewrite lookup_insert_eq. by rewrite insert_insert_eq.
Qed.

Lemma fresh_not_allocated (h : gmap positive (list Account)) : h !! fresh (dom h) = None.
Proof. apply not_elem_of_dom, is_fresh. Qed.

(** C8.  Over a store of arrays: a call on an allocated array returns an
    array that was not allocated before, so not the input; the input array
    and every other array already there keep their contents; the new array
    holds the sorted contents, which depend on the input's contents and the
    field only; and a second call with the same arguments returns one more
    new array with the same contents as the first. *)
Theorem sort_leaves_input_unchanged :
  forall (h : gmap positive (list Account)) (accounts : Store.ref) (field : Key.t)
         (elements : list Account),
    h !! accounts = Some elements ->
    exists h1 r1,
      Store.sortAccountsByField h accounts field = Some (h1, r1)
      /\ h !! r1 = None
      /\ r1 <> accounts
      /\ h1 !! accounts = Some elements
      /\ (forall r, r <> r1 -> h1 !! r = h !! r)
      /\ h1 !! r1 = Some (sortAccountsByField elements field)
      /\ exists h2 r2,
           Store.sortAccountsByField h1 accounts field = Some (h2, r2)
           /\ r2 <> r1
           /\ h2 !! r2 = h1 !! r1
           /\ h2 !! r1 = h1 !! r1
           /\ h2 !! accounts = Some elements.
Proof.
  intros h accounts field elements Hin.
  set (r1 := fresh (dom h)).
  set (h1 := <[r1 := sortAccountsByField elements field]> h).
  assert (Hr1 : h !! r1 = None) by apply fresh_not_allocated.
  assert (Hne : r1 <> accounts) by congruence.
  assert (Hin1 : h1 !! accounts = Some elements)
    by (unfold h1; by rewrite lookup_insert_ne).
  exists h1, r1. split; [by apply Store_sortAccountsByField_eq|].
  split; [done|]. split; [done|]. split; [done|].
  split; [intros r Hr; unfold h1; by rewrite lookup_insert_ne|].
  split; [unfold h1; by rewrite lookup_insert_eq|].
  set (r2 := fresh (dom h1)).
  assert (Hr2 : h1 !! r2 = None) by apply fresh_not_allocated.
  assert (Hne2 : r2 <> r1).
  { intros E. rewrite E in Hr2. unfold h1 in Hr2. by rewrite lookup_insert_eq in Hr2. }
  assert (Hne3 : r2 <> accounts) by congruence.
  exists (<[r2 := sortAccountsByField elements field]> h1), r2.
  split; [by apply Store_sortAccountsByField_eq|].
  split; [done|].
  split; [unfold h1; by rewrite !lookup_insert_eq|].
  split; [by rewrite lookup_insert_ne|].
  by rewrite lookup_insert_ne.
Qed.

(** Sorting what the sort returned gives it back unchanged, whenever the
    comparator never puts each of two records after the other: for every
    field but the three that go through [localeCompare], and for those when
    the host's collation is antisymmetric. *)
Lemma sortOrder_sub_antisym (a b : Js.number) :
  Js.sortOrder (Js.sub a b) = Gt -> Js.sortOrder (Js.sub b a) <> Gt.
Proof.
  rewrite !sortOrder_sub. destruct a as [|[]|x], b as [|[]|y]; try done.
  cbn. rewrite <- (Qcompare_antisym x y). by destruct (x ?= y)%Q.
Qed.

Lemma sort_again_Sorted {A} (comparefn : A -> A -> Js.number) (l : list A) :
  (forall x y, Js.sortOrder (comparefn x y) = Gt -> Js.sortOrder (comparefn y x) <> Gt) ->
  Sorted (fun x y => Js.sortOrder (comparefn x y) <> Gt) (Js.sort comparefn l).
Proof.
  intros Hanti. apply (sort_Sorted _ (fun _ => True)); [| |by apply Forall_forall].
  - intros x y _ _. apply Hanti.
  - by intros x y _ _.
Qed.

Lemma sort_twice accounts field :
  (forall a b, (0 < localeCompare a b)%Z -> (localeCompare b a <= 0)%Z) ->
  sortAccountsByField (sortAccountsByField accounts field) field
  = sortAccountsByField accounts field.
Proof.
  intros Hlocale. apply sort_of_sorted, sort_again_Sorted. intros x y.
  assert (Hloc : forall s t,
    Js.sortOrder (Js.ofZ (localeCompare s t)) = Gt ->
    Js.sortOrder (Js.ofZ (localeCompare t s)) <> Gt).
  { intros s t. unfold Js.ofZ, Js.sortOrder.
    change 0%Q with (inject_Z 0). rewrite !Qcompare_inject_Z.
    intros Hgt%Z.compare_gt_iff Hgt'%Z.compare_gt_iff.
    specialize (Hlocale s t). lia. }
  unfold compareAccounts.
  destruct field; try apply sortOrder_sub_antisym; try apply Hloc; try done.
  cbn [get String_]. unfold Js.str_gt.
  destruct (Js.str_lt (dateAdded x) (dateAdded y)) eqn:E1,
           (Js.str_lt (dateAdded y) (dateAdded x)) eqn:E2; try done.
  unfold Js.str_lt in E1, E2.
  rewrite String.compare_antisym in E2.
  by destruct (String.compare (dateAdded x) (dateAdded y)).
Qed.

(** ** Suggestions *)

Lemma scoreAccount_account t f a : scored_account (scoreAccount t f a) = a.
Proof. unfold scoreAccount. by destruct (inOrderScan _ _ _ _). Qed.


Lemma uniqueLoop_sublist sorted seen unique :
  exists extra, uniqueLoop sorted seen unique = unique ++ extra /\ sublist extra sorted.
Proof.
  revert seen unique. induction sorted as [|item rest IH]; intros seen unique.
  - exists []. cbn. by rewrite app_nil_r.
  - cbn [uniqueLoop]. case_bool_decide.
    + destruct (IH seen unique) as (extra & -> & Hsub).
      exists extra. split; [done|]. by apply sublist_cons.
    + destruct (5 <=? length (unique ++ [item]))%nat.
      * exists [item]. split; [done|]. apply sublist_skip, sublist_nil_l.
      * destruct (IH ({[scored_fieldValue item]} ∪ seen) (unique ++ [item]))
          as (extra & -> & Hsub).
        exists (item :: extra). split; [by rewrite <- app_assoc|]. by apply sublist_skip.
Qed.

Lemma uniqueLoop_length sorted seen unique :
  (length unique < 5)%nat -> (length (uniqueLoop sorted seen unique) <= 5)%nat.
Proof.
  revert seen unique. induction sorted as [|item rest IH]; intros seen unique Hlen.
  - cbn. lia.
  - cbn [uniqueLoop]. case_bool_decide; [by apply IH|].
    destruct (5 <=? length (unique ++ [item]))%nat eqn:E.
    + rewrite length_app in *. cbn in *. lia.
    + apply IH. apply Nat.leb_gt in E. lia.
Qed.


Lemma seen_after_duplicate (seen : gset string) passed x :
  scored_fieldValue x ∈ seen ->
  (forall k, k ∈ seen <-> k ∈ map scored_fieldValue passed) ->
  forall k, k ∈ seen <-> k ∈ map scored_fieldValue (passed ++ [x]).
Proof.
  intros Hx Hseen k. rewrite map_app, elem_of_app. cbn.
  rewrite list_elem_of_singleton, <- Hseen. split; [by left|].
  by intros [?| ->].
Qed.

Lemma seen_after_new (seen : gset string) passed x :
  (forall k, k ∈ seen <-> k ∈ map scored_fieldValue passed) ->
  forall k, k ∈ {[scored_fieldValue x]} ∪ seen
            <-> k ∈ map scored_fieldValue (passed ++ [x]).
Proof.
  intros Hseen k. rewrite map_app, elem_of_app. cbn.
  rewrite list_elem_of_singleton, <- Hseen, elem_of_union, elem_of_singleton. tauto.
Qed.

(** Every kept candidate is the first one with its key among the candidates
    looked at so far, given that [seen] holds the keys of those already
    passed. *)
Lemma uniqueLoop_first passed sorted (seen : gset string) unique item :
  (forall k, k ∈ seen <-> k ∈ map scored_fieldValue passed) ->
  item ∈ uniqueLoop sorted seen unique ->
  item ∈ unique
  \/ exists before after,
       passed ++ sorted = before ++ item :: after
       /\ scored_fieldValue item ∉ map scored_fieldValue before.
Proof.
  revert passed seen unique.
  induction sorted as [|x rest IH]; intros passed seen unique Hseen Hin.
  - by left.
  - cbn [uniqueLoop] in Hin. case_bool_decide as Hx.
    + destruct (IH (passed ++ [x]) seen unique) as [?|(b & a & E & Hb)]; [|done|by left|].
      * by apply seen_after_duplicate.
      * right. exists b, a. by rewrite <- app_assoc in E.
    + assert (Hnew : item = x -> exists before after,
        passed ++ x :: rest = before ++ item :: after
        /\ scored_fieldValue item ∉ map scored_fieldValue before).
      { intros ->. exists passed, rest. split; [done|]. by rewrite <- Hseen. }
      destruct (5 <=? length (unique ++ [x]))%nat.
      * apply elem_of_app in Hin as [?|Hin]; [by left|].
        apply list_elem_of_singleton in Hin. right. by apply Hnew.
      * destruct (IH (passed ++ [x]) ({[scored_fieldValue x]} ∪ seen) (unique ++ [x]))
          as [Hu|(b & a & E & Hb)]; [|done| |].
        -- by apply seen_after_new.
        -- apply elem_of_app in Hu as [?|Hu]; [by left|].
           apply list_elem_of_singleton in Hu. right. by apply Hnew.
        -- right. exists b, a. by rewrite <- app_assoc in E.
Qed.

Lemma filter_sublist {A} (f : A -> bool) (l : list A) : sublist (List.filter f l) l.
Proof.
  induction l as [|x l IH]; cbn; [constructor|].
  destruct (f x); by constructor.
Qed.

Lemma StronglySorted_sublist {A} (R : A -> A -> Prop) (k l : list A) :
  sublist k l -> StronglySorted R l -> StronglySorted R k.
Proof.
  intros Hsub Hl. revert k Hsub. induction Hl as [|x l Hl IH Hx]; intros k Hsub.
  - apply sublist_nil_r in Hsub as ->. constructor.
  - apply sublist_cons_r in Hsub as [Hsub|(k' & -> & Hsub)]; [by apply IH|].
    constructor; [by apply IH|]. rewrite Forall_forall in *.
    intros y Hy. apply Hx. by eapply elem_of_sublist.
Qed.

(** Every score is a double. *)
Lemma scoreAccount_onGrid t f a : Double.onGrid (scored_score (scoreAccount t f a)).
Proof.
  unfold scoreAccount. destruct (inOrderScan _ _ _ _). cbn [scored_score].
  destruct (10 <? _)%nat; apply round_onGrid.
Qed.

Lemma scored_onGrid t f accounts :
  Forall (fun item => Double.onGrid (scored_score item)) (map (scoreAccount t f) accounts).
Proof. induction accounts as [|a l IH]; constructor; [apply scoreAccount_onGrid|done]. Qed.

(** On doubles the comparator [b.score - a.score] has the sign of the exact
    difference: the subtraction rounds, but never to zero or across it. *)
Lemma sortOrder_byScore (x y : Scored) :
  Double.onGrid (scored_score x) -> Double.onGrid (scored_score y) ->
  Js.sortOrder (byScore x y) = (scored_score y ?= scored_score x)%Q.
Proof.
  intros Hx Hy. unfold byScore, Double.sub. cbn [Js.sortOrder].
  rewrite round_sign by (by apply onGrid_sub). apply Qcompare_sub.
Qed.

Lemma sort_byScore_Sorted (scored : list Scored) :
  Forall (fun item => Double.onGrid (scored_score item)) scored ->
  StronglySorted (fun x y => (scored_score y <= scored_score x)%Q)
    (Js.sort byScore scored).
Proof.
  intros Hgrid. apply Sorted_StronglySorted.
  - intros x y z Hxy Hyz. by eapply Qle_trans.
  - apply (sort_Sorted _ (fun item => Double.onGrid (scored_score item))); [| |done].
    + intros x y Hx Hy. rewrite sortOrder_byScore by done.
      intros Hgt. apply Qlt_le_weak. by apply Qgt_alt.
    + intros x y Hx Hy. rewrite sortOrder_byScore by done.
      intros Hle. by apply Qle_alt.
Qed.


Lemma lookup_map {A B} (f : A -> B) (l : list A) i :
  map f l !! i = f <$> l !! i.
Proof. revert i. induction l as [|x l IH]; intros [|i]; cbn; done. Qed.








(** C9.  With the empty search term there are no suggestions, whatever the
    records and the field. *)
Theorem empty_term_no_suggestions :
  forall (accounts : list Account) (field : Key.t),
    findClosestMatches EmptyString accounts field = [].
Proof. reflexivity. Qed.

End Engine.

(** ** Validation *)

#[local] Arguments Js.isDigit : simpl never.

Lemma append_empty_l (s : string) : String.append EmptyString s = s.
Proof. reflexivity. Qed.

Lemma append_String c (s t : string) :
  String.append (String c s) t = String c (String.append s t).
Proof. reflexivity. Qed.

Lemma append_empty_r (s : string) : String.append s EmptyString = s.
Proof. induction s as [|c s IH]; [done|]. by rewrite append_String, IH. Qed.

Lemma allDigits_String c (d : string) :
  allDigits (String c d) <-> Js.isDigit c = true /\ allDigits d.
Proof. unfold allDigits. cbn [Js.testAll]. apply andb_true_iff. Qed.

Lemma skipDigits_all (d : string) : allDigits d -> skipDigits d = EmptyString.
Proof.
  induction d as [|c d IH]; [done|].
  intros [Hc Hd]%allDigits_String. cbn [skipDigits]. rewrite Hc. by apply IH.
Qed.

Lemma skipDigits_app (d : string) c rest :
  allDigits d -> Js.isDigit c = false ->
  skipDigits (String.append d (String c rest)) = String c rest.
Proof.
  intros Hd Hc. induction d as [|x d IH].
  - rewrite append_empty_l. cbn [skipDigits]. by rewrite Hc.
  - apply allDigits_String in Hd as [Hx Hd].
    rewrite append_String. cbn [skipDigits]. rewrite Hx. by apply IH.
Qed.

Lemma skipDigits_split (s : string) :
  exists d, allDigits d /\ s = String.append d (skipDigits s).
Proof.
  induction s as [|c s (d & Hd & Hs)]; [by exists EmptyString|].
  cbn [skipDigits]. destruct (Js.isDigit c) eqn:E.
  - exists (String c d). split; [by apply allDigits_String|].
    by rewrite append_String, <- Hs.
  - by exists EmptyString.
Qed.

Lemma digitRun_Some (s rest : string) :
  digitRun s = Some rest ->
  exists d, d <> EmptyString /\ allDigits d /\ s = String.append d rest.
Proof.
  destruct s as [|c s]; cbn [digitRun]; [done|].
  destruct (Js.isDigit c) eqn:E; [|done].
  intros [= <-]. destruct (skipDigits_split s) as (d & Hd & Hs).
  exists (String c d). split; [done|].
  split; [by apply allDigits_String|]. by rewrite append_String, <- Hs.
Qed.

Lemma digitRun_all (d : string) :
  d <> EmptyString -> allDigits d -> digitRun d = Some EmptyString.
Proof.
  destruct d as [|c d]; [done|]. intros _ [Hc Hd]%allDigits_String.
  cbn [digitRun]. by rewrite Hc, skipDigits_all.
Qed.

Lemma digitRun_app (d : string) c rest :
  d <> EmptyString -> allDigits d -> Js.isDigit c = false ->
  digitRun (String.append d (String c rest)) = Some (String c rest).
Proof.
  destruct d as [|x d]; [done|]. intros _ [Hx Hd]%allDigits_String Hc.
  rewrite append_String. cbn [digitRun]. by rewrite Hx, skipDigits_app.
Qed.

(** The pattern of the page is the decimal number of the specification. *)
Lemma balancePattern_decimalNumber (s : string) :
  balancePattern s = true <-> decimalNumber s.
Proof.
  unfold balancePattern, decimalNumber. split.
  - destruct (digitRun s) as [[|c rest]|] eqn:E; [| |done].
    + intros _. apply digitRun_Some in E as (d & Hne & Hd & ->).
      exists d, EmptyString. rewrite append_empty_r. auto.
    + destruct (Ascii.eqb_spec c ".") as [->|]; [|done].
      destruct (digitRun rest) as [[|]|] eqn:E2; try done. intros _.
      apply digitRun_Some in E as (d & Hne & Hd & ->).
      apply digitRun_Some in E2 as (f & Hnf & Hf & ->).
      exists d, f. rewrite append_empty_r. auto 6.
  - intros (whole & frac & Hne & Hd & [->|(Hnf & Hf & ->)]).
    + by rewrite digitRun_all.
    + rewrite digitRun_app by done. rewrite Ascii.eqb_refl. by rewrite digitRun_all.
Qed.

Lemma validateSearchInput_balance (value : string) :
  validateSearchInput Key.balance value = ok.
Proof. unfold validateSearchInput. by destruct (Js.truthy value). Qed.

(** C4, as the code has it.  [validateSearchInput] accepts every value for
    the balance field.  The decimal-number rule is applied by the primary
    page's [addValueToFilter]: for a balance condition whose input, trimmed,
    is not empty, the value is appended to the condition's values exactly
    when it is a non-negative decimal number; otherwise the values stay as
    they were and the condition's error becomes
    "Balance must be a valid number". *)
Theorem balance_rule_in_addValueToFilter :
  forall (st : PageState) (id : string) (filter : AdvancedFilter),
    List.find (fun f => String.eqb (filterId f) id) (advancedFilters st) = Some filter ->
    field filter = Key.balance ->
    Js.trim (inputValue filter) <> EmptyString ->
    let value := Js.trim (inputValue filter) in
    (forall v, validateSearchInput Key.balance v = ok)
    /\ (decimalNumber value ->
          Primary.addValueToFilter st id
          = {| advancedFilters :=
                 map (fun f => if String.eqb (filterId f) id
                               then withValues (values filter ++ [value]) EmptyString f
                               else f) (advancedFilters st);
               filterErrors := delete id (filterErrors st) |})
    /\ (~ decimalNumber value ->
          Primary.addValueToFilter st id
          = {| advancedFilters := advancedFilters st;
               filterErrors := <[id := "Balance must be a valid number"]> (filterErrors st) |}).
Proof.
  intros st id filter Hfind Hfield Hne value.
  split; [apply validateSearchInput_balance|].
  unfold Primary.addValueToFilter. rewrite Hfind, Hfield. fold value.
  assert (Ht : Js.truthy value = true)
    by (unfold value; destruct (Js.trim (inputValue filter)); done).
  rewrite Ht. cbn [Key.eqb andb]. rewrite validateSearchInput_balance. cbn [valid ok negb].
  split; intros Hdec.
  - apply balancePattern_decimalNumber in Hdec. by rewrite Hdec.
  - destruct (balancePattern value) eqn:E.
    + by apply balancePattern_decimalNumber in E.
    + cbn. unfold setFilterErrors. cbn. by rewrite insert_delete_eq.
Qed.

(** ** Showing the suggestions *)

Lemma mapHas_In (uniqueValues : list (string * string)) key :
  mapHas uniqueValues key = true <-> In key (map fst uniqueValues).
Proof.
  unfold mapHas. rewrite existsb_exists, in_map_iff. split.
  - intros (entry & Hin & Heq%String.eqb_eq). by exists entry.
  - intros (entry & Heq & Hin). exists entry. split; [done|]. by apply String.eqb_eq.
Qed.

Lemma uniqueValuesLoop_invariant field accountList uniqueValues :
  NoDup (map fst uniqueValues) ->
  Forall (fun entry => fst entry = normalize (snd entry)) uniqueValues ->
  NoDup (map fst (uniqueValuesLoop field accountList uniqueValues))
  /\ Forall (fun entry => fst entry = normalize (snd entry))
       (uniqueValuesLoop field accountList uniqueValues).
Proof.
  revert uniqueValues. induction accountList as [|account rest IH];
    intros uniqueValues Hnd Hkeys; [done|].
  cbn [uniqueValuesLoop].
  destruct (mapHas uniqueValues (normalize (String_ (get account field)))) eqn:Ehas;
    [by apply IH|].
  apply IH.
  - rewrite map_app. apply NoDup_app. split; [done|]. split; [|apply NoDup_singleton].
    intros key Hkey Hnew. cbn in Hnew. apply list_elem_of_singleton in Hnew. subst key.
    apply list_elem_of_In, mapHas_In in Hkey. rewrite Ehas in Hkey. discriminate.
  - apply Forall_app. split; [done|]. by repeat constructor.
Qed.

(** What the page shows for a field never holds two values that are equal
    after lower-casing and trimming. *)
Theorem shown_suggestions_distinct :
  forall (field : Key.t) (accountList : list Account) (i j : nat) (v w : string),
    i <> j ->
    uniqueSuggestions field accountList !! i = Some v ->
    uniqueSuggestions field accountList !! j = Some w ->
    normalize v <> normalize w.
Proof.
  intros field accountList i j v w Hij Hv Hw Heq. apply Hij.
  destruct (uniqueValuesLoop_invariant field accountList [])
    as [Hnd Hkeys]; [constructor|constructor|].
  unfold uniqueSuggestions in Hv, Hw. rewrite lookup_map in Hv, Hw.
  destruct (uniqueValuesLoop field accountList [] !! i) as [[kv v']|] eqn:Ei; [|done].
  destruct (uniqueValuesLoop field accountList [] !! j) as [[kw w']|] eqn:Ej; [|done].
  cbn in Hv, Hw. injection Hv as ->. injection Hw as ->.
  rewrite Forall_forall in Hkeys.
  pose proof (Hkeys _ (list_elem_of_lookup_2 _ _ _ Ei)) as Hkv.
  pose proof (Hkeys _ (list_elem_of_lookup_2 _ _ _ Ej)) as Hkw.
  cbn [fst snd] in Hkv, Hkw.
  apply (NoDup_lookup _ i j kv Hnd); rewrite lookup_map.
  - by rewrite Ei.
  - rewrite Ej. cbn. congruence.
Qed.

(** * Worked instances *)

Lemma operands_all_or_some_witness :
  values (mkFilter And Key.companyName OpDoesNotContain ["Acme"; "Corp"]) <> []
  /\ (@Primary.evaluateFilter digitsHost zeta
        (mkFilter And Key.companyName OpDoesNotContain ["Acme"; "Corp"]) = true
      <-> forall v, In v ["Acme"; "Corp"] ->
            containsIgnoringCase (VString "Zeta Holdings") v = false).
Proof.
  assert (Hv : values (mkFilter And Key.companyName OpDoesNotContain ["Acme"; "Corp"]) <> [])
    by discriminate.
  split; [exact Hv|].
  destruct (@operands_all_or_some digitsHost zeta
              (mkFilter And Key.companyName OpDoesNotContain ["Acme"; "Corp"]) Hv)
    as [Hnone _].
  destruct (Hnone eq_refl) as [Hprimary _]. apply Hprimary. discriminate.
Defined.

Lemma empty_values_match_witness :
  values (mkFilter And Key.balance OpGt []) = []
  /\ @Primary.evaluateFilter digitsHost zeta (mkFilter And Key.balance OpGt []) = true
  /\ @Secondary.evaluateFilter digitsHost zeta (mkFilter And Key.balance OpGt []) = true.
Proof.
  split; [reflexivity|].
  destruct (@empty_values_match digitsHost zeta (mkFilter And Key.balance OpGt []) eq_refl)
    as (Hprimary & Hsecondary & _).
  split; [apply Hprimary; discriminate|exact Hsecondary].
Defined.

Lemma date_condition_witness :
  field (mkDateFilter (Some "2024-01-01") None) = Key.dateAdded
  /\ @Primary.evaluateFilter digitsHost acme (mkDateFilter (Some "2024-01-01") None)
     = Js.str_ge "2024-01-15" "2024-01-01".
Proof.
  split; [reflexivity|].
  exact (proj1 (@date_condition digitsHost acme
                  (mkDateFilter (Some "2024-01-01") None) eq_refl)).
Defined.

Lemma balance_sort_descending_witness :
  (balance acme >= balance nexus)%Z
  /\ @sortAccountsByField digitsHost [acme; zeta; nexus] Key.balance = [acme; nexus; zeta]
  /\ Js.le (@StringToNumber digitsHost (accountNumber nexus))
           (@StringToNumber digitsHost (accountNumber acme)) = true.
Proof.
  destruct (@balance_sort_descending digitsHost [acme; zeta; nexus])
    as (Hbalance & Hthree & Hnumber).
  split; [exact (Hbalance 0%nat acme nexus eq_refl eq_refl)|].
  split; [exact (Hthree acme zeta nexus eq_refl eq_refl eq_refl)|].
  apply (Hnumber ltac:(repeat constructor; eexists; reflexivity) 0%nat nexus acme);
    reflexivity.
Defined.

Lemma sort_leaves_input_unchanged_witness :
  sampleStore !! 1%positive = Some [acme; zeta; nexus]
  /\ exists h1 r1,
       @Store.sortAccountsByField digitsHost sampleStore 1%positive Key.balance
       = Some (h1, r1)
       /\ r1 <> 1%positive
       /\ h1 !! 1%positive = Some [acme; zeta; nexus]
       /\ h1 !! r1 = Some (@sortAccountsByField digitsHost [acme; zeta; nexus] Key.balance).
Proof.
  assert (Hin : sampleStore !! 1%positive = Some [acme; zeta; nexus]) by reflexivity.
  split; [exact Hin|].
  destruct (@sort_leaves_input_unchanged digitsHost sampleStore 1%positive Key.balance
              [acme; zeta; nexus] Hin)
    as (h1 & r1 & Hcall & _ & Hnew & Hsame & _ & Hsorted & _).
  exists h1, r1. auto.
Defined.



(** C4 as it was claimed: [validateSearchInput] returns valid on a balance
    that is no decimal number. *)
Lemma balance_validator_accepts_non_number :
  "abc" <> EmptyString
  /\ validateSearchInput Key.balance "abc" = {| valid := true; error := None |}
  /\ ~ decimalNumber "abc".
Proof.
  split; [discriminate|]. split; [reflexivity|].
  intros Hdec. apply balancePattern_decimalNumber in Hdec. discriminate.
Qed.

Lemma balance_rule_in_addValueToFilter_witness :
  Primary.addValueToFilter (samplePage " 12.5 ") "7"
  = {| advancedFilters := [withValues ["100"; "12.5"] EmptyString (balanceRow " 12.5 ")];
       filterErrors := delete "7" ∅ |}
  /\ Primary.addValueToFilter (samplePage "-3") "7"
     = {| advancedFilters := [balanceRow "-3"];
          filterErrors := <["7" := "Balance must be a valid number"]> ∅ |}.
Proof.
  split.
  - refine (proj1 (proj2 (balance_rule_in_addValueToFilter
               (samplePage " 12.5 ") "7" (balanceRow " 12.5 ") eq_refl eq_refl _)) _).
    + discriminate.
    + apply balancePattern_decimalNumber. reflexivity.
  - refine (proj2 (proj2 (balance_rule_in_addValueToFilter
               (samplePage "-3") "7" (balanceRow "-3") eq_refl eq_refl _)) _).
    + discriminate.
    + intros Hdec. apply balancePattern_decimalNumber in Hdec. discriminate.
Defined.

Lemma shown_suggestions_distinct_witness :
  uniqueSuggestions Key.companyName [acmePlain; acmeSpace; zeta] = ["Acme"; "Zeta Holdings"]
  /\ normalize "Acme" <> normalize "Zeta Holdings".
Proof.
  split; [reflexivity|].
  apply (shown_suggestions_distinct Key.companyName [acmePlain; acmeSpace; zeta] 0 1);
    [discriminate|reflexivity|reflexivity].
Defined.

Lemma sort_twice_witness :
  @sortAccountsByField digitsHost
    (@sortAccountsByField digitsHost [zeta; nexus; acme] Key.companyName) Key.companyName
  = @sortAccountsByField digitsHost [zeta; nexus; acme] Key.companyName.
Proof.
  apply (@sort_twice digitsHost). intros a b. cbn.
  rewrite String.compare_antisym. destruct (String.compare b a); cbn; lia.
Defined.

(** * Further properties *)

(** ** Column search *)

Lemma startsWith_toLowerCase (s p : string) :
  Js.startsWith s p = true -> Js.startsWith (Js.toLowerCase s) (Js.toLowerCase p) = true.
Proof.
  revert s. induction p as [|c p IH]; intros s; [by destruct s|].
  destruct s as [|d s]; cbn [Js.startsWith Js.toLowerCase]; [done|].
  destruct (Ascii.eqb_spec d c) as [->|]; [|done].
  rewrite Ascii.eqb_refl. apply IH.
Qed.

Lemma startsWith_includes (s p : string) :
  Js.startsWith s p = true -> Js.includes s p = true.
Proof. intros Hs. destruct s; cbn [Js.includes]; by rewrite Hs. Qed.

Lemma includes_toLowerCase (s p : string) :
  Js.includes s p = true -> Js.includes (Js.toLowerCase s) (Js.toLowerCase p) = true.
Proof.
  induction s as [|d s IH]; cbn [Js.includes]; intros [Hs|Hs]%orb_true_iff.
  - apply startsWith_includes. by apply (startsWith_toLowerCase EmptyString).
  - done.
  - apply startsWith_includes. by apply (startsWith_toLowerCase (String d s)).
  - cbn [Js.toLowerCase Js.includes]. rewrite (IH Hs). apply orb_true_r.
Qed.

Lemma matchesSearchField_relaxed strict relaxed account field :
  relaxesCase strict relaxed ->
  matchesSearchField strict account field = true ->
  matchesSearchField relaxed account field = true.
Proof.
  intros (Hterms & _ & Hflags). unfold matchesSearchField. rewrite Hterms.
  destruct (Js.truthy (searchValue strict field)); [|done]. cbn [negb].
  specialize (Hflags field).
  destruct (caseFlag relaxed field) eqn:Er.
  - by rewrite Hflags.
  - destruct (caseFlag strict field); [|done].
    intros Hm. apply includes_toLowerCase.
    destruct (testFirst Js.isDigit _); [by apply startsWith_includes|].
    destruct (testFirst Js.isLetter _); [by apply startsWith_includes|done].
Qed.

Section Results.
Context `{Host}.

(** Unticking case-sensitivity boxes never loses a result, on either page:
    every record shown for a search is still shown for the same search
    with fewer boxes ticked.  This is about text whose code units are below
    256, as all strings here are: there [toLowerCase] maps unit by unit, so
    a prefix or a part of a string stays one when both are lower-cased.  It
    is not so beyond: a Greek capital sigma is lower-cased by its place in
    the word. *)
Theorem unticking_case_keeps_results :
  forall (mockAccounts : list Account) (adv : list AdvancedFilter)
         (strict relaxed : SearchFilters) (sortBy : Key.t) (account : Account),
    relaxesCase strict relaxed ->
    (In account (PrimaryView.filteredAccounts mockAccounts adv strict sortBy) ->
     In account (PrimaryView.filteredAccounts mockAccounts adv relaxed sortBy))
    /\ (In account (SecondaryView.filteredAccounts mockAccounts adv strict sortBy) ->
        In account (SecondaryView.filteredAccounts mockAccounts adv relaxed sortBy)).
Proof.
  intros mockAccounts adv strict relaxed sortBy account Hrel.
  assert (Hall : forallb (matchesSearchField strict account) SEARCHABLE_FIELDS = true ->
                 forallb (matchesSearchField relaxed account) SEARCHABLE_FIELDS = true).
  { rewrite !forallb_forall. intros Hs field Hf.
    eapply matchesSearchField_relaxed; [exact Hrel|]. by apply Hs. }
  destruct Hrel as (_ & Hstatus & _).
  split; intros Hin.
  - eapply Permutation_in in Hin; [|apply sort_Permutation].
    eapply Permutation_in; [symmetry; apply sort_Permutation|].
    apply filter_In in Hin as [Hin Hkeep]. apply filter_In. split; [done|].
    unfold PrimaryView.filterCallback in *. rewrite Hstatus.
    destruct (_ && negb (advancedResult _ _ _)); [done|].
    destruct (_ && negb (statusIncludes _ _)); [done|]. by apply Hall.
  - eapply Permutation_in in Hin; [|apply sort_Permutation].
    eapply Permutation_in; [symmetry; apply sort_Permutation|].
    apply filter_In in Hin as [Hin Hkeep]. apply filter_In. split; [done|].
    unfold SecondaryView.filterCallback in *.
    destruct (_ && negb (advancedResult _ _ _)); [done|]. by apply Hall.
Qed.

Lemma statusIncludes_In (selected : list string) (s : string) :
  statusIncludes selected s = true <-> In s selected.
Proof.
  unfold statusIncludes. rewrite existsb_exists. split.
  - by intros (x & Hx & ->%String.eqb_eq).
  - intros Hs. exists s. split; [done|]. apply String.eqb_refl.
Qed.

Lemma PrimaryView_filterCallback_true adv sf account :
  PrimaryView.filterCallback adv sf account = true
  <-> passesAdvancedFilters Primary.evaluateFilter account adv = true
      /\ (forall field, In field SEARCHABLE_FIELDS ->
            matchesSearchField sf account field = true)
      /\ (searchStatus sf = [] \/ In (statusName (status account)) (searchStatus sf)).
Proof.
  unfold PrimaryView.filterCallback, passesAdvancedFilters.
  rewrite <- forallb_forall, <- statusIncludes_In.
  destruct (0 <? length adv)%nat;
    [destruct (advancedResult Primary.evaluateFilter account adv)|];
    cbn [andb negb];
    destruct (searchStatus sf) as [|s ss] eqn:Es; cbn [length Nat.ltb Nat.leb andb];
    try destruct (statusIncludes (s :: ss) _); cbn [negb];
    intuition (try discriminate; try done).
Qed.

Lemma SecondaryView_filterCallback_true adv sf account :
  SecondaryView.filterCallback adv sf account = true
  <-> passesAdvancedFilters Secondary.evaluateFilter account adv = true
      /\ (forall field, In field SEARCHABLE_FIELDS ->
            matchesSearchField sf account field = true).
Proof.
  unfold SecondaryView.filterCallback, passesAdvancedFilters.
  rewrite <- forallb_forall.
  destruct (0 <? length adv)%nat;
    [destruct (advancedResult Secondary.evaluateFilter account adv)|];
    cbn [andb negb]; intuition (try discriminate; try done).
Qed.

(** The records shown are exactly the records of the collection that pass
    all the tests: the advanced chain, every column search and, on the
    primary page, the status selection.  Sorting neither drops nor adds
    one: the result is a permutation of the matching records. *)
Theorem results_are_the_matches :
  forall (mockAccounts : list Account) (adv : list AdvancedFilter)
         (sf : SearchFilters) (sortBy : Key.t),
    (Permutation (PrimaryView.filteredAccounts mockAccounts adv sf sortBy)
       (List.filter (PrimaryView.filterCallback adv sf) mockAccounts)
     /\ forall account,
          In account (PrimaryView.filteredAccounts mockAccounts adv sf sortBy)
          <-> In account mockAccounts
              /\ passesAdvancedFilters Primary.evaluateFilter account adv = true
              /\ (forall field, In field SEARCHABLE_FIELDS ->
                    matchesSearchField sf account field = true)
              /\ (searchStatus sf = []
                  \/ In (statusName (status account)) (searchStatus sf)))
    /\ (Permutation (SecondaryView.filteredAccounts mockAccounts adv sf sortBy)
          (List.filter (SecondaryView.filterCallback adv sf) mockAccounts)
        /\ forall account,
             In account (SecondaryView.filteredAccounts mockAccounts adv sf sortBy)
             <-> In account mockAccounts
                 /\ passesAdvancedFilters Secondary.evaluateFilter account adv = true
                 /\ (forall field, In field SEARCHABLE_FIELDS ->
                       matchesSearchField sf account field = true)).
Proof.
  intros mockAccounts adv sf sortBy. split; (split; [apply sort_Permutation|]).
  - intros account. rewrite <- PrimaryView_filterCallback_true, <- filter_In.
    split; apply Permutation_in; [|symmetry]; apply sort_Permutation.
  - intros account. rewrite <- SecondaryView_filterCallback_true, <- filter_In.
    split; apply Permutation_in; [|symmetry]; apply sort_Permutation.
Qed.

Lemma filter_all {A} (f : A -> bool) (l : list A) :
  (forall x, In x l -> f x = true) -> List.filter f l = l.
Proof.
  induction l as [|x l IH]; intros Hall; [done|]. cbn.
  rewrite (Hall x) by (by left). f_equal. apply IH. intros y Hy. apply Hall. by right.
Qed.

(** With no advanced condition executed, nothing typed in any search box
    and no status ticked, every record of the collection is shown. *)
Theorem empty_query_shows_everything :
  forall (mockAccounts : list Account) (sf : SearchFilters) (sortBy : Key.t),
    (forall field, In field SEARCHABLE_FIELDS -> searchValue sf field = EmptyString) ->
    searchStatus sf = [] ->
    Permutation (PrimaryView.filteredAccounts mockAccounts [] sf sortBy) mockAccounts
    /\ Permutation (SecondaryView.filteredAccounts mockAccounts [] sf sortBy) mockAccounts.
Proof.
  intros mockAccounts sf sortBy Hterms Hstatus.
  assert (Hall : forall account,
            forallb (matchesSearchField sf account) SEARCHABLE_FIELDS = true).
  { intros account. apply forallb_forall. intros field Hf.
    unfold matchesSearchField. by rewrite (Hterms field Hf). }
  split.
  - unfold PrimaryView.filteredAccounts. rewrite filter_all; [apply sort_Permutation|].
    intros account _. unfold PrimaryView.filterCallback. rewrite Hstatus. cbn. apply Hall.
  - unfold SecondaryView.filteredAccounts. rewrite filter_all; [apply sort_Permutation|].
    intros account _. unfold SecondaryView.filterCallback. cbn. apply Hall.
Qed.

End Results.

(** ** Chains of conditions *)

Section ChainMore.
Variable matches : Account -> AdvancedFilter -> bool.

Lemma advancedResult_snoc account fs f :
  fs <> [] ->
  advancedResult matches account (fs ++ [f])
  = chainStep (matches account) (advancedResult matches account fs) f.
Proof.
  destruct fs as [|x fs]; [done|]. intros _.
  rewrite <- app_comm_cons, !advancedResult_cons. by rewrite fold_left_app.
Qed.

Lemma fold_all_And account rest acc :
  Forall (fun f => logic f = And) rest ->
  fold_left (chainStep (matches account)) rest acc
  = acc && forallb (matches account) rest.
Proof.
  intros Hall. revert acc. induction Hall as [|f rest Hf _ IH]; intros acc; cbn.
  - by rewrite andb_true_r.
  - rewrite IH. unfold chainStep. rewrite Hf. by rewrite andb_assoc.
Qed.

Lemma fold_all_Or account rest acc :
  Forall (fun f => logic f = Or) rest ->
  fold_left (chainStep (matches account)) rest acc
  = acc || existsb (matches account) rest.
Proof.
  intros Hall. revert acc. induction Hall as [|f rest Hf _ IH]; intros acc; cbn.
  - by rewrite orb_false_r.
  - rewrite IH. unfold chainStep. rewrite Hf. by rewrite orb_assoc.
Qed.

Lemma forallb_Permutation {A} (f : A -> bool) (l l' : list A) :
  Permutation l l' -> forallb f l = forallb f l'.
Proof.
  induction 1 as [|x l l' _ IH|x y l|l l' l'' _ IH1 _ IH2]; cbn; try congruence.
  by destruct (f x), (f y).
Qed.

Lemma existsb_Permutation {A} (f : A -> bool) (l l' : list A) :
  Permutation l l' -> existsb f l = existsb f l'.
Proof.
  induction 1 as [|x l l' _ IH|x y l|l l' l'' _ IH1 _ IH2]; cbn; try congruence.
  by destruct (f x), (f y).
Qed.

Lemma advancedResult_all_And account fs :
  Forall (fun f => logic f = And) fs ->
  advancedResult matches account fs = forallb (matches account) fs.
Proof.
  destruct fs as [|x rest]; [done|]. intros Hall. apply Forall_cons in Hall as [_ Hall].
  rewrite advancedResult_cons. by apply fold_all_And.
Qed.

Lemma advancedResult_all_Or account x rest :
  Forall (fun f => logic f = Or) rest ->
  advancedResult matches account (x :: rest) = existsb (matches account) (x :: rest).
Proof. intros Hall. rewrite advancedResult_cons. by apply fold_all_Or. Qed.

Lemma advancedResult_pure_Permutation account fs fs' :
  Forall (fun f => logic f = And) fs \/ Forall (fun f => logic f = Or) fs ->
  Permutation fs fs' ->
  advancedResult matches account fs = advancedResult matches account fs'.
Proof.
  intros [Hall|Hall] Hperm.
  - rewrite !advancedResult_all_And; [by apply forallb_Permutation| |done].
    by rewrite <- Hperm.
  - assert (Hall' : Forall (fun f => logic f = Or) fs') by (by rewrite <- Hperm).
    destruct fs as [|x rest], fs' as [|x' rest'].
    + done.
    + by apply Permutation_nil_cons in Hperm.
    + symmetry in Hperm. by apply Permutation_nil_cons in Hperm.
    + apply Forall_cons in Hall as [_ Hall]. apply Forall_cons in Hall' as [_ Hall'].
      rewrite !advancedResult_all_Or by done. by apply existsb_Permutation.
Qed.
End ChainMore.

Section ChainsOnPages.
Context `{Host}.

(** Appending a condition to a chain that is not empty: tagged And, it can
    only take records away; tagged Or, it can only bring records in.  The
    chain's result is the old result combined with the new condition by the
    new condition's tag. *)
Theorem appended_condition_narrows_or_widens :
  forall (account : Account) (fs : list AdvancedFilter) (f : AdvancedFilter),
    fs <> [] ->
    (advancedResult Primary.evaluateFilter account (fs ++ [f])
       = match logic f with
         | And => advancedResult Primary.evaluateFilter account fs
                  && Primary.evaluateFilter account f
         | Or => advancedResult Primary.evaluateFilter account fs
                 || Primary.evaluateFilter account f
         end)
    /\ (advancedResult Secondary.evaluateFilter account (fs ++ [f])
          = match logic f with
            | And => advancedResult Secondary.evaluateFilter account fs
                     && Secondary.evaluateFilter account f
            | Or => advancedResult Secondary.evaluateFilter account fs
                    || Secondary.evaluateFilter account f
            end)
    /\ (forall sf,
          (logic f = And ->
           PrimaryView.filterCallback (fs ++ [f]) sf account = true ->
           PrimaryView.filterCallback fs sf account = true)
          /\ (logic f = Or ->
              PrimaryView.filterCallback fs sf account = true ->
              PrimaryView.filterCallback (fs ++ [f]) sf account = true)).
Proof.
  intros account fs f Hne.
  split; [by rewrite advancedResult_snoc|]. split; [by rewrite advancedResult_snoc|].
  intros sf. rewrite !PrimaryView_filterCallback_true. unfold passesAdvancedFilters.
  rewrite length_app. cbn [length].
  replace (0 <? length fs + 1)%nat with true by (symmetry; apply Nat.ltb_lt; lia).
  replace (0 <? length fs)%nat with true
    by (symmetry; apply Nat.ltb_lt; destruct fs; [done|cbn; lia]).
  rewrite advancedResult_snoc by done. unfold chainStep.
  split; intros ->; intros (Hadv & Hrest); (split; [|done]).
  - by apply andb_true_iff in Hadv as [? _].
  - rewrite Hadv. done.
Qed.

(** A chain whose tags are all And is the conjunction of its conditions, a
    chain whose tags are all Or the disjunction, and either gives the same
    result in whatever order its conditions are listed. *)
Theorem pure_chain_order_insensitive :
  forall (account : Account) (fs fs' : list AdvancedFilter),
    Permutation fs fs' ->
    (Forall (fun f => logic f = And) fs ->
       advancedResult Primary.evaluateFilter account fs
         = forallb (Primary.evaluateFilter account) fs
       /\ advancedResult Secondary.evaluateFilter account fs
         = forallb (Secondary.evaluateFilter account) fs
       /\ advancedResult Primary.evaluateFilter account fs
         = advancedResult Primary.evaluateFilter account fs'
       /\ advancedResult Secondary.evaluateFilter account fs
         = advancedResult Secondary.evaluateFilter account fs')
    /\ (Forall (fun f => logic f = Or) fs -> fs <> [] ->
          advancedResult Primary.evaluateFilter account fs
            = existsb (Primary.evaluateFilter account) fs
          /\ advancedResult Secondary.evaluateFilter account fs
            = existsb (Secondary.evaluateFilter account) fs
          /\ advancedResult Primary.evaluateFilter account fs
            = advancedResult Primary.evaluateFilter account fs'
          /\ advancedResult Secondary.evaluateFilter account fs
            = advancedResult Secondary.evaluateFilter account fs').
Proof.
  intros account fs fs' Hperm. split.
  - intros Hall. split; [by apply advancedResult_all_And|].
    split; [by apply advancedResult_all_And|].
    split; apply advancedResult_pure_Permutation; auto.
  - intros Hall Hne. destruct fs as [|x rest]; [done|].
    pose proof Hall as Hall'. apply Forall_cons in Hall' as [_ Hrest].
    split; [by apply advancedResult_all_Or|]. split; [by apply advancedResult_all_Or|].
    split; apply advancedResult_pure_Permutation; auto.
Qed.

(** ** More on the sort *)

Lemma Sort_insert_filter_out {A} (comparefn : A -> A -> Js.number) (keep : A -> bool) x l :
  keep x = false ->
  List.filter keep (Js.insert comparefn x l) = List.filter keep l.
Proof.
  intros Hx. induction l as [|y l IH]; cbn [Js.insert].
  - cbn. by rewrite Hx.
  - destruct (Js.sortOrder (comparefn x y)); cbn [List.filter]; rewrite ?Hx; try done.
    by rewrite IH.
Qed.

Lemma Sort_insert_filter_in {A} (comparefn : A -> A -> Js.number) (keep : A -> bool) x l :
  (forall y, Js.sortOrder (comparefn x y) = Gt -> keep y = false) ->
  keep x = true ->
  List.filter keep (Js.insert comparefn x l) = x :: List.filter keep l.
Proof.
  intros Hgt Hx. induction l as [|y l IH]; cbn [Js.insert].
  - cbn. by rewrite Hx.
  - destruct (Js.sortOrder (comparefn x y)) eqn:E; cbn [List.filter]; rewrite ?Hx; try done.
    by rewrite (Hgt y E), IH.
Qed.

(** The sort is stable: the elements of one class keep their order, when
    the comparator never ranks an element after one of its own class. *)
Lemma Sort_filter_class {A} (comparefn : A -> A -> Js.number) (keep : A -> bool) l :
  (forall x y, Js.sortOrder (comparefn x y) = Gt -> keep x = true -> keep y = false) ->
  List.filter keep (Js.sort comparefn l) = List.filter keep l.
Proof.
  intros Hclass. induction l as [|x l IH]; [done|]. cbn [Js.sort List.filter].
  destruct (keep x) eqn:Hx.
  - rewrite Sort_insert_filter_in; [by rewrite IH| |done].
    intros y Hy. by apply (Hclass x y).
  - by rewrite Sort_insert_filter_out, IH.
Qed.

Lemma Sort_never_after {A} (comparefn : A -> A -> Js.number) (l : list A) :
  (forall x y, Js.sortOrder (comparefn x y) <> Gt) -> Js.sort comparefn l = l.
Proof.
  intros Hno. induction l as [|x l IH]; [done|]. cbn [Js.sort]. rewrite IH.
  destruct l as [|y l]; [done|]. cbn [Js.insert].
  specialize (Hno x y). by destruct (Js.sortOrder (comparefn x y)).
Qed.

Lemma compareAccounts_dateAdded a b :
  Js.sortOrder (compareAccounts Key.dateAdded a b) = Gt
  <-> Js.str_lt (dateAdded a) (dateAdded b) = true.
Proof.
  unfold compareAccounts. cbn [get String_]. unfold Js.str_gt.
  destruct (Js.str_lt (dateAdded a) (dateAdded b)); [done|].
  by destruct (Js.str_lt (dateAdded b) (dateAdded a)).
Qed.

Lemma str_lt_asym (a b : string) : Js.str_lt a b = true -> Js.str_lt b a = false.
Proof.
  unfold Js.str_lt. rewrite (String.compare_antisym a b).
  by destruct (String.compare b a).
Qed.

Lemma str_lt_irrefl (a : string) : Js.str_lt a a = false.
Proof.
  destruct (Js.str_lt a a) eqn:E; [|done]. pose proof (str_lt_asym _ _ E). congruence.
Qed.

(** Sorted by date added, every record's date is, as a string, at least
    that of the record after it: most recent first. *)
Theorem date_sort_descending :
  forall (accounts : list Account) (i : nat) (a b : Account),
    sortAccountsByField accounts Key.dateAdded !! i = Some a ->
    sortAccountsByField accounts Key.dateAdded !! S i = Some b ->
    Js.str_ge (dateAdded a) (dateAdded b) = true.
Proof.
  intros accounts i a b Ha Hb.
  assert (Hs : Sorted (fun a b => Js.str_ge (dateAdded a) (dateAdded b) = true)
                 (sortAccountsByField accounts Key.dateAdded)).
  { apply (sort_Sorted _ (fun _ => True)); [| |by apply Forall_forall].
    - intros x y _ _ Hgt%compareAccounts_dateAdded. unfold Js.str_ge.
      by rewrite (str_lt_asym _ _ Hgt).
    - intros x y _ _ Hgt. unfold Js.str_ge.
      destruct (Js.str_lt (dateAdded x) (dateAdded y)) eqn:E; [|done].
      by apply compareAccounts_dateAdded in E. }
  exact (Sorted_adjacent _ _ i a b Hs Ha Hb).
Qed.

(** Sorting is stable on ties: the records with one given balance come out
    of the balance sort in the order they went in, and so do the records
    with one given date out of the date sort. *)
Theorem sort_keeps_ties_in_order :
  forall (accounts : list Account) (b : Z) (d : string),
    List.filter (fun a => (balance a =? b)%Z) (sortAccountsByField accounts Key.balance)
    = List.filter (fun a => (balance a =? b)%Z) accounts
    /\ List.filter (fun a => String.eqb (dateAdded a) d)
         (sortAccountsByField accounts Key.dateAdded)
       = List.filter (fun a => String.eqb (dateAdded a) d) accounts.
Proof.
  intros accounts b d. split; apply Sort_filter_class.
  - intros x y Hgt Hx%Z.eqb_eq. rewrite compareAccounts_balance in Hgt.
    apply Z.compare_gt_iff in Hgt. apply Z.eqb_neq. lia.
  - intros x y Hgt%compareAccounts_dateAdded Hx%String.eqb_eq.
    apply String.eqb_neq. intros Hy. rewrite Hx, Hy, str_lt_irrefl in Hgt. done.
Qed.

(** Sorting by a field that has no comparator of its own (the identifier,
    the status, the creation date, the last activity) returns the records
    in the order they were given. *)
Theorem sort_by_other_field_keeps_order :
  forall (accounts : list Account) (k : Key.t),
    In k [Key.id; Key.status; Key.createdDate; Key.lastActivity] ->
    sortAccountsByField accounts k = accounts.
Proof.
  intros accounts k Hk. apply Sort_never_after. intros x y.
  cbn in Hk. destruct Hk as [<-|[<-|[<-|[<-|[]]]]]; done.
Qed.

(** Sorted by phone number, records whose phone digits the host reads as
    finite numbers come out with every number at most the one after it,
    whatever the formatting around the digits. *)
Theorem phone_sort_ascending :
  forall (accounts : list Account) (i : nat) (a b : Account),
    Forall numericPhoneNumber accounts ->
    sortAccountsByField accounts Key.phoneNumber !! i = Some a ->
    sortAccountsByField accounts Key.phoneNumber !! S i = Some b ->
    Js.le (StringToNumber (phoneDigits a)) (StringToNumber (phoneDigits b)) = true.
Proof.
  intros accounts i a b Hnum Ha Hb.
  assert (Hs : Sorted (fun a b =>
                 Js.le (StringToNumber (phoneDigits a)) (StringToNumber (phoneDigits b)) = true)
                 (sortAccountsByField accounts Key.phoneNumber)).
  { apply (sort_Sorted _ numericPhoneNumber); [| |done].
    - intros x y [qx Hx] [qy Hy]. unfold compareAccounts. cbn [get String_].
      fold (phoneDigits x) (phoneDigits y).
      rewrite sortOrder_sub, Hx, Hy. unfold Js.le.
      destruct (Js.cmp (Js.Fin qx) (Js.Fin qy)) as [c|] eqn:E; [|done].
      intros Hc. change (c = Gt) in Hc. subst c. by rewrite (cmp_Fin_antisym _ _ _ E).
    - intros x y [qx Hx] [qy Hy]. unfold compareAccounts. cbn [get String_].
      fold (phoneDigits x) (phoneDigits y).
      rewrite sortOrder_sub, Hx, Hy. unfold Js.le.
      destruct (Js.cmp (Js.Fin qx) (Js.Fin qy)) as [[]|] eqn:E; try done. }
  exact (Sorted_adjacent _ _ i a b Hs Ha Hb).
Qed.

End ChainsOnPages.

(** ** More on the suggestions *)

Lemma natQ_nonneg (n : nat) : (0 <= natQ n)%Q.
Proof. unfold natQ. change 0%Q with (inject_Z 0). rewrite <- Zle_Qle. lia. Qed.

(** Adding a double that is not negative never takes a score below a
    double it has reached: the rounding is monotone. *)
Lemma add_keeps_floor (c x y : Q) :
  (Double.round c == c)%Q -> (c <= x)%Q -> (0 <= y)%Q -> (c <= Double.add x y)%Q.
Proof.
  intros Hc Hx Hy. rewrite <- Hc. unfold Double.add. apply round_le. lra.
Qed.

Lemma wordBonus_floor (c : Q) (search : string) (score : Q) (word : string) :
  (Double.round c == c)%Q -> (c <= score)%Q -> (c <= wordBonus search score word)%Q.
Proof.
  intros Hc Hs. unfold wordBonus.
  destruct (Js.startsWith word search), (Js.includes word search);
    repeat (apply add_keeps_floor; [done| |lra]); done.
Qed.

Lemma fold_wordBonus_floor (c : Q) (search : string) (words : list string) (score : Q) :
  (Double.round c == c)%Q -> (c <= score)%Q ->
  (c <= fold_left (wordBonus search) words score)%Q.
Proof.
  intros Hc. revert score. induction words as [|w words IH]; intros score Hs; cbn; [done|].
  by apply IH, wordBonus_floor.
Qed.

Lemma in_order_bonus_nonneg (n : nat) :
  (0 <= Double.add 150 (Double.mul (natQ n) 20))%Q.
Proof.
  apply round_nonneg.
  assert (0 <= Double.mul (natQ n) 20)%Q.
  { apply round_nonneg. pose proof (natQ_nonneg n). nra. }
  lra.
Qed.

Lemma overlap_bonus_nonneg (m n : nat) :
  (0 <= Double.mul (Double.div (natQ m) (natQ n)) 50)%Q.
Proof.
  apply round_nonneg.
  assert (0 <= Double.div (natQ m) (natQ n))%Q.
  { apply round_nonneg. unfold Qdiv.
    apply Qmult_le_0_compat; [apply natQ_nonneg|].
    apply Qinv_le_0_compat, natQ_nonneg. }
  lra.
Qed.

Lemma round_1000 : (Double.round 1000 == 1000)%Q.
Proof. vm_compute. reflexivity. Qed.

Lemma toLowerCase_length (s : string) :
  String.length (Js.toLowerCase s) = String.length s.
Proof. induction s as [|c s IH]; cbn; [done|]. by rewrite IH. Qed.

Lemma toLowerCase_truthy (s : string) : Js.truthy (Js.toLowerCase s) = Js.truthy s.
Proof. by destruct s. Qed.

(** A record whose lower-cased field value is the lower-cased term scores
    at least the thousand points of the exact match. *)
Lemma scoreOf_exact t f a :
  suggestionKey f a = Js.toLowerCase t -> (1000 <= scoreOf t f a)%Q.
Proof.
  intros Hkey. unfold scoreOf, scoreAccount. fold (suggestionKey f a). rewrite Hkey.
  rewrite String.eqb_refl.
  destruct (inOrderScan _ _ _ _) as [unmatched maxConsecutive].
  cbn [scored_score]. rewrite Z.sub_diag. cbn [Z.abs_nat Nat.ltb Nat.leb].
  set (s1 := Double.add 0 1000).
  set (s2 := if Js.startsWith _ _ then Double.add s1 500 else s1).
  set (s3 := if Js.includes _ _ then Double.add s2 200 else s2).
  set (s4 := if negb (Js.truthy unmatched)
             then Double.add s3 (Double.add 150 (Double.mul (natQ maxConsecutive) 20))
             else s3).
  set (bonus := Double.mul _ 50).
  pose proof round_1000 as Hc.
  assert (H1 : (1000 <= s1)%Q) by (unfold s1; vm_compute; discriminate).
  assert (H2 : (1000 <= s2)%Q).
  { unfold s2. destruct (Js.startsWith _ _); [|done]. apply add_keeps_floor; [done|done|lra]. }
  assert (H3 : (1000 <= s3)%Q).
  { unfold s3. destruct (Js.includes _ _); [|done]. apply add_keeps_floor; [done|done|lra]. }
  assert (H4 : (1000 <= s4)%Q).
  { unfold s4. destruct (negb _); [|done].
    apply add_keeps_floor; [done|done|apply in_order_bonus_nonneg]. }
  assert (H5 : (1000 <= Double.add s4 bonus)%Q).
  { apply add_keeps_floor; [done|done|apply overlap_bonus_nonneg]. }
  pose proof (fold_wordBonus_floor 1000 (Js.toLowerCase t)
                (Js.splitWhiteSpace (Js.toLowerCase t)) _ Hc H5) as H6.
  rewrite <- Hc at 1. unfold Double.sub. apply round_le.
  change (natQ 0) with 0%Q. lra.
Qed.

Lemma positiveScore_spec (item : Scored) :
  positiveScore item = true <-> (0 < scored_score item)%Q.
Proof.
  unfold positiveScore. rewrite Qgt_alt.
  by destruct (scored_score item ?= 0)%Q.
Qed.

Lemma uniqueLoop_head (x : Scored) (rest : list Scored) :
  exists tl, uniqueLoop (x :: rest) ∅ [] = x :: tl.
Proof.
  cbn [uniqueLoop]. rewrite bool_decide_eq_false_2 by apply not_elem_of_empty.
  cbn [app length Nat.leb].
  destruct (uniqueLoop_sublist rest ({[scored_fieldValue x]} ∪ ∅) [x]) as (extra & -> & _).
  by exists extra.
Qed.

(** The candidates in score order: what is in them, and that the first of
    them is the first suggestion. *)
Lemma ranked_candidates t f accounts :
  let ranked :=
    List.filter positiveScore (Js.sort byScore (map (scoreAccount t f) accounts)) in
  (forall item, In item ranked
     <-> exists a, In a accounts /\ item = scoreAccount t f a /\ (0 < scoreOf t f a)%Q)
  /\ StronglySorted (fun x y => (scored_score y <= scored_score x)%Q) ranked
  /\ (ranked = [] -> uniqueLoop ranked ∅ [] = [])
  /\ (forall x rest, ranked = x :: rest -> exists tl, uniqueLoop ranked ∅ [] = x :: tl).
Proof.
  intros ranked. split; [|split; [|split]].
  - intros item. unfold ranked. rewrite filter_In, positiveScore_spec. split.
    + intros [Hin Hpos]. eapply Permutation_in in Hin; [|apply sort_Permutation].
      apply in_map_iff in Hin as (a & <- & Ha). by exists a.
    + intros (a & Ha & -> & Hpos). split; [|done].
      eapply Permutation_in; [symmetry; apply sort_Permutation|].
      apply in_map_iff. by exists a.
  - eapply StronglySorted_sublist; [apply filter_sublist|].
    apply sort_byScore_Sorted, scored_onGrid.
  - by intros ->.
  - intros x rest ->. apply uniqueLoop_head.
Qed.

Lemma findClosestMatches_In :
  forall (searchTerm : string) (accounts : list Account) (field : Key.t) (a : Account),
    In a (findClosestMatches searchTerm accounts field) -> In a accounts.
Proof.
  intros t accounts f a. unfold findClosestMatches.
  destruct (Js.truthy t); cbn [negb]; [|done].
  destruct (ranked_candidates t f accounts) as (Hranked & _).
  destruct (uniqueLoop_sublist
              (List.filter positiveScore (Js.sort byScore (map (scoreAccount t f) accounts)))
              ∅ []) as (extra & -> & Hsub).
  cbn [app]. intros (item & <- & Hitem)%in_map_iff.
  apply list_elem_of_In in Hitem. eapply elem_of_sublist in Hitem; [|exact Hsub].
  apply list_elem_of_In, Hranked in Hitem as (a' & Ha' & -> & _).
  by rewrite scoreAccount_account.
Qed.

Lemma findClosestMatches_length t accounts f :
  (length (findClosestMatches t accounts f) <= 5)%nat.
Proof.
  unfold findClosestMatches. destruct (Js.truthy t); cbn [negb]; [|cbn; lia].
  rewrite length_map. apply uniqueLoop_length. cbn. lia.
Qed.

(** Every suggestion is one of the records searched. *)
Theorem suggestions_drawn_from_input :
  forall (searchTerm : string) (accounts : list Account) (field : Key.t) (a : Account),
    In a (findClosestMatches searchTerm accounts field) -> In a accounts.
Proof. exact findClosestMatches_In. Qed.

Lemma findClosestMatches_nil_iff :
  forall (searchTerm : string) (accounts : list Account) (field : Key.t),
    findClosestMatches searchTerm accounts field = []
    <-> searchTerm = EmptyString
        \/ forall a, In a accounts -> ~ (0 < scoreOf searchTerm field a)%Q.
Proof.
  intros t accounts f. unfold findClosestMatches.
  destruct t as [|c t]; [by split; [left|]|]. cbn [Js.truthy negb].
  destruct (ranked_candidates (String c t) f accounts) as (Hranked & _ & Hnil & Hcons).
  destruct (List.filter positiveScore _) as [|x rest] eqn:E.
  - rewrite (Hnil eq_refl). split; [|done]. intros _. right. intros a Ha Hpos.
    apply (proj2 (Hranked (scoreAccount (String c t) f a))). by exists a.
  - destruct (Hcons x rest eq_refl) as [tl ->]. split; [done|].
    intros [?|Hnone]; [done|]. exfalso.
    destruct (proj1 (Hranked x)) as (a & Ha & _ & Hpos); [by left|].
    by apply (Hnone a).
Qed.

(** There are no suggestions exactly when the term is empty or no record
    scores above zero, the score being the double the code computes. *)
Theorem no_suggestions_iff_no_positive_score :
  forall (searchTerm : string) (accounts : list Account) (field : Key.t),
    findClosestMatches searchTerm accounts field = []
    <-> searchTerm = EmptyString
        \/ forall a, In a accounts -> ~ (0 < scoreOf searchTerm field a)%Q.
Proof. exact findClosestMatches_nil_iff. Qed.

(** The first suggestion has the highest score of all the records. *)
Theorem first_suggestion_has_top_score :
  forall (searchTerm : string) (accounts : list Account) (field : Key.t)
         (top : Account) (others : list Account) (a : Account),
    findClosestMatches searchTerm accounts field = top :: others ->
    In a accounts ->
    (scoreOf searchTerm field a <= scoreOf searchTerm field top)%Q.
Proof.
  intros t accounts f top others a. unfold findClosestMatches.
  destruct (Js.truthy t); cbn [negb]; [|done].
  destruct (ranked_candidates t f accounts) as (Hranked & Hsorted & Hnil & Hcons).
  destruct (List.filter positiveScore _) as [|x rest] eqn:E.
  - by rewrite (Hnil eq_refl).
  - destruct (Hcons x rest eq_refl) as [tl ->]. cbn [map]. intros [= <- _] Ha.
    destruct (proj1 (Hranked x)) as (ax & _ & -> & Hpos); [by left|].
    rewrite scoreAccount_account. fold (scoreOf t f ax) in *.
    destruct (Qlt_le_dec 0 (scoreOf t f a)) as [Hpa|Hpa]; [|lra].
    assert (Hin : In (scoreAccount t f a) (scoreAccount t f ax :: rest))
      by (apply Hranked; by exists a).
    destruct Hin as [Heq|Hin].
    + unfold scoreOf. rewrite <- Heq. lra.
    + apply StronglySorted_inv in Hsorted as [_ Hall].
      rewrite List.Forall_forall in Hall. exact (Hall _ Hin).
Qed.

(** When some record's field value is the term up to letter case, there is
    at least one suggestion, and that record scores a thousand or more. *)
Theorem exact_match_gives_suggestions :
  forall (searchTerm : string) (accounts : list Account) (field : Key.t) (a : Account),
    searchTerm <> EmptyString ->
    In a accounts ->
    suggestionKey field a = Js.toLowerCase searchTerm ->
    (1000 <= scoreOf searchTerm field a)%Q
    /\ findClosestMatches searchTerm accounts field <> [].
Proof.
  intros t accounts f a Ht Ha Hkey.
  pose proof (scoreOf_exact t f a Hkey) as Hscore. split; [done|].
  intros Hnone. apply findClosestMatches_nil_iff in Hnone as [?|Hnone]; [done|].
  apply (Hnone a Ha). lra.
Qed.

(** The suggestions do not depend on the letter case of the term. *)
Theorem suggestions_ignore_term_case :
  forall (t t' : string) (accounts : list Account) (field : Key.t),
    Js.toLowerCase t = Js.toLowerCase t' ->
    findClosestMatches t accounts field = findClosestMatches t' accounts field.
Proof.
  intros t t' accounts f Hlow. unfold findClosestMatches.
  rewrite <- (toLowerCase_truthy t), <- (toLowerCase_truthy t'), Hlow.
  destruct (Js.truthy _); cbn [negb]; [|done].
  replace (scoreAccount t f) with (scoreAccount t' f); [done|].
  unfold scoreAccount. by rewrite Hlow.
Qed.

(** ** The suggestions object *)

Lemma Key_eqb_eq (a b : Key.t) : Key.eqb a b = true <-> a = b.
Proof. split; [by destruct a, b|intros ->; by destruct b]. Qed.

Lemma hasKey_In (m : list (Key.t * list Account)) (k : Key.t) :
  hasKey m k = true <-> In k (map fst m).
Proof.
  unfold hasKey. rewrite existsb_exists, in_map_iff. split.
  - intros (e & He & Hk%Key_eqb_eq). by exists e.
  - intros (e & Hk & He). exists e. split; [done|]. by apply Key_eqb_eq.
Qed.

Section SuggestionsObject.
Variable mockAccounts : list Account.

Lemma setKey_ok m k l : objectOk mockAccounts m -> entryOk mockAccounts (k, l) -> objectOk mockAccounts (setKey m k l).
Proof.
  intros [Hnd Hall] Hentry. unfold setKey. destruct (hasKey m k) eqn:Ek.
  - split.
    + replace (map fst (map _ m)) with (map fst m); [done|].
      clear. induction m as [|e m IH]; [done|]. cbn. rewrite <- IH. f_equal.
      destruct (Key.eqb e.1 k) eqn:E; [|done]. by apply Key_eqb_eq in E.
    + clear Hnd Ek. induction Hall as [|e m He _ IH]; cbn; constructor; [|done].
      by destruct (Key.eqb e.1 k).
  - split.
    + rewrite map_app. apply NoDup_app. split; [done|]. split; [|apply NoDup_singleton].
      intros k' Hk' Hnew. cbn in Hnew. apply list_elem_of_singleton in Hnew. subst k'.
      apply list_elem_of_In, hasKey_In in Hk'. congruence.
    + apply Forall_app. split; [done|]. by constructor.
Qed.

Lemma length_positive {A} (l : list A) : (0 <? length l)%nat = true -> l <> [].
Proof. by destruct l. Qed.

Lemma columnSuggestions_ok sf fields m :
  ~ In Key.dateAdded fields -> objectOk mockAccounts m ->
  objectOk mockAccounts (columnSuggestions mockAccounts sf fields m).
Proof.
  revert m. induction fields as [|k fields IH]; intros m Hno Hm; [done|].
  cbn [columnSuggestions].
  assert (Hno' : ~ In Key.dateAdded fields) by (intros ?; apply Hno; by right).
  destruct (nonBlank _); [|by apply IH].
  destruct (0 <? length _)%nat eqn:El; [|by apply IH].
  apply IH; [done|]. apply setKey_ok; [done|]. split; [|split].
  - cbn. intros ->. apply Hno. by left.
  - by apply length_positive.
  - by eexists.
Qed.

Lemma valueSuggestions_ok k vs m :
  k <> Key.dateAdded -> objectOk mockAccounts m -> objectOk mockAccounts (valueSuggestions mockAccounts k vs m).
Proof.
  intros Hk. revert m. induction vs as [|v vs IH]; intros m Hm; [done|].
  cbn [valueSuggestions].
  destruct (nonBlank v && negb (hasKey m k)); [|by apply IH].
  destruct (0 <? length _)%nat eqn:El; [|by apply IH].
  apply IH, setKey_ok; [done|]. split; [done|]. split; [by apply length_positive|].
  by eexists.
Qed.

Lemma advancedSuggestions_ok adv m :
  objectOk mockAccounts m -> objectOk mockAccounts (advancedSuggestions mockAccounts adv m).
Proof.
  revert m. induction adv as [|f adv IH]; intros m Hm; [done|].
  cbn [advancedSuggestions]. destruct (Key.eqb (field f) Key.dateAdded) eqn:E; [by apply IH|].
  apply IH, valueSuggestions_ok; [|done]. intros Hf. rewrite Hf in E. done.
Qed.

(** The advanced conditions only add entries for fields that have none. *)
Lemma valueSuggestions_keeps k vs m e :
  In e m -> In e (valueSuggestions mockAccounts k vs m).
Proof.
  revert m. induction vs as [|v vs IH]; intros m He; [done|].
  cbn [valueSuggestions].
  destruct (nonBlank v && negb (hasKey m k)) eqn:E; [|by apply IH].
  destruct (0 <? length _)%nat; [|by apply IH].
  apply IH. apply andb_true_iff in E as [_ Hnew%negb_true_iff].
  unfold setKey. rewrite Hnew. apply in_or_app. by left.
Qed.

Lemma advancedSuggestions_keeps adv m e :
  In e m -> In e (advancedSuggestions mockAccounts adv m).
Proof.
  revert m. induction adv as [|f adv IH]; intros m He; [done|].
  cbn [advancedSuggestions]. destruct (Key.eqb (field f) Key.dateAdded); [by apply IH|].
  by apply IH, valueSuggestions_keeps.
Qed.

Lemma setKey_fresh (m : list (Key.t * list Account)) k l :
  ~ In k (map fst m) -> setKey m k l = m ++ [(k, l)].
Proof.
  intros Hk. unfold setKey. destruct (hasKey m k) eqn:E; [|done].
  by apply hasKey_In in E.
Qed.

Lemma columnSuggestions_keeps sf fields m e :
  NoDup fields -> (forall k, In k fields -> ~ In k (map fst m)) ->
  In e m -> In e (columnSuggestions mockAccounts sf fields m).
Proof.
  intros Hnd. revert m. induction Hnd as [|k fields Hk Hnd IH]; intros m Hfresh He; [done|].
  assert (Hfresh' : forall k', In k' fields -> ~ In k' (map fst m))
    by (intros k' Hk'; apply Hfresh; by right).
  cbn [columnSuggestions]. destruct (nonBlank _); [|by apply IH].
  destruct (0 <? length _)%nat; [|by apply IH].
  rewrite setKey_fresh by (apply Hfresh; by left). apply IH.
  - intros k' Hk'. rewrite map_app. intros [Hm|[<-|[]]]%in_app_or.
    + by apply (Hfresh' k').
    + by apply Hk, list_elem_of_In.
  - apply in_or_app. by left.
Qed.

Lemma columnSuggestions_has sf fields m k :
  NoDup fields -> (forall k', In k' fields -> ~ In k' (map fst m)) ->
  In k fields ->
  nonBlank (searchValue sf k) = true ->
  findClosestMatches (searchValue sf k) mockAccounts k <> [] ->
  In (k, findClosestMatches (searchValue sf k) mockAccounts k)
     (columnSuggestions mockAccounts sf fields m).
Proof.
  intros Hnd. revert m.
  induction Hnd as [|k' fields Hk' Hnd IH]; intros m Hfresh Hk Hnb Hne; [done|].
  assert (Hfresh' : forall k0, In k0 fields -> ~ In k0 (map fst m))
    by (intros k0 Hk0; apply Hfresh; by right).
  assert (Happend : forall l k0, In k0 fields -> ~ In k0 (map fst (m ++ [(k', l)]))).
  { intros l k0 Hk0. rewrite map_app. intros [Hm|[<-|[]]]%in_app_or.
    - by apply (Hfresh' k0).
    - by apply Hk', list_elem_of_In. }
  cbn [columnSuggestions]. destruct Hk as [->|Hk].
  - rewrite Hnb. destruct (findClosestMatches _ _ _) as [|a l] eqn:El; [done|].
    cbn [length Nat.ltb Nat.leb]. rewrite setKey_fresh by (apply Hfresh; by left).
    apply columnSuggestions_keeps; [done|apply Happend|]. apply in_or_app. right. by left.
  - destruct (nonBlank (searchValue sf k')); [|by apply IH].
    destruct (0 <? length _)%nat; [|by apply IH].
    rewrite setKey_fresh by (apply Hfresh; by left). apply IH; auto.
Qed.
End SuggestionsObject.

Lemma SEARCHABLE_FIELDS_NoDup : NoDup SEARCHABLE_FIELDS.
Proof.
  unfold SEARCHABLE_FIELDS. repeat constructor; rewrite ?list_elem_of_In; cbn;
    intuition discriminate.
Qed.

(** When the page has suggestions to offer, no record was found; the
    object has at least one entry and no field twice; no entry is for the
    date field; and every entry holds between one and five records, all of
    them from the collection. *)
Theorem suggestions_object_shape :
  forall (mockAccounts filteredAccounts : list Account) (sf : SearchFilters)
         (adv : list AdvancedFilter) (m : list (Key.t * list Account)),
    suggestions mockAccounts filteredAccounts sf adv = Some m ->
    filteredAccounts = []
    /\ m <> []
    /\ NoDup (map fst m)
    /\ forall k l, In (k, l) m ->
         k <> Key.dateAdded
         /\ l <> [] /\ (length l <= 5)%nat
         /\ forall a, In a l -> In a mockAccounts.
Proof.
  intros mockAccounts filtered sf adv m. unfold suggestions.
  destruct filtered as [|a filtered]; [|done].
  change (0 <? length (@nil Account))%nat with false. cbv iota.
  destruct (negb (hasSearchTerm sf) && negb (hasAdvancedFilterTerm adv)); [done|].
  set (m0 := advancedSuggestions mockAccounts adv
               (columnSuggestions mockAccounts sf SEARCHABLE_FIELDS [])).
  destruct (0 <? length m0)%nat eqn:El; [|done]. intros [= <-].
  split; [done|]. split; [by apply length_positive|].
  assert (Hok : objectOk mockAccounts m0).
  { apply advancedSuggestions_ok, columnSuggestions_ok.
    - cbn. intuition discriminate.
    - split; constructor. }
  destruct Hok as [Hnd Hall]. split; [done|].
  intros k l Hin. rewrite List.Forall_forall in Hall.
  destruct (Hall _ Hin) as (Hk & Hl & term & Hterm). cbn [fst snd] in *.
  split; [done|]. split; [done|]. subst l.
  split; [apply findClosestMatches_length|]. intros a. apply findClosestMatches_In.
Qed.

(** A term typed in a search box decides the suggestions for its field:
    when it is not blank and has suggestions, the object holds exactly
    those for that field, whatever the advanced conditions say. *)
Theorem column_term_decides_suggestions :
  forall (mockAccounts : list Account) (sf : SearchFilters) (adv : list AdvancedFilter)
         (k : Key.t),
    In k SEARCHABLE_FIELDS ->
    nonBlank (searchValue sf k) = true ->
    findClosestMatches (searchValue sf k) mockAccounts k <> [] ->
    exists m,
      suggestions mockAccounts [] sf adv = Some m
      /\ forall l, In (k, l) m <-> l = findClosestMatches (searchValue sf k) mockAccounts k.
Proof.
  intros mockAccounts sf adv k Hk Hnb Hne. unfold suggestions.
  change (0 <? length (@nil Account))%nat with false. cbv iota.
  assert (Hterm : hasSearchTerm sf = true).
  { unfold hasSearchTerm. apply existsb_exists. by exists k. }
  rewrite Hterm. cbn [negb andb].
  set (m := advancedSuggestions mockAccounts adv
              (columnSuggestions mockAccounts sf SEARCHABLE_FIELDS [])).
  assert (Hin : In (k, findClosestMatches (searchValue sf k) mockAccounts k) m).
  { apply advancedSuggestions_keeps, columnSuggestions_has;
      [apply SEARCHABLE_FIELDS_NoDup|by intros k' _ []|done|done|done]. }
  assert (Hok : objectOk mockAccounts m).
  { apply advancedSuggestions_ok, columnSuggestions_ok.
    - cbn. intuition discriminate.
    - split; constructor. }
  destruct m as [|e m'] eqn:Em; [done|].
  exists (e :: m'). split; [done|]. intros l. split; [|by intros ->].
  intros Hl. destruct Hok as [Hnd _].
  apply list_elem_of_In, list_elem_of_lookup_1 in Hl as [i Hi].
  apply list_elem_of_In, list_elem_of_lookup_1 in Hin as [j Hj].
  assert (i = j).
  { apply (NoDup_lookup _ i j k Hnd); rewrite lookup_map.
    - by rewrite Hi.
    - by rewrite Hj. }
  subst j. congruence.
Qed.

(** ** The filter panel *)

Lemma uniqueIds_same (filters : list AdvancedFilter) (f g : AdvancedFilter) :
  uniqueIds filters -> In f filters -> In g filters -> filterId g = filterId f -> g = f.
Proof.
  unfold uniqueIds. induction filters as [|x filters IH]; [done|]. cbn [map].
  intros [Hx Hnd]%NoDup_cons [<-|Hf] [<-|Hg] Hid; try done.
  - exfalso. apply Hx. rewrite <- Hid. apply list_elem_of_In, in_map. done.
  - exfalso. apply Hx. rewrite Hid. apply list_elem_of_In, in_map. done.
  - by apply IH.
Qed.

Lemma updated_rows_Forall (P : AdvancedFilter -> Prop) (id : string)
    (updates : AdvancedFilter -> AdvancedFilter) (filters : list AdvancedFilter) :
  Forall P filters ->
  (forall g, In g filters -> filterId g = id -> P (updates g)) ->
  Forall P (map (fun f => if String.eqb (filterId f) id then updates f else f) filters).
Proof.
  intros Hall Hupd. induction Hall as [|f filters Hf _ IH]; cbn [map]; constructor.
  - destruct (String.eqb_spec (filterId f) id); [|done]. apply Hupd; [by left|done].
  - apply IH. intros g Hg. apply Hupd. by right.
Qed.

Lemma found_row (filters : list AdvancedFilter) (id : string) (filter : AdvancedFilter) :
  List.find (fun f => String.eqb (filterId f) id) filters = Some filter ->
  In filter filters /\ filterId filter = id.
Proof. intros [Hin Hid%String.eqb_eq]%find_some. done. Qed.

(** On the primary page, adding a value keeps every stored value checked:
    if the rows have distinct identifiers and every value they hold passes
    [validateSearchInput] for its row's field, is a decimal number on a
    balance row and digits only (formatting aside) on a phone row, the same
    is true after [addValueToFilter]. *)
Theorem added_values_stay_valid :
  forall (st : PageState) (id : string),
    uniqueIds (advancedFilters st) ->
    Forall storedValuesValid (advancedFilters st) ->
    Forall storedValuesValid (advancedFilters (Primary.addValueToFilter st id)).
Proof.
  intros st id Hids Hall. unfold Primary.addValueToFilter.
  destruct (List.find _ _) as [filter|] eqn:Efind; [|done].
  apply found_row in Efind as [Hin Hid].
  destruct (Js.truthy _); [|done].
  set (value := Js.trim (inputValue filter)).
  destruct (Key.eqb (field filter) Key.balance && negb (balancePattern value)) eqn:Eb;
    [done|].
  destruct (Key.eqb (field filter) Key.phoneNumber
            && negb (digitsPattern (Js.removeAll isPhoneFormatting value))) eqn:Ep; [done|].
  destruct (valid (validateSearchInput (field filter) value)) eqn:Ev; [|done].
  cbn [negb]. unfold Primary.updateAdvancedFilter. cbn [advancedFilters setAdvancedFilters].
  apply updated_rows_Forall; [done|]. intros g Hg Hgid.
  assert (g = filter) as -> by (apply (uniqueIds_same _ _ _ Hids Hin Hg); congruence).
  rewrite List.Forall_forall in Hall. specialize (Hall _ Hin).
  intros v. cbn [withValues values field]. intros [Hv|[<-|[]]]%in_app_or; [by apply Hall|].
  split; [done|]. split.
  - intros Hf. rewrite Hf in Eb. cbn in Eb. apply negb_false_iff in Eb.
    by apply balancePattern_decimalNumber.
  - intros Hf. rewrite Hf in Ep. cbn in Ep. by apply negb_false_iff in Ep.
Qed.

Lemma firstInvalidValue_valid k vs :
  (forall v, In v vs -> valid (validateSearchInput k v) = true) ->
  PrimarySearch.firstInvalidValue k vs = None.
Proof.
  induction vs as [|v vs IH]; intros Hall; [done|]. cbn [PrimarySearch.firstInvalidValue].
  rewrite (Hall v) by (by left). cbn [negb]. apply IH. intros w Hw. apply Hall. by right.
Qed.

Lemma rangeOrdered_not_reversed f :
  rangeOrdered f ->
  Js.truthy (orEmpty (startDate f))
  && (Js.truthy (orEmpty (endDate f))
      && Js.str_gt (orEmpty (startDate f)) (orEmpty (endDate f))) = false.
Proof.
  unfold rangeOrdered. rewrite !dateBound_truthy, !dateBound_orEmpty.
  destruct (dateBound (startDate f)), (dateBound (endDate f)); try done.
  unfold Js.str_le, Js.str_gt. cbn [andb]. by destruct (Js.str_lt _ _).
Qed.

Lemma firstInvalidFilter_checked fs :
  Forall storedValuesValid fs -> Forall rangeOrdered fs ->
  PrimarySearch.firstInvalidFilter fs = None.
Proof.
  intros Hvalid Hrange. induction Hvalid as [|f fs Hf _ IH]; [done|].
  apply Forall_cons in Hrange as [Hr Hrange]. cbn [PrimarySearch.firstInvalidFilter].
  rewrite <- !andb_assoc. rewrite (rangeOrdered_not_reversed f Hr), andb_false_r.
  rewrite firstInvalidValue_valid; [by apply IH|]. intros v Hv. by apply Hf.
Qed.

(** Rows whose values are checked and whose date ranges are in order never
    stop "Apply Filters": the advanced conditions are always put into
    effect and the panel closed, and the only error that can remain is the
    one [handleSearch] gives for the search boxes, in which case the
    executed search boxes stay as they were. *)
Theorem apply_filters_accepts_checked_rows :
  forall (show : bool) (fs : list AdvancedFilter) (p : SearchPanel),
    Forall storedValuesValid fs ->
    Forall rangeOrdered fs ->
    let p' := PrimarySearch.handleApplyFilters show fs p in
    executedAdvancedFilters p' = (if show then fs else [])
    /\ showFilterPanel p' = false
    /\ validationError p'
       = PrimarySearch.firstInvalidField (searchFilters p)
           [Key.accountNumber; Key.phoneNumber; Key.email]
    /\ (validationError p' <> None ->
        executedSearchFilters p' = executedSearchFilters p)
    /\ (validationError p' = None ->
        executedSearchFilters p' = searchFilters p /\ executedSortBy p' = sortBy p).
Proof.
  intros show fs p Hvalid Hrange p'. subst p'. unfold PrimarySearch.handleApplyFilters.
  replace (if show then PrimarySearch.firstInvalidFilter fs else None)
    with (@None string)
    by (destruct show; [symmetry; by apply firstInvalidFilter_checked|done]).
  unfold PrimarySearch.handleSearch. cbn [searchFilters].
  destruct (PrimarySearch.firstInvalidField _ _); cbn; repeat split; try done.
Qed.

(** [handleSearch] runs the search exactly when the account-number box
    holds no letter and the phone box, formatting removed, holds no
    letter: then the boxes and the sort key are put into effect and the
    error cleared.  Otherwise nothing is put into effect and the error
    names the first box at fault.  The e-mail box never stops a search. *)
Theorem handleSearch_runs_iff_no_letters :
  forall p : SearchPanel,
    let account := searchAccountNumber (searchFilters p) in
    let phone := Js.removeAll isPhoneFormatting (searchPhoneNumber (searchFilters p)) in
    let p' := PrimarySearch.handleSearch p in
    (Js.testAny Js.isLetter account = false -> Js.testAny Js.isLetter phone = false ->
       validationError p' = None
       /\ executedSearchFilters p' = searchFilters p
       /\ executedSortBy p' = sortBy p)
    /\ (Js.testAny Js.isLetter account = true ->
          validationError p' = Some "Account number cannot contain letters"
          /\ executedSearchFilters p' = executedSearchFilters p
          /\ executedSortBy p' = executedSortBy p)
    /\ (Js.testAny Js.isLetter account = false -> Js.testAny Js.isLetter phone = true ->
          validationError p' = Some "Phone number cannot contain letters"
          /\ executedSearchFilters p' = executedSearchFilters p
          /\ executedSortBy p' = executedSortBy p).
Proof.
  intros p account phone p'. subst account phone p'.
  unfold PrimarySearch.handleSearch, PrimarySearch.firstInvalidField, validateSearchInput.
  cbn [searchValue].
  destruct (searchAccountNumber (searchFilters p)) as [|c a] eqn:Ea;
    destruct (searchPhoneNumber (searchFilters p)) as [|d b] eqn:Eb;
    destruct (searchEmail (searchFilters p)) as [|e m] eqn:Ee;
    cbn [Js.truthy negb];
    try destruct (Js.testAny Js.isLetter (String c a)) eqn:E1;
    try destruct (Js.testAny Js.isLetter (Js.removeAll isPhoneFormatting (String d b))) eqn:E2;
    cbn; repeat split; intros; try done; try congruence.
Qed.

(** Changing a date bound keeps every range in order: with distinct row
    identifiers, if no row has its start after its end before the start or
    the end date of a row is changed, none has after; and a date later
    than today is never stored. *)
Theorem date_inputs_keep_ranges_ordered :
  forall (today : string) (st : PageState) (filter : AdvancedFilter) (d : string),
    uniqueIds (advancedFilters st) ->
    In filter (advancedFilters st) ->
    Forall rangeOrdered (advancedFilters st) ->
    Forall rangeOrdered
      (advancedFilters (PrimaryPanel.onStartDateChange today st filter d))
    /\ Forall rangeOrdered
         (advancedFilters (PrimaryPanel.onEndDateChange today st filter d))
    /\ (Js.str_gt d today = true ->
        advancedFilters (PrimaryPanel.onStartDateChange today st filter d)
          = advancedFilters st
        /\ advancedFilters (PrimaryPanel.onEndDateChange today st filter d)
          = advancedFilters st).
Proof.
  intros today st filter d Hids Hin Hall.
  assert (Hsame : forall g, In g (advancedFilters st) ->
                    filterId g = filterId filter -> g = filter)
    by (intros g Hg Hid; by apply (uniqueIds_same _ _ _ Hids Hin Hg)).
  unfold PrimaryPanel.onStartDateChange, PrimaryPanel.onEndDateChange.
  destruct (Js.str_gt d today); [done|].
  split; [|split; [|done]].
  - destruct (Js.truthy (orEmpty (endDate filter))
              && Js.str_gt d (orEmpty (endDate filter))) eqn:E; [done|].
    unfold Primary.updateAdvancedFilter. cbn [advancedFilters setAdvancedFilters].
    apply updated_rows_Forall; [done|]. intros g Hg Hid. rewrite (Hsame g Hg Hid).
    unfold rangeOrdered. cbn [setStartDate startDate endDate].
    rewrite dateBound_truthy, dateBound_orEmpty in E.
    destruct d as [|c d]; [done|]. cbn [dateBound].
    destruct (dateBound (endDate filter)); [|done]. cbn [andb] in E.
    unfold Js.str_le, Js.str_gt in *. by rewrite E.
  - destruct (Js.truthy (orEmpty (startDate filter))
              && Js.str_lt d (orEmpty (startDate filter))) eqn:E; [done|].
    unfold Primary.updateAdvancedFilter. cbn [advancedFilters setAdvancedFilters].
    apply updated_rows_Forall; [done|]. intros g Hg Hid. rewrite (Hsame g Hg Hid).
    unfold rangeOrdered. cbn [setEndDate startDate endDate].
    rewrite dateBound_truthy, dateBound_orEmpty in E.
    destruct (dateBound (startDate filter)); [|done]. cbn [andb] in E.
    destruct d as [|c d]; [done|]. cbn [dateBound].
    unfold Js.str_le. by rewrite E.
Qed.

Lemma removelast_snoc {A} (l : list A) (x : A) : removelast (l ++ [x]) = l.
Proof. apply removelast_last. Qed.

Lemma last_snoc_inv {A} (l : list A) (x : A) :
  last l = Some x -> exists l', l = l' ++ [x].
Proof.
  intros Hl. destruct l as [|y l] using rev_ind; [done|].
  rewrite last_snoc in Hl. injection Hl as ->. by exists l.
Qed.

(** [addAdvancedFilter] keeps the rows there are and appends at most one,
    the default row: it appends it when there is no row or the last row
    has an operand or a date bound, and appends none when the last row
    has neither.  So it never leaves an empty row behind it: if every row
    but the last has an operand or a date bound, the same holds
    afterwards. *)
Theorem new_row_only_after_a_filled_one :
  forall (now : string) (st : PageState),
    let after := advancedFilters (PrimaryPanel.addAdvancedFilter now st) in
    (after = advancedFilters st \/ after = advancedFilters st ++ [newFilter now])
    /\ (forall lastRow, last (advancedFilters st) = Some lastRow ->
        PrimaryPanel.countsAsActive lastRow = false ->
        after = advancedFilters st)
    /\ (forall lastRow, last (advancedFilters st) = Some lastRow ->
        PrimaryPanel.countsAsActive lastRow = true ->
        after = advancedFilters st ++ [newFilter now])
    /\ (advancedFilters st = [] -> after = [newFilter now])
    /\ (allButLastActive (advancedFilters st) -> allButLastActive after).
Proof.
  intros now st after.
  assert (Hlast : forall lastRow, last (advancedFilters st) = Some lastRow ->
            after = if PrimaryPanel.countsAsActive lastRow
                    then advancedFilters st ++ [newFilter now]
                    else advancedFilters st).
  { intros lastRow El. unfold after, PrimaryPanel.addAdvancedFilter, PrimaryPanel.countsAsActive.
    rewrite El. destruct (Key.eqb (field lastRow) Key.dateAdded).
    - by destruct (Js.truthy (orEmpty (startDate lastRow))),
                  (Js.truthy (orEmpty (endDate lastRow))).
    - by destruct (values lastRow). }
  assert (Hnone : advancedFilters st = [] -> after = [newFilter now]).
  { intros E. unfold after, PrimaryPanel.addAdvancedFilter. by rewrite E. }
  split; [|split; [|split; [|split]]].
  - destruct (last (advancedFilters st)) as [lastRow|] eqn:El.
    + rewrite (Hlast lastRow eq_refl). destruct (PrimaryPanel.countsAsActive lastRow); auto.
    + right. apply last_None in El. rewrite (Hnone El). by rewrite El.
  - intros lastRow El Hact. by rewrite (Hlast lastRow El), Hact.
  - intros lastRow El Hact. by rewrite (Hlast lastRow El), Hact.
  - exact Hnone.
  - intros Hinv. destruct (last (advancedFilters st)) as [lastRow|] eqn:El.
    + rewrite (Hlast lastRow eq_refl).
      destruct (PrimaryPanel.countsAsActive lastRow) eqn:Hact; [|done].
      unfold allButLastActive in *. rewrite removelast_snoc.
      destruct (last_snoc_inv _ _ El) as [l' Hl']. rewrite Hl' in *.
      rewrite removelast_snoc in Hinv. apply Forall_app. split; [done|]. by constructor.
    + apply last_None in El. rewrite (Hnone El). by constructor.
Qed.

Lemma two_ids_differ (filters : list AdvancedFilter) (id : string) :
  uniqueIds filters -> (1 < length filters)%nat ->
  exists f, In f filters /\ filterId f <> id.
Proof.
  destruct filters as [|a [|b filters]]; cbn [length]; try lia.
  unfold uniqueIds. cbn [map]. intros [Ha _]%NoDup_cons _.
  destruct (String.eqb_spec (filterId a) id) as [Ea|Ea].
  - exists b. split; [right; by left|]. intros Eb. apply Ha.
    rewrite Ea, <- Eb. by left.
  - exists a. split; [by left|done].
Qed.

(** With distinct row identifiers, [removeAdvancedFilter] never removes
    the last row left: a panel that has a row still has one afterwards.
    The rows that remain are rows that were there, every row with another
    identifier remains, and the identifiers stay distinct. *)
Theorem remove_row_keeps_one :
  forall (st : PageState) (id : string),
    uniqueIds (advancedFilters st) ->
    advancedFilters st <> [] ->
    let after := advancedFilters (PrimaryPanel.removeAdvancedFilter st id) in
    after <> []
    /\ uniqueIds after
    /\ (forall f, In f after -> In f (advancedFilters st))
    /\ (forall f, In f (advancedFilters st) -> filterId f <> id -> In f after).
Proof.
  intros st id Hids Hne after. subst after. unfold PrimaryPanel.removeAdvancedFilter.
  destruct (1 <? length (advancedFilters st))%nat eqn:El; [|by repeat split].
  cbn [advancedFilters setAdvancedFilters]. apply Nat.ltb_lt in El.
  assert (Hkeep : forall f, In f (advancedFilters st) -> filterId f <> id ->
            In f (List.filter (fun f => negb (String.eqb (filterId f) id))
                    (advancedFilters st))).
  { intros f Hf Hid. apply filter_In. split; [done|]. apply negb_true_iff.
    by apply String.eqb_neq. }
  split; [|split; [|split]].
  - destruct (two_ids_differ _ id Hids El) as (f & Hf & Hid).
    intros Hnil. specialize (Hkeep f Hf Hid). by rewrite Hnil in Hkeep.
  - unfold uniqueIds in *. clear -Hids. induction (advancedFilters st) as [|f fs IH]; [done|].
    cbn [map] in Hids. apply NoDup_cons in Hids as [Hf Hnd]. cbn [List.filter].
    destruct (negb _); [|by apply IH]. cbn [map]. apply NoDup_cons. split; [|by apply IH].
    intros Hin. apply Hf. apply list_elem_of_In in Hin. apply list_elem_of_In.
    apply in_map_iff in Hin as (g & <- & Hg%filter_In). apply in_map. tauto.
  - intros f Hf%filter_In. tauto.
  - done.
Qed.

Lemma delete_last_index {A} (l : list A) (x : A) : delete (length l) (l ++ [x]) = l.
Proof. induction l as [|y l IH]; [done|]. simpl. f_equal. exact IH. Qed.

(** Adding a value on the secondary page and removing it again gives every
    row back the values it had, when the rows have distinct identifiers. *)
Theorem add_then_remove_value :
  forall (st : PageState) (id : string) (filter : AdvancedFilter),
    uniqueIds (advancedFilters st) ->
    List.find (fun f => String.eqb (filterId f) id) (advancedFilters st) = Some filter ->
    Js.trim (inputValue filter) <> EmptyString ->
    let added := SecondaryPanel.addValueToFilter st id in
    let removed := PrimaryPanel.removeValueFromFilter added id (length (values filter)) in
    (exists row, In row (advancedFilters added)
       /\ filterId row = id
       /\ values row = values filter ++ [Js.trim (inputValue filter)])
    /\ map values (advancedFilters removed) = map values (advancedFilters st)
    /\ map filterId (advancedFilters removed) = map filterId (advancedFilters st).
Proof.
  intros st id filter Hids Hfind Hne added removed.
  pose proof (found_row _ _ _ Hfind) as [Hin Hid].
  assert (Hadded : advancedFilters added
            = map (fun f => if String.eqb (filterId f) id
                            then withValues (values filter ++ [Js.trim (inputValue filter)])
                                   EmptyString f
                            else f) (advancedFilters st)).
  { unfold added, SecondaryPanel.addValueToFilter. rewrite Hfind.
    destruct (Js.trim (inputValue filter)); [done|]. done. }
  set (row := withValues (values filter ++ [Js.trim (inputValue filter)]) EmptyString filter).
  assert (Hrow : In row (advancedFilters added)).
  { rewrite Hadded. apply in_map_iff. exists filter. split; [|done].
    by rewrite Hid, String.eqb_refl. }
  assert (Hfind' : List.find (fun f => String.eqb (filterId f) id) (advancedFilters added)
                   = Some row).
  { rewrite Hadded. clear -Hfind. induction (advancedFilters st) as [|f fs IH]; [done|].
    cbn [List.find map] in *. destruct (String.eqb (filterId f) id) eqn:E.
    - injection Hfind as ->. cbn [withValues filterId]. by rewrite E.
    - rewrite E. by apply IH. }
  split; [exists row; by rewrite <- Hid|].
  unfold removed, PrimaryPanel.removeValueFromFilter. rewrite Hfind'.
  unfold Primary.updateAdvancedFilter. cbn [advancedFilters setAdvancedFilters].
  cbn [row withValues values]. rewrite delete_last_index, Hadded. split.
  - rewrite !map_map. apply map_ext_in. intros g Hg.
    destruct (String.eqb (filterId g) id) eqn:E;
      cbn [withValues filterId]; rewrite E; [|done].
    cbn [setValues values]. f_equal. symmetry.
    apply (uniqueIds_same _ _ _ Hids Hin Hg). apply String.eqb_eq in E. congruence.
  - rewrite !map_map. apply map_ext. intros f.
    destruct (String.eqb (filterId f) id) eqn:E; cbn [withValues filterId]; rewrite ?E; done.
Qed.

(** Ticking a status box flips that status and no other: afterwards the
    status is selected exactly if it was not, every other status is
    selected exactly if it was; ticking twice gives back the same
    selection. *)
Theorem toggle_status_flips_one :
  forall (sf : SearchFilters) (s x : string),
    let once := PrimaryView.toggleStatusFilter sf s in
    let twice := PrimaryView.toggleStatusFilter once s in
    (In s (searchStatus once) <-> ~ In s (searchStatus sf))
    /\ (x <> s -> (In x (searchStatus once) <-> In x (searchStatus sf)))
    /\ (In x (searchStatus twice) <-> In x (searchStatus sf))
    /\ (forall field, searchValue once field = searchValue sf field
                      /\ caseFlag once field = caseFlag sf field).
Proof.
  intros sf s x once twice.
  assert (Hone : forall sf0 y,
            In y (searchStatus (PrimaryView.toggleStatusFilter sf0 s))
            <-> (y = s /\ ~ In s (searchStatus sf0))
                \/ (y <> s /\ In y (searchStatus sf0))).
  { intros sf0 y. unfold PrimaryView.toggleStatusFilter. cbn [searchStatus].
    destruct (statusIncludes (searchStatus sf0) s) eqn:E.
    - apply statusIncludes_In in E. rewrite filter_In, negb_true_iff, String.eqb_neq.
      intuition congruence.
    - assert (~ In s (searchStatus sf0)) by (rewrite <- statusIncludes_In; congruence).
      rewrite in_app_iff. cbn [In].
      destruct (String.eqb_spec y s); intuition congruence. }
  split; [|split; [|split]].
  - unfold once. rewrite Hone. intuition congruence.
  - intros Hx. unfold once. rewrite Hone. intuition congruence.
  - unfold twice. rewrite Hone. unfold once. rewrite !Hone.
    destruct (String.eqb_spec x s) as [->|]; [|intuition congruence].
    destruct (in_dec string_dec s (searchStatus sf)); intuition congruence.
  - intros field. by destruct field.
Qed.

Lemma firstOperator_offered (k : Key.t) :
  In (firstOperator (getOperatorsForField k)) (getOperatorsForField k).
Proof. destruct k; cbn; by left. Qed.

Lemma operatorEqb_eq (a b : FilterOperator) : operatorEqb a b = true <-> a = b.
Proof. split; [by destruct a, b|intros ->; by destruct b]. Qed.

Section PanelAndEvaluation.
Context `{Host}.

(** The operator of a row always stays one of those offered for its field:
    with distinct row identifiers, if that holds of every row, it holds
    after the field or the operator of a row is changed.  Right after a
    change of field the row has the new field, no operand, an empty input
    and no date bound, and matches every record. *)
Theorem operator_stays_offered :
  forall (st : PageState) (filter : AdvancedFilter) (newField : Key.t)
         (newOperator : FilterOperator),
    uniqueIds (advancedFilters st) ->
    In filter (advancedFilters st) ->
    Forall operatorOffered (advancedFilters st) ->
    Forall operatorOffered
      (advancedFilters (PrimaryPanel.onFieldChange st filter newField))
    /\ Forall operatorOffered
         (advancedFilters (PrimaryPanel.onOperatorChange st filter newOperator))
    /\ (forall row account,
          In row (advancedFilters (PrimaryPanel.onFieldChange st filter newField)) ->
          filterId row = filterId filter ->
          field row = newField
          /\ values row = []
          /\ inputValue row = EmptyString
          /\ orEmpty (startDate row) = EmptyString
          /\ orEmpty (endDate row) = EmptyString
          /\ Primary.evaluateFilter account row = true).
Proof.
  intros st filter newField newOperator Hids Hin Hall.
  assert (Hsame : forall g, In g (advancedFilters st) ->
                    filterId g = filterId filter -> g = filter)
    by (intros g Hg Hid; by apply (uniqueIds_same _ _ _ Hids Hin Hg)).
  split; [|split].
  - unfold PrimaryPanel.onFieldChange, Primary.updateAdvancedFilter.
    cbn [advancedFilters setAdvancedFilters]. apply updated_rows_Forall; [done|].
    intros g _ _. unfold operatorOffered. cbn [resetToField operator field].
    apply firstOperator_offered.
  - unfold PrimaryPanel.onOperatorChange.
    destruct (existsb (operatorEqb newOperator) _) eqn:E;
      unfold Primary.updateAdvancedFilter; cbn [advancedFilters setAdvancedFilters];
      apply updated_rows_Forall; try done; intros g Hg Hid; rewrite (Hsame g Hg Hid);
      unfold operatorOffered; cbn [setOperator operator field].
    + apply existsb_exists in E as (op & Hop & ->%operatorEqb_eq). done.
    + apply firstOperator_offered.
  - intros row account. unfold PrimaryPanel.onFieldChange, Primary.updateAdvancedFilter.
    cbn [advancedFilters setAdvancedFilters].
    intros (g & <- & Hg)%in_map_iff.
    destruct (String.eqb_spec (filterId g) (filterId filter)) as [E|E]; [|done].
    intros _. do 5 (split; [done|]). unfold Primary.evaluateFilter.
    cbn [resetToField field values startDate endDate orEmpty Js.truthy length Nat.eqb].
    by destruct (Key.eqb newField Key.dateAdded).
Qed.

(** A row whose operator is offered for its field never reaches the
    fall-back of [evaluateFilter] that matches everything: with a field
    other than the date and at least one operand, it is decided by its
    operands, all of them for does-not-contain and some of them otherwise. *)
Theorem offered_operator_is_decided_by_operands :
  forall (account : Account) (f : AdvancedFilter),
    operatorOffered f ->
    field f <> Key.dateAdded ->
    values f <> [] ->
    (operator f = OpDoesNotContain
     /\ Primary.evaluateFilter account f
        = forallb (fun v => negb (containsIgnoringCase (get account (field f)) v))
            (values f))
    \/ (exists test,
          operandTest (operator f) = Some test
          /\ Primary.evaluateFilter account f
             = existsb (test (get account (field f))) (values f)).
Proof.
  intros account f Hop Hf Hv. rewrite Primary_evaluateFilter_operator by done.
  unfold operatorOffered in Hop.
  destruct (field f); try done; cbn in Hop;
    repeat (destruct Hop as [<-|Hop]; [first [by left | right; eexists; by split]|]);
    done.
Qed.

Lemma advancedResult_all_match (matches : Account -> AdvancedFilter -> bool) account fs :
  (forall f, In f fs -> matches account f = true) ->
  advancedResult matches account fs = true.
Proof.
  destruct fs as [|x fs]; [done|]. intros Hall. rewrite advancedResult_cons.
  rewrite (Hall x) by (by left).
  assert (Hrest : forall f, In f fs -> matches account f = true)
    by (intros f Hf; apply Hall; by right).
  clear Hall. induction fs as [|f fs IH]; [done|]. cbn [fold_left].
  unfold chainStep at 2. rewrite (Hrest f) by (by left).
  replace (match logic f with And => true && true | Or => true || true end) with true
    by (by destruct (logic f)).
  apply IH. intros g Hg. apply Hrest. by right.
Qed.

Lemma fold_count (count0 : nat) (fs : list AdvancedFilter) :
  fold_left (fun count filter =>
               if PrimaryPanel.countsAsActive filter then S count else count) fs count0
  = (count0 + length (List.filter PrimaryPanel.countsAsActive fs))%nat.
Proof.
  revert count0. induction fs as [|f fs IH]; intros count0; cbn [fold_left List.filter].
  - cbn. lia.
  - rewrite IH. destruct (PrimaryPanel.countsAsActive f); cbn [length]; lia.
Qed.

Lemma firstInvalidValue_dateAdded (filterValues : list string) :
  PrimarySearch.firstInvalidValue Key.dateAdded filterValues = None.
Proof.
  induction filterValues as [|v vs IH]; [done|]. cbn [PrimarySearch.firstInvalidValue].
  unfold validateSearchInput. by destruct (negb (Js.truthy v)).
Qed.

Lemma firstInvalidFilter_inactive (fs : list AdvancedFilter) :
  List.filter PrimaryPanel.countsAsActive fs = [] ->
  PrimarySearch.firstInvalidFilter fs = None.
Proof.
  induction fs as [|f fs IH]; [done|]. cbn [List.filter PrimarySearch.firstInvalidFilter].
  destruct (PrimaryPanel.countsAsActive f) eqn:E; [done|]. intros Hrest.
  unfold PrimaryPanel.countsAsActive in E.
  destruct (Key.eqb (field f) Key.dateAdded) eqn:Ek.
  - apply orb_false_iff in E as [-> _]. cbn [andb].
    apply Key_eqb_eq in Ek. rewrite Ek, firstInvalidValue_dateAdded. by apply IH.
  - cbn [andb]. destruct (values f); [|done]. cbn [PrimarySearch.firstInvalidValue].
    by apply IH.
Qed.

(** The number on the "Apply Filters" button counts the sort and status
    boxes that are on and, when the advanced conditions are shown, the
    rows that have an operand or a date bound.  A row without either
    matches every record.  Whenever the rows add nothing to the number,
    because they are not shown or because none has an operand or a bound,
    "Apply Filters" puts into effect advanced conditions that exclude no
    record. *)
Theorem uncounted_conditions_exclude_nothing :
  forall (enabledSortBy enabledStatus : bool) (sf : SearchFilters) (show : bool)
         (fs : list AdvancedFilter),
    PrimaryPanel.activeFilterCount enabledSortBy enabledStatus sf show fs
    = ((if enabledSortBy then 1 else 0)
       + (if enabledStatus && (0 <? length (searchStatus sf))%nat then 1 else 0)
       + (if show then length (List.filter PrimaryPanel.countsAsActive fs) else 0))%nat
    /\ (forall f account,
          PrimaryPanel.countsAsActive f = false ->
          Primary.evaluateFilter account f = true)
    /\ (forall (p : SearchPanel) (account : Account),
          PrimaryPanel.activeFilterCount enabledSortBy enabledStatus sf show fs
          = PrimaryPanel.activeFilterCount enabledSortBy enabledStatus sf show [] ->
          executedAdvancedFilters (PrimarySearch.handleApplyFilters show fs p)
          = (if show then fs else [])
          /\ passesAdvancedFilters Primary.evaluateFilter account
               (executedAdvancedFilters (PrimarySearch.handleApplyFilters show fs p))
             = true).
Proof.
  intros enabledSortBy enabledStatus sf show fs.
  assert (Hinert : forall f account,
            PrimaryPanel.countsAsActive f = false ->
            Primary.evaluateFilter account f = true).
  { intros f account. unfold PrimaryPanel.countsAsActive, Primary.evaluateFilter.
    destruct (Key.eqb (field f) Key.dateAdded).
    - intros [-> ->]%orb_false_iff. done.
    - destruct (values f); [done|]. done. }
  assert (Hcount : forall rows,
            PrimaryPanel.activeFilterCount enabledSortBy enabledStatus sf show rows
            = ((if enabledSortBy then 1 else 0)
               + (if enabledStatus && (0 <? length (searchStatus sf))%nat then 1 else 0)
               + (if show then length (List.filter PrimaryPanel.countsAsActive rows) else 0))%nat).
  { intros rows. unfold PrimaryPanel.activeFilterCount. destruct show; [rewrite fold_count|];
      destruct enabledSortBy, (enabledStatus && _); lia. }
  split; [apply Hcount|]. split; [done|].
  intros p account. rewrite !Hcount. cbn [List.filter length]. intros Hsame.
  assert (Hnone : show = true -> List.filter PrimaryPanel.countsAsActive fs = []).
  { intros ->. apply length_zero_iff_nil. lia. }
  assert (Hexec : executedAdvancedFilters (PrimarySearch.handleApplyFilters show fs p)
                  = if show then fs else []).
  { unfold PrimarySearch.handleApplyFilters, PrimarySearch.handleSearch.
    destruct show.
    - rewrite (firstInvalidFilter_inactive fs (Hnone eq_refl)).
      by destruct (PrimarySearch.firstInvalidField _ _).
    - by destruct (PrimarySearch.firstInvalidField _ _). }
  split; [exact Hexec|]. rewrite Hexec. destruct show; [|done].
  unfold passesAdvancedFilters.
  destruct (0 <? length fs)%nat; [|done]. apply advancedResult_all_match.
  intros f Hf. apply Hinert.
  destruct (PrimaryPanel.countsAsActive f) eqn:E; [|done].
  assert (Hin : In f (List.filter PrimaryPanel.countsAsActive fs)) by (by apply filter_In).
  by rewrite (Hnone eq_refl) in Hin.
Qed.

End PanelAndEvaluation.

(** ** The validator and the page's own patterns *)

Lemma digit_is_no_letter (c : ascii) : Js.isDigit c = true -> Js.isLetter c = false.
Proof.
  unfold Js.isDigit, Js.isLetter, Js.inRange.
  intros [_ Hhi%N.leb_le]%andb_true_iff.
  apply orb_false_iff. split; apply andb_false_iff; left; apply N.leb_gt; lia.
Qed.

Lemma allDigits_no_letter (s : string) : allDigits s -> Js.testAny Js.isLetter s = false.
Proof.
  induction s as [|c s IH]; [done|]. intros [Hc Hs]%allDigits_String.
  cbn [Js.testAny]. by rewrite (digit_is_no_letter c Hc), IH.
Qed.

Lemma digitsPattern_allDigits (s : string) : digitsPattern s = true -> allDigits s.
Proof.
  unfold digitsPattern. destruct (digitRun s) as [[|c r]|] eqn:E; try done. intros _.
  apply digitRun_Some in E as (d & _ & Hd & ->). by rewrite append_empty_r.
Qed.

(** What the page's digit patterns accept, the validator accepts: a phone
    value that is digits only once its formatting is removed is a valid
    phone search, and a value of digits only is a valid account number. *)
Theorem digits_pass_the_validator :
  forall v : string,
    (digitsPattern (Js.removeAll isPhoneFormatting v) = true ->
     validateSearchInput Key.phoneNumber v = ok)
    /\ (allDigits v -> validateSearchInput Key.accountNumber v = ok).
Proof.
  intros v. unfold validateSearchInput. destruct (Js.truthy v); cbn [negb]; [|done].
  split.
  - intros Hd%digitsPattern_allDigits. by rewrite allDigits_no_letter.
  - intros Hd. by rewrite allDigits_no_letter.
Qed.

(** * Worked instances of the further properties *)

Lemma relaxesCase_sample : relaxesCase (companySearch "Acme" true) (companySearch "Acme" false).
Proof.
  split; [intros []; reflexivity|]. split; [reflexivity|]. intros []; cbn; congruence.
Defined.

Lemma unticking_case_keeps_results_witness :
  relaxesCase (companySearch "Acme" true) (companySearch "Acme" false)
  /\ In acme (@PrimaryView.filteredAccounts digitsHost [acme; zeta] []
                (companySearch "Acme" false) Key.balance).
Proof.
  split; [exact relaxesCase_sample|].
  apply (proj1 (@unticking_case_keeps_results digitsHost [acme; zeta] []
                  (companySearch "Acme" true) (companySearch "Acme" false)
                  Key.balance acme relaxesCase_sample)).
  vm_compute. left. reflexivity.
Defined.

Lemma empty_query_shows_everything_witness :
  searchStatus emptySearch = []
  /\ Permutation (@PrimaryView.filteredAccounts digitsHost [acme; zeta; nexus] []
                    emptySearch Key.balance) [acme; zeta; nexus].
Proof.
  split; [reflexivity|].
  apply (@empty_query_shows_everything digitsHost [acme; zeta; nexus] emptySearch Key.balance).
  - intros field _. by destruct field.
  - reflexivity.
Defined.

Lemma appended_condition_narrows_or_widens_witness :
  [isAcme] <> []
  /\ advancedResult (@Primary.evaluateFilter digitsHost) zeta ([isAcme] ++ [isZeta])
     = advancedResult (@Primary.evaluateFilter digitsHost) zeta [isAcme]
       || @Primary.evaluateFilter digitsHost zeta isZeta.
Proof.
  assert (Hne : [isAcme] <> []) by discriminate. split; [exact Hne|].
  exact (proj1 (@appended_condition_narrows_or_widens digitsHost zeta [isAcme] isZeta Hne)).
Defined.

Lemma pure_chain_order_insensitive_witness :
  Permutation [isAcme; isOpenRow] [isOpenRow; isAcme]
  /\ advancedResult (@Primary.evaluateFilter digitsHost) acme [isAcme; isOpenRow]
     = advancedResult (@Primary.evaluateFilter digitsHost) acme [isOpenRow; isAcme].
Proof.
  assert (Hp : Permutation [isAcme; isOpenRow] [isOpenRow; isAcme]) by apply perm_swap.
  split; [exact Hp|].
  destruct (@pure_chain_order_insensitive digitsHost acme _ _ Hp) as [Hand _].
  apply Hand. repeat constructor.
Defined.

Lemma date_sort_descending_witness :
  @sortAccountsByField digitsHost [nexus; acme; zeta] Key.dateAdded !! 0%nat = Some acme
  /\ Js.str_ge (dateAdded acme) (dateAdded zeta) = true.
Proof.
  split; [reflexivity|].
  exact (@date_sort_descending digitsHost [nexus; acme; zeta] 0 acme zeta eq_refl eq_refl).
Defined.

Lemma sort_by_other_field_keeps_order_witness :
  In Key.status [Key.id; Key.status; Key.createdDate; Key.lastActivity]
  /\ @sortAccountsByField digitsHost [zeta; acme; nexus] Key.status = [zeta; acme; nexus].
Proof.
  assert (Hk : In Key.status [Key.id; Key.status; Key.createdDate; Key.lastActivity])
    by (right; left; reflexivity).
  split; [exact Hk|].
  exact (@sort_by_other_field_keeps_order digitsHost [zeta; acme; nexus] Key.status Hk).
Defined.

Lemma phone_sort_ascending_witness :
  Forall (@numericPhoneNumber digitsHost) [acme; zeta]
  /\ Js.le (@StringToNumber digitsHost (phoneDigits acme))
           (@StringToNumber digitsHost (phoneDigits zeta)) = true.
Proof.
  assert (Hnum : Forall (@numericPhoneNumber digitsHost) [acme; zeta])
    by (repeat constructor; eexists; vm_compute; reflexivity).
  split; [exact Hnum|].
  exact (@phone_sort_ascending digitsHost [acme; zeta] 0 acme zeta Hnum eq_refl eq_refl).
Defined.

Lemma suggestions_drawn_from_input_witness :
  In acme (findClosestMatches "Ane" [zeta; nexus; acme] Key.companyName)
  /\ In acme [zeta; nexus; acme].
Proof.
  assert (Hin : In acme (findClosestMatches "Ane" [zeta; nexus; acme] Key.companyName))
    by (vm_compute; right; left; reflexivity).
  split; [exact Hin|].
  exact (suggestions_drawn_from_input "Ane" [zeta; nexus; acme] Key.companyName acme Hin).
Defined.

Lemma first_suggestion_has_top_score_witness :
  findClosestMatches "Ane" [zeta; nexus; acme] Key.companyName = zeta :: [acme; nexus]
  /\ (scoreOf "Ane" Key.companyName acme <= scoreOf "Ane" Key.companyName zeta)%Q.
Proof.
  assert (Hr : findClosestMatches "Ane" [zeta; nexus; acme] Key.companyName
               = zeta :: [acme; nexus]) by (vm_compute; reflexivity).
  split; [exact Hr|].
  apply (first_suggestion_has_top_score "Ane" [zeta; nexus; acme] Key.companyName
           zeta [acme; nexus] acme Hr).
  right; right; left; reflexivity.
Defined.

Lemma exact_match_gives_suggestions_witness :
  suggestionKey Key.companyName acme = Js.toLowerCase "ACME CORP"
  /\ (1000 <= scoreOf "ACME CORP" Key.companyName acme)%Q
  /\ findClosestMatches "ACME CORP" [zeta; acme] Key.companyName <> [].
Proof.
  split; [reflexivity|].
  apply (exact_match_gives_suggestions "ACME CORP" [zeta; acme] Key.companyName acme);
    [discriminate|right; left; reflexivity|reflexivity].
Defined.

Lemma suggestions_ignore_term_case_witness :
  Js.toLowerCase "ACME" = Js.toLowerCase "acme"
  /\ findClosestMatches "ACME" [zeta; acme] Key.companyName
     = findClosestMatches "acme" [zeta; acme] Key.companyName.
Proof.
  split; [reflexivity|].
  exact (suggestions_ignore_term_case "ACME" "acme" [zeta; acme] Key.companyName eq_refl).
Defined.

Lemma suggestions_sample :
  suggestions [zeta; nexus; acme] [] (companySearch "Ane" false) []
  = Some [(Key.companyName, [zeta; acme; nexus])].
Proof. vm_compute. reflexivity. Defined.

Lemma suggestions_object_shape_witness :
  suggestions [zeta; nexus; acme] [] (companySearch "Ane" false) []
  = Some [(Key.companyName, [zeta; acme; nexus])]
  /\ NoDup (map fst [(Key.companyName, [zeta; acme; nexus])]).
Proof.
  split; [exact suggestions_sample|].
  exact (proj1 (proj2 (proj2 (suggestions_object_shape [zeta; nexus; acme] []
                  (companySearch "Ane" false) [] _ suggestions_sample)))).
Defined.

Lemma column_term_decides_suggestions_witness :
  nonBlank (searchValue (companySearch "Ane" false) Key.companyName) = true
  /\ exists m,
       suggestions [zeta; nexus; acme] [] (companySearch "Ane" false) [isAcme] = Some m
       /\ forall l, In (Key.companyName, l) m
            <-> l = findClosestMatches "Ane" [zeta; nexus; acme] Key.companyName.
Proof.
  split; [reflexivity|].
  apply (column_term_decides_suggestions [zeta; nexus; acme] (companySearch "Ane" false)
           [isAcme] Key.companyName).
  - right; left; reflexivity.
  - reflexivity.
  - vm_compute. discriminate.
Defined.

Lemma samplePage_checked (input : string) :
  uniqueIds (advancedFilters (samplePage input))
  /\ Forall storedValuesValid (advancedFilters (samplePage input))
  /\ Forall rangeOrdered (advancedFilters (samplePage input))
  /\ Forall operatorOffered (advancedFilters (samplePage input)).
Proof.
  split; [|split; [|split]].
  - repeat constructor. apply not_elem_of_nil.
  - repeat constructor; cbn in *.
    + destruct H as [<-|[]]. reflexivity.
    + intros _. destruct H as [<-|[]]. apply balancePattern_decimalNumber. reflexivity.
    + discriminate.
  - repeat constructor.
  - constructor; [|constructor]. unfold operatorOffered. cbn. do 2 right. left. reflexivity.
Defined.

Lemma added_values_stay_valid_witness :
  uniqueIds (advancedFilters (samplePage " 12.5 "))
  /\ Forall storedValuesValid
       (advancedFilters (Primary.addValueToFilter (samplePage " 12.5 ") "7")).
Proof.
  destruct (samplePage_checked " 12.5 ") as (Hids & Hvalid & _).
  split; [exact Hids|].
  exact (added_values_stay_valid (samplePage " 12.5 ") "7" Hids Hvalid).
Defined.

Lemma apply_filters_accepts_checked_rows_witness :
  Forall rangeOrdered (advancedFilters (samplePage ""))
  /\ executedAdvancedFilters
       (PrimarySearch.handleApplyFilters true (advancedFilters (samplePage ""))
          (samplePanel "12ab" "(555) 123-4567"))
     = advancedFilters (samplePage "").
Proof.
  destruct (samplePage_checked "") as (_ & Hvalid & Hrange & _).
  split; [exact Hrange|].
  exact (proj1 (apply_filters_accepts_checked_rows true (advancedFilters (samplePage ""))
                  (samplePanel "12ab" "(555) 123-4567") Hvalid Hrange)).
Defined.

Lemma datePage_checked :
  uniqueIds (advancedFilters datePage)
  /\ In (dateRow "9" None (Some "2024-06-30")) (advancedFilters datePage)
  /\ Forall rangeOrdered (advancedFilters datePage).
Proof.
  split; [|split].
  - repeat constructor. apply not_elem_of_nil.
  - left. reflexivity.
  - repeat constructor.
Defined.

Lemma date_inputs_keep_ranges_ordered_witness :
  Forall rangeOrdered (advancedFilters datePage)
  /\ Forall rangeOrdered
       (advancedFilters
          (PrimaryPanel.onStartDateChange "2025-01-01" datePage
             (dateRow "9" None (Some "2024-06-30")) "2024-01-01")).
Proof.
  destruct datePage_checked as (Hids & Hin & Hrange).
  split; [exact Hrange|].
  exact (proj1 (date_inputs_keep_ranges_ordered "2025-01-01" datePage
                  (dateRow "9" None (Some "2024-06-30")) "2024-01-01" Hids Hin Hrange)).
Defined.

Lemma new_row_only_after_a_filled_one_witness :
  allButLastActive (advancedFilters (samplePage ""))
  /\ allButLastActive
       (advancedFilters (PrimaryPanel.addAdvancedFilter "1700000000000" (samplePage ""))).
Proof.
  assert (Hinv : allButLastActive (advancedFilters (samplePage ""))) by constructor.
  split; [exact Hinv|].
  pose proof (new_row_only_after_a_filled_one "1700000000000" (samplePage "")) as Hadd.
  cbv zeta in Hadd. destruct Hadd as (_ & _ & _ & _ & Hkeep). exact (Hkeep Hinv).
Defined.

Lemma remove_row_keeps_one_witness :
  advancedFilters (samplePage "") <> []
  /\ advancedFilters (PrimaryPanel.removeAdvancedFilter (samplePage "") "7") <> [].
Proof.
  destruct (samplePage_checked "") as (Hids & _).
  assert (Hne : advancedFilters (samplePage "") <> []) by discriminate.
  split; [exact Hne|].
  exact (proj1 (remove_row_keeps_one (samplePage "") "7" Hids Hne)).
Defined.

Lemma add_then_remove_value_witness :
  Js.trim (inputValue (balanceRow " 12.5 ")) <> EmptyString
  /\ map values
       (advancedFilters
          (PrimaryPanel.removeValueFromFilter
             (SecondaryPanel.addValueToFilter (samplePage " 12.5 ") "7") "7"
             (length (values (balanceRow " 12.5 ")))))
     = map values (advancedFilters (samplePage " 12.5 ")).
Proof.
  destruct (samplePage_checked " 12.5 ") as (Hids & _).
  assert (Hne : Js.trim (inputValue (balanceRow " 12.5 ")) <> EmptyString) by discriminate.
  split; [exact Hne|].
  exact (proj1 (proj2 (add_then_remove_value (samplePage " 12.5 ") "7"
                         (balanceRow " 12.5 ") Hids eq_refl Hne))).
Defined.

Lemma operator_stays_offered_witness :
  Forall operatorOffered (advancedFilters (samplePage ""))
  /\ Forall operatorOffered
       (advancedFilters
          (PrimaryPanel.onFieldChange (samplePage "") (balanceRow "") Key.dateAdded)).
Proof.
  destruct (samplePage_checked "") as (Hids & _ & _ & Hop).
  split; [exact Hop|].
  exact (proj1 (@operator_stays_offered digitsHost (samplePage "") (balanceRow "")
                  Key.dateAdded OpIs Hids ltac:(left; reflexivity) Hop)).
Defined.

Lemma offered_operator_is_decided_by_operands_witness :
  operatorOffered (balanceRow "")
  /\ @Primary.evaluateFilter digitsHost acme (balanceRow "")
     = existsb (fun v => Js.gt (Js.ofZ (balance acme)) (@StringToNumber digitsHost v))
         (values (balanceRow "")).
Proof.
  assert (Hop : operatorOffered (balanceRow ""))
    by (unfold operatorOffered; cbn; do 2 right; left; reflexivity).
  split; [exact Hop|].
  destruct (@offered_operator_is_decided_by_operands digitsHost acme (balanceRow "") Hop)
    as [[Hno _]|(test & Htest & Heval)]; [discriminate|discriminate|discriminate|].
  injection Htest as <-. exact Heval.
Defined.

Lemma digits_pass_the_validator_witness :
  validateSearchInput Key.phoneNumber "(555) 123-4567" = ok
  /\ validateSearchInput Key.accountNumber "12345678" = ok.
Proof.
  destruct (digits_pass_the_validator "(555) 123-4567") as [Hphone _].
  destruct (digits_pass_the_validator "12345678") as [_ Haccount].
  split; [apply Hphone|apply Haccount]; reflexivity.
Defined.

(** ** The rounding at work *)

(** [Double.round] agrees with the machine's binary64 arithmetic on the
    operations of the score, for every count of matching characters up to
    59 and every term length from 1 to 40. *)
Lemma round_agrees_with_binary64 :
  forallb (fun '(m, n) => sameArithmetic m n) sampleCounts = true.
Proof. vm_compute. reflexivity. Qed.

(** In exact arithmetic the score of [padded] for "abcde" would be
    [11 / 5 * 50 - 55 * 2], zero; in doubles the quotient rounds up, the
    score is [2^-46], and the record is suggested. *)
Lemma rounding_tips_the_score :
  (natQ 11 / natQ 5 * 50 - natQ 55 * 2 == 0)%Q
  /\ (scoreOf "abcde" Key.companyName padded == 2 ^ (-46))%Q
  /\ findClosestMatches "abcde" [padded] Key.companyName = [padded].
Proof. split; [|split]; vm_compute; reflexivity. Qed.
